(** * pydbs-analytic: the fill engine and the two reports, over a relational store

    A shallow embedding of [script/database.py], [script/misc.py] and the fill
    mode of [main.py].  The Python code builds every SQL statement by
    interpolating values into an f-string; the embedding keeps that step: each
    interpolated text is rendered the way Python renders it and read back the
    way the SQLite tokenizer reads a quoted token, and the statement is then
    run over tables held as lists of rows.

    Conventions.
    - A Python [str] is a [string]; its characters are the code points below
      256, so [str.lower] and [repr] are the Latin-1 part of the Python ones.
    - A nullable column is an [option]; an [INTEGER] is a [Z].
    - A table is the list of its rows in scan order; a table that was never
      created is [None].
    - SQL leaves the order of result rows to the engine.  The reports list
      their rows in the order of the nested scan written in the query; no
      statement below depends on that order beyond what it says. *)

From Stdlib Require Import ZArith List String Ascii Bool Lia Arith PeanoNat.
Import ListNotations.

Local Open Scope string_scope.
Local Open Scope Z_scope.

(* ------------------------------------------------------------------ *)
(** ** Python values and control *)

Module Py.

(** The exceptions this program can meet: [IndexError] from [random.choice]
    on an empty sequence, [sqlite3.OperationalError] from the engine, and the
    refusal of a query text that holds a NUL character, raised by the
    [sqlite3] module before the engine sees the text ([ValueError] or
    [sqlite3.ProgrammingError], by Python version). *)
Inductive exn : Type :=
| IndexError
| OperationalError
| NullCharacter.

(** How a call ends.  [Misread] marks a statement in which an interpolated
    text did not stay inside the quotes the f-string put around it, or names
    a column where a text was meant: SQLite then runs a statement other than
    the one written in the source, and the embedding does not follow it. *)
Inductive outcome (A : Type) : Type :=
| Returned (a : A)
| Raised (e : exn)
| Misread.

Arguments Returned {A} a.
Arguments Raised {A} e.
Arguments Misread {A}.

Definition obind {A B} (o : outcome A) (f : A -> outcome B) : outcome B :=
  match o with
  | Returned a => f a
  | Raised e => Raised e
  | Misread => Misread
  end.

(** A list comprehension whose body may raise: the first failure ends it. *)
Fixpoint comprehension {A B} (f : A -> outcome B) (l : list A)
  : outcome (list B) :=
  match l with
  | [] => Returned []
  | x :: l' =>
      obind (f x) (fun y =>
      obind (comprehension f l') (fun ys => Returned (y :: ys)))
  end.

(** [range(count)]: empty when [count] is not positive. *)
Definition range (count : Z) : list nat := seq 0 (Z.to_nat count).

(** [random.choice(seq)] is [seq[self._randbelow(len(seq))]] and raises
    [IndexError] on an empty sequence.  [word] is the random word the
    generator consumes; it is brought below [len(seq)]. *)
Definition choice {A} (word : nat) (l : list A) : outcome A :=
  match l with
  | [] => Raised IndexError
  | x :: _ => Returned (nth (word mod List.length l) l x)
  end.

Definition code (c : ascii) : nat := nat_of_ascii c.

(** [str.lower], on code points below 256: A-Z, and the accented capitals
    U+00C0-U+00DE other than the multiplication sign U+00D7. *)
Definition lower_char (c : ascii) : ascii :=
  let n := code c in
  if (((65 <=? n) && (n <=? 90))
      || ((192 <=? n) && (n <=? 222) && negb (n =? 215)))%nat
  then ascii_of_nat (n + 32) else c.

Fixpoint map_string (f : ascii -> ascii) (s : string) : string :=
  match s with
  | EmptyString => EmptyString
  | String c s' => String (f c) (map_string f s')
  end.

Definition lower (s : string) : string := map_string lower_char s.

(** [s.replace(old, new)] for one-character [old] and [new]. *)
Definition replace (old new : ascii) (s : string) : string :=
  map_string (fun c => if Ascii.eqb c old then new else c) s.

Fixpoint contains (c : ascii) (s : string) : bool :=
  match s with
  | EmptyString => false
  | String d s' => Ascii.eqb d c || contains c s'
  end.

Definition squote : ascii := "'"%char.
Definition dquote : ascii := "034"%char.
Definition backslash : ascii := "\"%char.

(** [str.isprintable] below 256: the controls (U+0000-U+001F, U+007F-U+009F),
    the no-break space U+00A0 and the soft hyphen U+00AD are not. *)
Definition printable (c : ascii) : bool :=
  let n := code c in
  ((32 <=? n) && (n <=? 126) || (161 <=? n) && negb (n =? 173))%nat.

Definition hex_digit (n : nat) : ascii :=
  if (n <? 10)%nat then ascii_of_nat (48 + n) else ascii_of_nat (87 + n).

(** One character of [repr(s)] between the quotes [q]. *)
Definition repr_char (q c : ascii) : string :=
  if Ascii.eqb c backslash then String backslash (String backslash EmptyString)
  else if Ascii.eqb c q then String backslash (String q EmptyString)
  else if Ascii.eqb c "009"%char then "\t"
  else if Ascii.eqb c "010"%char then "\n"
  else if Ascii.eqb c "013"%char then "\r"
  else if printable c then String c EmptyString
  else String backslash (String "x"%char
         (String (hex_digit (code c / 16)) (String (hex_digit (code c mod 16))
            EmptyString))).

Fixpoint repr_body (q : ascii) (s : string) : string :=
  match s with
  | EmptyString => EmptyString
  | String c s' => repr_char q c ++ repr_body q s'
  end.

(** [repr(s)]: single quotes, unless [s] holds a single quote and no double
    quote. *)
Definition repr_quote (s : string) : ascii :=
  if contains squote s && negb (contains dquote s) then dquote else squote.

Definition repr (s : string) : string :=
  let q := repr_quote s in
  String q (repr_body q s ++ String q EmptyString).

End Py.

(* ------------------------------------------------------------------ *)
(** ** How SQLite reads the interpolated texts *)

Module Sql.

Import Py.

(** Outcome of scanning a quoted token from just after its opening quote:
    the text it holds and what follows it, or no closing quote at all. *)
Inductive scanned : Type :=
| Closed (content rest : string)
| Unterminated.

(** The tokenizer's loop for a token opened by [q]: a doubled [q] stands for
    one [q], a single [q] closes the token, the end of the input leaves it
    open.  There is no backslash escape in SQL. *)
Fixpoint scan_quoted (q : ascii) (s : string) : scanned :=
  match s with
  | EmptyString => Unterminated
  | String c s' =>
      if Ascii.eqb c q then
        match s' with
        | String c' s'' =>
            if Ascii.eqb c' q then
              match scan_quoted q s'' with
              | Closed k r => Closed (String q k) r
              | Unterminated => Unterminated
              end
            else Closed EmptyString s'
        | EmptyString => Closed EmptyString EmptyString
        end
      else
        match scan_quoted q s' with
        | Closed k r => Closed (String c k) r
        | Unterminated => Unterminated
        end
  end.

Definition nul : ascii := "000"%char.

(** A text the f-string wrapped as ['{text}'] where a value is expected
    ([VALUES (...)]): the value SQLite stores when the token ends exactly
    where the f-string meant it to. *)
Definition quoted_value (text : string) : outcome string :=
  if contains nul text then Raised NullCharacter
  else
    match scan_quoted squote (text ++ String squote EmptyString) with
    | Closed k EmptyString => Returned k
    | _ => Misread
    end.

(** A text rendered by [repr], with the quotes [repr] chose.  A double-quoted
    token is a text in [VALUES (...)], no column being in scope there.
    [repr] writes a NUL as its escape, so none reaches the query. *)
Definition rendered_value (r : string) : outcome string :=
  match r with
  | String q body =>
      if Ascii.eqb q squote || Ascii.eqb q dquote then
        match scan_quoted q body with
        | Closed k EmptyString => Returned k
        | _ => Misread
        end
      else Misread
  | EmptyString => Misread
  end.

(** Names compare without regard to the case of A-Z. *)
Definition fold_char (c : ascii) : ascii :=
  let n := code c in
  if ((65 <=? n) && (n <=? 90))%nat then ascii_of_nat (n + 32) else c.

Definition name_eqb (a b : string) : bool :=
  String.eqb (map_string fold_char a) (map_string fold_char b).

(** What the double-quoted token of ["{text}"] stands for where an
    expression is expected. *)
Inductive operand : Type :=
| Text (s : string)     (* no name in scope matches: a text value *)
| Name (s : string)     (* a column or a result alias of the statement *)
| Illegal               (* the token never closes: unrecognized token *)
| Spliced               (* the token closes inside the interpolated text *)
| Refused.              (* the text holds a NUL *)

(** The operand built by ["{text}"] when the query goes on with [tail] and
    the names [scope] can be referred to at that place. *)
Definition dq_operand (scope : list string) (tail text : string) : operand :=
  if contains nul text then Refused
  else
    match scan_quoted dquote (text ++ String dquote tail) with
    | Unterminated => Illegal
    | Closed k rest =>
        if String.eqb rest tail then
          if existsb (name_eqb k) scope then Name k else Text k
        else Spliced
    end.

(** How a statement whose only interpolated text is that operand ends, [run]
    being the statement with a text in its place. *)
Definition with_operand {A} (o : operand) (run : string -> outcome A)
  : outcome A :=
  match o with
  | Text s => run s
  | Illegal => Raised OperationalError
  | Refused => Raised NullCharacter
  | Name _ | Spliced => Misread
  end.

End Sql.

(* ------------------------------------------------------------------ *)
(** ** The two databases *)

Module Schema.

Import Py.

(** A [datetime] value, in microseconds on the naive local time line.  The
    [datetime] column holds its [str()] text, which is made of digits,
    dashes, colons, a space and a dot. *)
Definition timestamp : Type := Z.

Definition day : Z := 86400000000.

(** [main.users], [main.blog], [main.post], [main.comment]. *)
Record users_row : Type := {
  users_id : Z;
  users_email : option string;
  users_login : string
}.

Record blog_row : Type := {
  blog_id : Z;
  blog_owner_id : option Z;
  blog_name : string;
  blog_description : option string
}.

Record post_row : Type := {
  post_id : Z;
  post_header : string;
  post_text : option string;
  post_author_id : option Z;
  post_blog_id : option Z
}.

Record comment_row : Type := {
  comment_id : Z;
  comment_text : option string;
  comment_author_id : option Z;
  comment_post_id : option Z
}.

(** [logging.event_type] and [logging.space_type] have the same columns. *)
Record type_row : Type := {
  type_id : Z;
  type_name : string
}.

Record logs_row : Type := {
  logs_id : Z;
  logs_datetime : timestamp;
  logs_user_id : option Z;
  logs_space_type_id : option Z;
  logs_event_type_id : option Z
}.

(** The connection: the main database with the logging one attached. *)
Record store : Type := {
  users : option (list users_row);
  blog : option (list blog_row);
  post : option (list post_row);
  comment : option (list comment_row);
  event_type : option (list type_row);
  space_type : option (list type_row);
  logs : option (list logs_row)
}.

(** Two new database files. *)
Definition fresh : store :=
  {| users := None; blog := None; post := None; comment := None;
     event_type := None; space_type := None; logs := None |}.

(** A table by name: how to reach it in the store, and its [id] column. *)
Record table (R : Type) : Type := {
  get : store -> option (list R);
  set : option (list R) -> store -> store;
  rowid : R -> Z
}.

Arguments get {R} t s.
Arguments set {R} t v s.
Arguments rowid {R} t r.

Definition main_users : table users_row :=
  {| get := users;
     set := fun v s =>
       {| users := v; blog := blog s; post := post s; comment := comment s;
          event_type := event_type s; space_type := space_type s;
          logs := logs s |};
     rowid := users_id |}.

Definition main_blog : table blog_row :=
  {| get := blog;
     set := fun v s =>
       {| users := users s; blog := v; post := post s; comment := comment s;
          event_type := event_type s; space_type := space_type s;
          logs := logs s |};
     rowid := blog_id |}.

Definition main_post : table post_row :=
  {| get := post;
     set := fun v s =>
       {| users := users s; blog := blog s; post := v; comment := comment s;
          event_type := event_type s; space_type := space_type s;
          logs := logs s |};
     rowid := post_id |}.

Definition main_comment : table comment_row :=
  {| get := comment;
     set := fun v s =>
       {| users := users s; blog := blog s; post := post s; comment := v;
          event_type := event_type s; space_type := space_type s;
          logs := logs s |};
     rowid := comment_id |}.

Definition logging_event_type : table type_row :=
  {| get := event_type;
     set := fun v s =>
       {| users := users s; blog := blog s; post := post s;
          comment := comment s; event_type := v;
          space_type := space_type s; logs := logs s |};
     rowid := type_id |}.

Definition logging_space_type : table type_row :=
  {| get := space_type;
     set := fun v s =>
       {| users := users s; blog := blog s; post := post s;
          comment := comment s; event_type := event_type s;
          space_type := v; logs := logs s |};
     rowid := type_id |}.

Definition logging_logs : table logs_row :=
  {| get := logs;
     set := fun v s =>
       {| users := users s; blog := blog s; post := post s;
          comment := comment s; event_type := event_type s;
          space_type := space_type s; logs := v |};
     rowid := logs_id |}.

(** A call on the connection: it may change the store and ends as an
    [outcome]; what was written before an exception stays written. *)
Definition M (A : Type) : Type := store -> store * outcome A.

Definition ret {A} (a : A) : M A := fun s => (s, Returned a).

Definition bind {A B} (m : M A) (f : A -> M B) : M B :=
  fun s =>
    match m s with
    | (s', Returned a) => f a s'
    | (s', Raised e) => (s', Raised e)
    | (s', Misread) => (s', Misread)
    end.

(** A computation that does not touch the store. *)
Definition pure {A} (o : outcome A) : M A := fun s => (s, o).

Declare Scope db_scope.
Delimit Scope db_scope with db.
Notation "x <- m ;; k" := (bind m (fun x => k))
  (at level 61, m at next level, right associativity) : db_scope.
Notation "m ;; k" := (bind m (fun _ => k))
  (at level 61, right associativity) : db_scope.

(** The largest row id of SQLite, 2^63 - 1. *)
Definition rowid_max : Z := 9223372036854775807.

(** The id a row inserted without one receives: 1 in an empty table, one
    more than the largest id otherwise.  The engine leaves that rule when
    the largest id is [rowid_max]: it then tries unused ids at random.  The
    value given here is the engine's as long as it is at most [rowid_max];
    the statements that rest on where new rows go ask for that. *)
Definition next_id {R} (id : R -> Z) (rows : list R) : Z :=
  match map id rows with
  | [] => 1
  | x :: xs => 1 + fold_right Z.max x xs
  end.

(** [INSERT ... VALUES v1, v2, ...]: the rows are added one after the other. *)
Fixpoint append_rows {R} (id : R -> Z) (rows : list R) (new : list (Z -> R))
  : list R :=
  match new with
  | [] => rows
  | r :: new' => append_rows id (rows ++ [r (next_id id rows)]) new'
  end.

(** [CREATE TABLE t]: fails when [t] exists. *)
Definition create_table {R} (t : table R) : M unit :=
  fun s =>
    match get t s with
    | Some _ => (s, Raised OperationalError)
    | None => (set t (Some []) s, Returned tt)
    end.

(** [INSERT INTO t] of rows already read: fails when [t] does not exist. *)
Definition insert {R} (t : table R) (new : list (Z -> R)) : M unit :=
  fun s =>
    match get t s with
    | None => (s, Raised OperationalError)
    | Some rows => (set t (Some (append_rows (rowid t) rows new)) s, Returned tt)
    end.

(** [cursor.execute] of [INSERT INTO t (...) VALUES {values}], [values] being
    the comma-joined list of the rendered tuples: with no tuple the text is
    [VALUES ;], a syntax error; otherwise each tuple is read back by [read]. *)
Definition execute_insert {V R} (t : table R) (read : V -> outcome (Z -> R))
    (values : list V) : M unit :=
  match values with
  | [] => pure (Raised OperationalError)
  | _ :: _ =>
      (new <- pure (comprehension read values) ;; insert t new)%db
  end.

End Schema.

(* ------------------------------------------------------------------ *)
(** ** script/misc.py *)

Module misc.

Import Schema.

(** [is_lorem] and [is_faker]: whether the optional modules were found when
    [misc] was imported. *)
Record modules : Type := {
  is_lorem : bool;
  is_faker : bool
}.

(** An end of a date range: ["now"], or a number of days as in ["-5d"] and
    ["+4d"]. *)
Inductive bound : Type :=
| now_
| days (n : Z).

Definition offset (b : bound) : Z :=
  match b with
  | now_ => 0
  | days n => n * day
  end.

(** What the outer world answers to one call of [get_random_date]: the
    reading of the clock, and what [faker] would return for a range. *)
Record clock : Type := {
  now : timestamp;
  date_time_between : bound -> bound -> timestamp
}.

(** [faker]'s contract for [date_time_between]: a time within the range,
    both ends included, counted from the clock reading. *)
Definition in_range (c : clock) (starts ends : bound) : Prop :=
  now c + offset starts <= date_time_between c starts ends <= now c + offset ends.

Definition get_name (m : modules) (faker_name : string) : string :=
  if negb (is_faker m) then "User Name" else faker_name.

Definition get_sentence (m : modules) (lorem_sentence : string) : string :=
  if negb (is_lorem m) then "Random sentence" else lorem_sentence.

Definition get_description (m : modules) (lorem_paragraph : string) : string :=
  if negb (is_lorem m) then "Random description" else lorem_paragraph.

Definition get_random_date (m : modules) (starts ends : bound) (c : clock)
  : timestamp :=
  if negb (is_faker m) then now c else date_time_between c starts ends.

End misc.

(* ------------------------------------------------------------------ *)
(** ** script/database.py *)

Module DBInterface.

Import Py Sql Schema misc.

Local Open Scope db_scope.

(** *** Schema *)

Definition event_type_names : list string :=
  ["login"; "comment"; "create_post"; "delete_post"; "logout"].

Definition space_type_names : list string := ["global"; "blog"; "post"].

Definition named (name : string) : Z -> type_row :=
  fun id => {| type_id := id; type_name := name |}.

(** [connection.executescript(query)]: the seven [CREATE TABLE] and the two
    [INSERT] statements run in order, and the first that fails ends the
    script, the statements before it staying done. *)
Definition create_tables : M unit :=
  create_table main_users ;;
  create_table main_blog ;;
  create_table main_post ;;
  create_table main_comment ;;
  create_table logging_event_type ;;
  create_table logging_space_type ;;
  create_table logging_logs ;;
  insert logging_event_type (map named event_type_names) ;;
  insert logging_space_type (map named space_type_names).

(** [SELECT id FROM {table_name}]. *)
Definition __get_all_ids__ {R} (t : table R) : M (list Z) :=
  fun s =>
    match get t s with
    | None => (s, Raised OperationalError)
    | Some rows => (s, Returned (map (rowid t) rows))
    end.

(** *** Fill *)

Definition email_of (name : string) : string :=
  replace " "%char "_"%char (lower name) ++ "@example.com".

(** A tuple [(email, login)] as [str(pair)] writes it: each member by
    [repr]. *)
Definition read_user (pair : string * string) : outcome (Z -> users_row) :=
  obind (rendered_value (repr (fst pair))) (fun email =>
  obind (rendered_value (repr (snd pair))) (fun login =>
  Returned (fun id =>
    {| users_id := id; users_email := Some email; users_login := login |}))).

(** [faker_name i] is what [faker.Faker().name()] answers at the [i]-th
    call. *)
Definition fill_users (m : modules) (count : Z) (faker_name : nat -> string)
  : M unit :=
  let logins := map (fun i => get_name m (faker_name i)) (range count) in
  let emails := map email_of logins in
  execute_insert main_users read_user (combine emails logins).

(** What the outer world answers during one round of [fill_blogs]. *)
Record blog_draw : Type := {
  owner_word : nat;
  blog_sentence : string;
  blog_paragraph : string
}.

Definition read_blog (v : Z * string * string) : outcome (Z -> blog_row) :=
  let '(owner, name, description) := v in
  obind (quoted_value name) (fun name' =>
  obind (quoted_value description) (fun description' =>
  Returned (fun id =>
    {| blog_id := id; blog_owner_id := Some owner; blog_name := name';
       blog_description := Some description' |}))).

Definition fill_blogs (m : modules) (count : Z) (draw : nat -> blog_draw)
  : M unit :=
  user_ids <- __get_all_ids__ main_users ;;
  values <- pure (comprehension (fun i =>
      obind (choice (owner_word (draw i)) user_ids) (fun owner =>
      Returned (owner, get_sentence m (blog_sentence (draw i)),
                get_description m (blog_paragraph (draw i)))))
    (range count)) ;;
  execute_insert main_blog read_blog values.

(** A tuple [(datetime, user_id, space_type_id, event_type_id)] of the
    logging statements; every member is a number or a [datetime]. *)
Definition log_value : Type := (timestamp * Z * Z * Z)%type.

Definition read_log (v : log_value) : outcome (Z -> logs_row) :=
  let '(datetime, user_id, space_type_id, event_type_id) := v in
  Returned (fun id =>
    {| logs_id := id; logs_datetime := datetime; logs_user_id := Some user_id;
       logs_space_type_id := Some space_type_id;
       logs_event_type_id := Some event_type_id |}).

(** What the outer world answers during one round of [fill_posts]; [die] is
    [random.randint(0, 3)]. *)
Record post_draw : Type := {
  author_word : nat;
  blog_word : nat;
  post_sentence : string;
  post_paragraph : string;
  creation : clock;
  die : Z;
  deletion : clock
}.

Definition read_post (v : string * string * Z * Z) : outcome (Z -> post_row) :=
  let '(header, text, user_id, blog_id) := v in
  obind (quoted_value header) (fun header' =>
  obind (quoted_value text) (fun text' =>
  Returned (fun id =>
    {| post_id := id; post_header := header'; post_text := Some text';
       post_author_id := Some user_id; post_blog_id := Some blog_id |}))).

(** One round of the loop of [fill_posts]: the tuple for [main.post] and the
    one or two tuples for [logging.logs]. *)
Definition post_round (m : modules) (user_ids blog_ids : list Z) (d : post_draw)
  : outcome ((string * string * Z * Z) * list log_value) :=
  obind (choice (author_word d) user_ids) (fun user_id =>
  obind (choice (blog_word d) blog_ids) (fun blog_id =>
  Returned
    ((get_sentence m (post_sentence d), get_description m (post_paragraph d),
      user_id, blog_id),
     (get_random_date m (days (-2)) now_ (creation d), user_id, 2, 3)
     :: (if die d =? 1
         then [(get_random_date m (days 1) (days 4) (deletion d), user_id, 2, 4)]
         else [])))).

Definition fill_posts (m : modules) (count : Z) (draw : nat -> post_draw)
  : M unit :=
  user_ids <- __get_all_ids__ main_users ;;
  blog_ids <- __get_all_ids__ main_blog ;;
  rounds <- pure (comprehension
    (fun i => post_round m user_ids blog_ids (draw i)) (range count)) ;;
  execute_insert main_post read_post (map fst rounds) ;;
  execute_insert logging_logs read_log (List.concat (map snd rounds)).

(** What the outer world answers during one round of [fill_comments]. *)
Record comment_draw : Type := {
  commenter_word : nat;
  post_word : nat;
  comment_paragraph : string;
  commented : clock;
  logged_word : nat
}.

Definition read_comment (v : string * Z * Z) : outcome (Z -> comment_row) :=
  let '(text, user_id, post_id) := v in
  obind (quoted_value text) (fun text' =>
  Returned (fun id =>
    {| comment_id := id; comment_text := Some text';
       comment_author_id := Some user_id; comment_post_id := Some post_id |})).

Definition comment_round (m : modules) (user_ids post_ids : list Z)
    (d : comment_draw) : outcome ((string * Z * Z) * log_value) :=
  obind (choice (commenter_word d) user_ids) (fun user_id =>
  obind (choice (post_word d) post_ids) (fun post_id =>
  obind (choice (logged_word d) user_ids) (fun logged_id =>
  Returned
    ((get_description m (comment_paragraph d), user_id, post_id),
     (get_random_date m now_ (days 1) (commented d), logged_id, 3, 2))))).

Definition fill_comments (m : modules) (count : Z) (draw : nat -> comment_draw)
  : M unit :=
  user_ids <- __get_all_ids__ main_users ;;
  post_ids <- __get_all_ids__ main_post ;;
  rounds <- pure (comprehension
    (fun i => comment_round m user_ids post_ids (draw i)) (range count)) ;;
  execute_insert main_comment read_comment (map fst rounds) ;;
  execute_insert logging_logs read_log (map snd rounds).

(** [[("-5d", "now"), ("now", "+5d")][not is_login]]. *)
Definition date_range (is_login : bool) : bound * bound :=
  if negb is_login then (now_, days 5) else (days (-5), now_).

(** [draw i] answers the call of [get_random_date] made for the [i]-th user
    id. *)
Definition fill_logs_login_logout (m : modules) (is_login : bool)
    (draw : nat -> clock) : M unit :=
  user_ids <- __get_all_ids__ main_users ;;
  let state := if is_login then 1 else 5 in
  let values :=
    map (fun iu : nat * Z =>
           (get_random_date m (fst (date_range is_login))
              (snd (date_range is_login)) (draw (fst iu)),
            snd iu, 1, state))
        (combine (seq 0 (List.length user_ids)) user_ids) in
  execute_insert logging_logs read_log values.

(** *** Reports *)

(** [a == b] between nullable integers: a NULL equals nothing. *)
Definition sql_eq (a b : option Z) : bool :=
  match a, b with
  | Some x, Some y => x =? y
  | _, _ => false
  end.

(** A row [(Login, Header, Author, Count)]. *)
Definition comments_info : Type := (string * string * option string * Z)%type.

(** [(SELECT usr_in.login FROM main.users AS usr_in WHERE usr_in.id ==
    pst.author_id)]: the first such login, NULL when there is none. *)
Definition author_login (usr : list users_row) (pst : post_row)
  : option string :=
  match filter (fun usr_in => sql_eq (Some (users_id usr_in)) (post_author_id pst))
               usr with
  | [] => None
  | usr_in :: _ => Some (users_login usr_in)
  end.

(** [(SELECT count( * ) FROM main.comment AS cmt_in WHERE cmt_in.post_id ==
    cmt.post_id)]. *)
Definition comments_count (cmts : list comment_row) (cmt : comment_row) : Z :=
  Z.of_nat (List.length
    (filter (fun cmt_in => sql_eq (comment_post_id cmt_in) (comment_post_id cmt))
            cmts)).

(** The rows one comment gives: one for each pair of a user and a post that
    the two joins attach to it and that passes the [WHERE]. *)
Definition comment_rows (cmts : list comment_row) (usrs : list users_row)
    (psts : list post_row) (username : string) (cmt : comment_row)
  : list comments_info :=
  flat_map (fun usr =>
    if sql_eq (comment_author_id cmt) (Some (users_id usr)) then
      flat_map (fun pst =>
        if sql_eq (comment_post_id cmt) (Some (post_id pst))
           && String.eqb (users_login usr) username
        then [(users_login usr, post_header pst, author_login usrs pst,
               comments_count cmts cmt)]
        else [])
        psts
    else [])
    usrs.

Definition select_comments_info (cmts : list comment_row)
    (usrs : list users_row) (psts : list post_row) (username : string)
  : list comments_info :=
  flat_map (comment_rows cmts usrs psts username) cmts.

(** The names a bare identifier can refer to in the [WHERE] of
    [get_user_comments_info]: the columns of [cmt], [usr] and [pst] and the
    result aliases.  The names of the row id are not among them: with three
    tables joined SQLite cannot tell whose row id is meant and reads the
    token as a text. *)
Definition comments_scope : list string :=
  ["id"; "text"; "author_id"; "post_id"; "email"; "login"; "header";
   "blog_id"; "author"; "count"].

Definition spaces (n : nat) : string :=
  string_of_list_ascii (repeat " "%char n).

Definition newline : string := String "010"%char EmptyString.

(** The text of the query after ["{username}"]. *)
Definition comments_tail : string := newline ++ spaces 8.

(** A login is put into the query as it is, so it can close the token and
    go on with SQL of its own.  One such continuation is followed, to show
    what that allows; any other is not.  It appends a second [SELECT] and
    turns the rest of the line, closing quote included, into a comment. *)
Definition orphans_probe : string :=
  " UNION ALL SELECT 'orphan', 'orphan', NULL, cmt.id FROM main.comment AS cmt WHERE cmt.author_id IS NULL --".

(** The text before the quote that closes the token, when what follows it
    is [orphans_probe] and that text is no name in reach. *)
Definition orphans_spliced (username : string) : option string :=
  match scan_quoted dquote (username ++ String dquote comments_tail) with
  | Closed k rest =>
      if String.eqb rest (orphans_probe ++ String dquote comments_tail)
         && negb (existsb (name_eqb k) comments_scope)
      then Some k else None
  | Unterminated => None
  end.

(** The rows of the second [SELECT] of [orphans_probe]: one for each
    comment whose [author_id] is NULL, with its id. *)
Definition orphan_rows (cmts : list comment_row) : list comments_info :=
  map (fun cmt => ("orphan", "orphan", None, comment_id cmt))
      (filter (fun cmt => match comment_author_id cmt with
                          | None => true
                          | Some _ => false
                          end) cmts).

Definition get_user_comments_info (username : string) : M (list comments_info) :=
  fun s =>
    (s, match dq_operand comments_scope comments_tail username with
        | Spliced =>
            match orphans_spliced username with
            | Some text =>
                match comment s, users s, post s with
                | Some cmts, Some usrs, Some psts =>
                    Returned (select_comments_info cmts usrs psts text
                              ++ orphan_rows cmts)%list
                | _, _, _ => Raised OperationalError
                end
            | None => Misread
            end
        | operand =>
            with_operand operand
              (fun text =>
                 match comment s, users s, post s with
                 | Some cmts, Some usrs, Some psts =>
                     Returned (select_comments_info cmts usrs psts text)
                 | _, _, _ => Raised OperationalError
                 end)
        end).

(** A row [(Date, Logins, Logouts, Actions)]. *)
Definition actions_info : Type := (option string * Z * Z * Z)%type.

(** [(SELECT usr.id FROM main.users AS usr WHERE usr.login == ... LIMIT 1)]. *)
Definition user_id_of (usrs : list users_row) (username : string) : option Z :=
  match filter (fun usr => String.eqb (users_login usr) username) usrs with
  | [] => None
  | usr :: _ => Some (users_id usr)
  end.

(** [count(CASE WHEN p THEN 1 END)] over a group. *)
Definition count_when (p : logs_row -> bool) (group : list logs_row) : Z :=
  Z.of_nat (List.length (filter p group)).

Definition is_event (n : Z) (lgs : logs_row) : bool :=
  sql_eq (logs_event_type_id lgs) (Some n).

Definition is_action (lgs : logs_row) : bool :=
  match logs_space_type_id lgs with
  | Some n => 1 <? n
  | None => false
  end.

(** Group keys are equal when they are the same text, or both NULL. *)
Definition key_eqb (a b : option string) : bool :=
  match a, b with
  | Some x, Some y => String.eqb x y
  | None, None => true
  | _, _ => false
  end.

(** The keys of [GROUP BY], each once. *)
Fixpoint distinct (keys : list (option string)) : list (option string) :=
  match keys with
  | [] => []
  | k :: keys' => k :: filter (fun k' => negb (key_eqb k k')) (distinct keys')
  end.

(** [GROUP BY] collects the groups in a sorter and hands them out in the
    order of their keys: NULL first, then the texts in the order of their
    bytes (which is the order of the code points). *)
Definition key_leb (a b : option string) : bool :=
  match a, b with
  | None, _ => true
  | Some _, None => false
  | Some x, Some y => String.leb x y
  end.

Fixpoint insert_key (k : option string) (keys : list (option string))
  : list (option string) :=
  match keys with
  | [] => [k]
  | k' :: keys' =>
      if key_leb k k' then k :: keys else k' :: insert_key k keys'
  end.

Definition sorted_keys (keys : list (option string)) : list (option string) :=
  fold_right insert_key [] keys.

(** [date] is SQLite's [date()] on the text of a [datetime] column: the
    calendar date, or NULL. *)
Definition select_actions_info (date : timestamp -> option string)
    (lgs : list logs_row) (usrs : list users_row) (username : string)
  : list actions_info :=
  let mine :=
    filter (fun l => sql_eq (logs_user_id l) (user_id_of usrs username)) lgs in
  map (fun d =>
         let group :=
           filter (fun l => key_eqb (date (logs_datetime l)) d) mine in
         (d, count_when (is_event 1) group, count_when (is_event 5) group,
          count_when is_action group))
      (sorted_keys (distinct (map (fun l => date (logs_datetime l)) mine))).

(** The names in reach of the inner [WHERE] of [get_user_actions_info]: the
    columns of [usr], the names of the row id, then the columns of [lgs] and
    the result aliases of the outer query. *)
Definition actions_scope : list string :=
  ["id"; "email"; "login"; "rowid"; "_rowid_"; "oid"; "datetime"; "user_id";
   "space_type_id"; "event_type_id"; "date"; "logins"; "logouts"; "actions"].

Definition actions_tail : string :=
  " LIMIT 1" ++ newline ++ spaces 12 ++ ")" ++ newline ++ spaces 12
  ++ "GROUP BY date(lgs.datetime)" ++ newline ++ spaces 8.

Definition get_user_actions_info (date : timestamp -> option string)
    (username : string) : M (list actions_info) :=
  fun s =>
    (s, with_operand (dq_operand actions_scope actions_tail username)
          (fun text =>
             match logs s, users s with
             | Some lgs, Some usrs =>
                 Returned (select_actions_info date lgs usrs text)
             | _, _ => Raised OperationalError
             end)).

End DBInterface.

(* ------------------------------------------------------------------ *)
(** ** main.py, fill mode *)

Module main.

Import Py Schema misc DBInterface.

Local Open Scope db_scope.

(** The parsed command line, as far as fill mode reads it; a count that was
    not given is [None]. *)
Record arguments : Type := {
  create_tables_flag : bool;
  users_count : option Z;
  blogs_count : option Z;
  posts_count : option Z;
  comments_count : option Z;
  actions_count : option Z
}.

(** What the outer world answers during one run. *)
Record world : Type := {
  faker_names : nat -> string;
  blog_draws : nat -> blog_draw;
  post_draws : nat -> post_draw;
  comment_draws : nat -> comment_draw;
  login_clocks : nat -> nat -> clock;
  logout_clocks : nat -> nat -> clock
}.

(** [try: create_tables() except sqlite3.OperationalError: print(...)];
    the result is what was printed. *)
Definition try_create_tables : M (list string) :=
  fun s =>
    match create_tables s with
    | (s', Returned _) => (s', Returned [])
    | (s', Raised OperationalError) => (s', Returned ["Tables already exist"])
    | (s', Raised e) => (s', Raised e)
    | (s', Misread) => (s', Misread)
    end.

(** [if args.count: fill(args.count)]: a count of 0 is skipped like a
    missing one. *)
Definition when (count : option Z) (fill : Z -> M unit) : M unit :=
  match count with
  | Some n => if n =? 0 then ret tt else fill n
  | None => ret tt
  end.

(** [for i in range(n): fill_logs_login_logout(True);
    fill_logs_login_logout(False)]. *)
Fixpoint login_logout_rounds (m : modules) (w : world) (rounds : list nat)
  : M unit :=
  match rounds with
  | [] => ret tt
  | i :: rounds' =>
      fill_logs_login_logout m true (login_clocks w i) ;;
      fill_logs_login_logout m false (logout_clocks w i) ;;
      login_logout_rounds m w rounds'
  end.

(** The [elif args.fill:] branch up to [commit()].  No exception but the one
    of [create_tables] is caught: any other ends the run. *)
Definition fill_mode (m : modules) (args : arguments) (w : world)
  : M (list string) :=
  printed <- (if create_tables_flag args then try_create_tables else ret []) ;;
  when (users_count args) (fun n => fill_users m n (faker_names w)) ;;
  when (blogs_count args) (fun n => fill_blogs m n (blog_draws w)) ;;
  when (posts_count args) (fun n => fill_posts m n (post_draws w)) ;;
  when (comments_count args) (fun n => fill_comments m n (comment_draws w)) ;;
  when (actions_count args) (fun n => login_logout_rounds m w (range n)) ;;
  ret printed.

End main.

Import Py Sql Schema misc DBInterface.

From Stdlib Require Import DecimalString Sorted.

(* ------------------------------------------------------------------ *)
(** ** script/converter.py *)

Module converter.

Import Py.

(** What a member of a fetched row can be: a [str], an [int] or [None]. *)
Inductive cell : Type :=
| Str (s : string)
| Num (n : Z)
| Nothing.

(** A [dict] with [str] keys, as the list of the pairs it was built from:
    a later pair with the same key replaces the value of an earlier one. *)
Definition dict : Type := list (string * cell).

(** [rowdict.get(key, restval)]. *)
Definition dict_get (key : string) (restval : cell) (d : dict) : cell :=
  match find (fun item => String.eqb (fst item) key) (rev d) with
  | Some item => snd item
  | None => restval
  end.

(** [str(n)] for an [int]. *)
Definition str_int (n : Z) : string := NilZero.string_of_int (Z.to_int n).

(** The text [csv.writer] writes a field from: a [str] as it is, [None] as
    the empty text, anything else through [str()]. *)
Definition field_text (c : cell) : string :=
  match c with
  | Str s => s
  | Num n => str_int n
  | Nothing => EmptyString
  end.

Definition comma : ascii := ","%char.
Definition cr : ascii := "013"%char.
Definition lf : ascii := "010"%char.

(** The excel dialect with [QUOTE_MINIMAL]: a field is put in quotes when
    it holds the delimiter, the quote character or a character of the line
    terminator. *)
Definition needs_quotes (s : string) : bool :=
  contains comma s || contains dquote s || contains cr s || contains lf s.

(** Inside the quotes a quote character is written twice. *)
Fixpoint doubled (s : string) : string :=
  match s with
  | EmptyString => EmptyString
  | String c s' =>
      if Ascii.eqb c dquote then String dquote (String dquote (doubled s'))
      else String c (doubled s')
  end.

Definition field (s : string) : string :=
  if needs_quotes s then String dquote (doubled s ++ String dquote EmptyString)
  else s.

Fixpoint join (fields : list string) : string :=
  match fields with
  | [] => EmptyString
  | [f] => f
  | f :: fields' => f ++ String comma (join fields')
  end.

Definition lineterminator : string := String cr (String lf EmptyString).

(** [writer.writerow(fields)]: the fields joined by commas and the line
    terminator; a row made of one empty field is written as a pair of
    quotes. *)
Definition writerow (cells : list cell) : string :=
  let body := join (map (fun c => field (field_text c)) cells) in
  match cells, body with
  | [_], EmptyString => String dquote (String dquote lineterminator)
  | _, _ => body ++ lineterminator
  end.

(** [DictWriter.writerow(rowdict)]: the values of the field names in their
    order, the empty text standing for a missing one.  (Every key of the
    dictionaries built here is a field name, so the check for other keys
    never fails.) *)
Definition dict_writerow (fieldnames : list string) (rowdict : dict) : string :=
  writerow (map (fun key => dict_get key (Str EmptyString) rowdict) fieldnames).

(** [DictWriter.writeheader()]. *)
Definition writeheader (fieldnames : list string) : string :=
  dict_writerow fieldnames (combine fieldnames (map Str fieldnames)).

(** The text [__writer__] leaves in the file: the header, then
    [writer.writerow(dict(zip(field_names, row)))] for each row. *)
Definition table_text (field_names : list string) (table : list (list cell))
  : string :=
  writeheader field_names
  ++ String.concat EmptyString
       (map (fun row => dict_writerow field_names (combine field_names row))
            table).

(** The files by path; [None] where there is none. *)
Definition files : Type := string -> option string.

(** [open(path, 'w', newline='')], the writes and the close: the file is
    made or replaced.  (The path is taken to be writable and the text to be
    encodable.) *)
Definition write_file (path text : string) (fs : files) : files :=
  fun p => if String.eqb p path then Some text else fs p.

(** A [str] that holds a NUL: [csv] writes it or raises by Python version,
    and the embedding does not follow a table that has one. *)
Definition followed (table : list (list cell)) : bool :=
  forallb (forallb (fun c => negb (contains "000"%char (field_text c)))) table.

Record CSVWriter : Type := {
  comments_dir : string;
  general_dir : string
}.

Definition __writer__ (obj_dir : string) (field_names : list string)
    (table : list (list cell)) (fs : files) : outcome files :=
  if followed table then Returned (write_file obj_dir (table_text field_names table) fs)
  else Misread.

Definition comments_fields : list string :=
  ["login"; "post_header"; "post_author"; "comments_count"].

Definition general_fields : list string :=
  ["date"; "logins"; "logouts"; "actions_count"].

Definition write_comments (self : CSVWriter) (table : list (list cell))
    (fs : files) : outcome files :=
  __writer__ (comments_dir self) comments_fields table fs.

Definition write_general (self : CSVWriter) (table : list (list cell))
    (fs : files) : outcome files :=
  __writer__ (general_dir self) general_fields table fs.

End converter.

(* ------------------------------------------------------------------ *)
(** ** The connection of DBInterface *)

Module connection.

Import Py Schema.

(** The two database files as committed, and what the open connection sees:
    the rows it has inserted are in [view] only until [commit]. *)
Record session : Type := {
  disk : store;
  view : store
}.

(** [connect()]: [sqlite3.connect] and [ATTACH DATABASE]; a file that is
    not there is made empty. *)
Definition connect (databases : store) : session :=
  {| disk := databases; view := databases |}.

(** A call that goes through [cursor.execute]: an [INSERT] opens a
    transaction if none is open and stays uncommitted. *)
Definition execute {A} (call : M A) (c : session) : session * outcome A :=
  let (v, o) := call (view c) in ({| disk := disk c; view := v |}, o).

(** A call that goes through [connection.executescript]: what is pending
    is committed first and each statement of the script is committed as it
    runs, so whatever the script did before failing is on disk. *)
Definition executescript {A} (call : M A) (c : session) : session * outcome A :=
  let (v, o) := call (view c) in ({| disk := v; view := v |}, o).

(** [commit()]. *)
Definition commit (c : session) : session :=
  {| disk := view c; view := view c |}.

(** [disconnect()], or the end of the process: what was not committed is
    lost. *)
Definition disconnect (c : session) : store := disk c.

End connection.

(* ------------------------------------------------------------------ *)
(** ** main.py, the whole run *)

Module program.

Import Py Schema misc DBInterface converter connection.

Local Open Scope db_scope.

(** The parsed arguments beyond the counts: the positional [login], [None]
    when it is left out, the paths of the two database files and of the two
    output files, and the [--fill] flag. *)
Record namespace : Type := {
  login : option string;
  authors_db : string;
  logs_db : string;
  comments_csv : string;
  general_csv : string;
  fill : bool;
  counts : main.arguments
}.

(** The machine the program runs on: what the two database files hold, and
    every other file by its path.  A database file that is not there and
    one that is empty hold the same, no table: [connect()] makes the first
    into the second.  The two are kept apart from the other files, so what
    is said of a run that writes a file holds when that file is not one of
    the database files. *)
Record machine : Type := {
  databases : store;
  filesystem : files
}.

(** How a run ends: the machine after it, what was printed, and whether the
    program came to its end or stopped on an exception. *)
Record ending : Type := {
  after : machine;
  printed : list string;
  status : outcome unit
}.

(** The fill calls of fill mode, after [create_tables]. *)
Definition fill_stages (m : modules) (args : main.arguments) (w : main.world)
  : M unit :=
  main.when (main.users_count args)
    (fun n => fill_users m n (main.faker_names w)) ;;
  main.when (main.blogs_count args)
    (fun n => fill_blogs m n (main.blog_draws w)) ;;
  main.when (main.posts_count args)
    (fun n => fill_posts m n (main.post_draws w)) ;;
  main.when (main.comments_count args)
    (fun n => fill_comments m n (main.comment_draws w)) ;;
  main.when (main.actions_count args)
    (fun n => main.login_logout_rounds m w (range n)).

(** The rows of the two reports as the tuples [fetchall] returns. *)
Definition comments_cells (row : comments_info) : list cell :=
  let '(login, header, author, count) := row in
  [Str login; Str header;
   match author with Some a => Str a | None => Nothing end; Num count].

Definition actions_cells (row : actions_info) : list cell :=
  let '(date, logins, logouts, actions) := row in
  [match date with Some d => Str d | None => Nothing end;
   Num logins; Num logouts; Num actions].

(** [if args.login:] holds for a login that is given and not empty. *)
Definition given (login : option string) : option string :=
  match login with
  | Some EmptyString => None
  | other => other
  end.

Definition stopped (pc : machine) (disk : store) (out : list string)
    {A} (o : outcome A) : ending :=
  {| after := {| databases := disk; filesystem := filesystem pc |};
     printed := out;
     status := match o with
               | Returned _ => Returned tt
               | Raised e => Raised e
               | Misread => Misread
               end |}.

(** Report mode: both queries, then both files.  An exception of a query
    ends the run before [CSVWriter] is made. *)
Definition report_mode (date : timestamp -> option string) (args : namespace)
    (username : string) (pc : machine) : ending :=
  let c := connect (databases pc) in
  match execute (get_user_comments_info username) c with
  | (c1, Returned comments_list) =>
      match execute (get_user_actions_info date username) c1 with
      | (c2, Returned actions_list) =>
          let csv_writer :=
            {| comments_dir := comments_csv args;
               general_dir := general_csv args |} in
          match write_comments csv_writer (map comments_cells comments_list)
                  (filesystem pc) with
          | Returned fs1 =>
              match write_general csv_writer (map actions_cells actions_list)
                      fs1 with
              | Returned fs2 =>
                  {| after := {| databases := disconnect c2;
                                 filesystem := fs2 |};
                     printed := []; status := Returned tt |}
              | o => stopped pc (disconnect c2) [] o
              end
          | o => stopped pc (disconnect c2) [] o
          end
      | (c2, o) => stopped pc (disconnect c2) [] o
      end
  | (c1, o) => stopped pc (disconnect c1) [] o
  end.

(** Fill mode: [create_tables] as a script if asked for, the fill calls,
    [commit()].  An exception of a fill call ends the run before
    [commit()]. *)
Definition fill_run (m : modules) (w : main.world) (args : namespace)
    (pc : machine) : ending :=
  let c := connect (databases pc) in
  match (if main.create_tables_flag (counts args)
         then executescript main.try_create_tables c
         else (c, Returned [])) with
  | (c1, Returned out) =>
      match execute (fill_stages m (counts args) w) c1 with
      | (c2, Returned _) =>
          {| after := {| databases := disconnect (commit c2);
                         filesystem := filesystem pc |};
             printed := out; status := Returned tt |}
      | (c2, o) => stopped pc (disconnect c2) out o
      end
  | (c1, o) => stopped pc (disconnect c1) [] o
  end.

(** [if args.login: ... elif args.fill: ...], between [connect()] and
    [disconnect()]. *)
Definition run (date : timestamp -> option string) (m : modules)
    (w : main.world) (args : namespace) (pc : machine) : ending :=
  match given (login args) with
  | Some username => report_mode date args username pc
  | None =>
      if fill args then fill_run m w args pc
      else {| after := pc; printed := []; status := Returned tt |}
  end.

End program.
(* ------------------------------------------------------------------ *)
(** ** Notions used in the statements *)

Local Open Scope list_scope.

(** The store right after [create_tables] on two new files. *)
Definition created : store :=
  {| users := Some []; blog := Some []; post := Some []; comment := Some [];
     event_type := Some
       [named "login" 1; named "comment" 2; named "create_post" 3;
        named "delete_post" 4; named "logout" 5];
     space_type := Some [named "global" 1; named "blog" 2; named "post" 3];
     logs := Some [] |}.

(** The rows an [INSERT] adds to [rows], in order. *)
Fixpoint added {R} (id : R -> Z) (rows : list R) (new : list (Z -> R))
  : list R :=
  match new with
  | [] => []
  | r :: new' =>
      r (next_id id rows) :: added id (rows ++ [r (next_id id rows)]) new'
  end.

(** A character [repr] writes as itself between either kind of quotes and
    that cannot close a double-quoted token. *)
Definition plain_char (c : ascii) : bool :=
  printable c && negb (Ascii.eqb c backslash) && negb (Ascii.eqb c dquote).

Fixpoint plain (s : string) : bool :=
  match s with
  | EmptyString => true
  | String c s' => plain_char c && plain s'
  end.


(** What SQLite stores for such a text written by [repr]: the text between
    the quotes as it stands, SQL having no backslash escapes: a backslash
    of the text is stored twice, a character that is not printable as the
    escape [repr] writes for it. *)
Definition escaped (s : string) : string := repr_body (repr_quote s) s.

(** A text that stays inside ['...']: no single quote and no NUL. *)
Definition clean (s : string) : bool :=
  negb (contains nul s) && negb (contains squote s).

(** A user name that ["{username}"] hands to SQLite as that very text: no
    double quote and no NUL in it, and no name of [scope] equal to it. *)
Definition bare (scope : list string) (username : string) : bool :=
  negb (contains nul username) && negb (contains dquote username)
  && negb (existsb (name_eqb username) scope).

(** A log row without its id: [(datetime, user_id, space_type_id,
    event_type_id)]. *)
Definition log_entry (l : logs_row)
  : timestamp * option Z * option Z * option Z :=
  (logs_datetime l, logs_user_id l, logs_space_type_id l, logs_event_type_id l).

Definition some_entry (v : log_value)
  : timestamp * option Z * option Z * option Z :=
  let '(datetime, user_id, space_type_id, event_type_id) := v in
  (datetime, Some user_id, Some space_type_id, Some event_type_id).

(** The ids of the lookup rows, by name. *)
Definition event_login : Z := 1.
Definition event_comment : Z := 2.
Definition event_create_post : Z := 3.
Definition event_delete_post : Z := 4.
Definition event_logout : Z := 5.
Definition space_global : Z := 1.
Definition space_blog : Z := 2.
Definition space_post : Z := 3.

(** A populated state of the main database, as the fill engine leaves it:
    ids are keys, every comment points to a user and to a post, every post
    points to a user. *)
Record populated (usrs : list users_row) (psts : list post_row)
    (cmts : list comment_row) : Prop := {
  users_keyed : NoDup (map users_id usrs);
  posts_keyed : NoDup (map post_id psts);
  comments_attached : forall cmt, In cmt cmts ->
    exists author pst,
      In author usrs /\ comment_author_id cmt = Some (users_id author)
      /\ In pst psts /\ comment_post_id cmt = Some (post_id pst);
  posts_attached : forall pst, In pst psts ->
    exists author, In author usrs /\ post_author_id pst = Some (users_id author)
}.

(** The comment's author has the login [username]. *)
Definition authored_by (usrs : list users_row) (username : string)
    (cmt : comment_row) : bool :=
  existsb (fun usr => sql_eq (comment_author_id cmt) (Some (users_id usr))
                      && String.eqb (users_login usr) username) usrs.

(** The number of comment rows that reference the post [p]. *)
Definition comments_on (cmts : list comment_row) (p : Z) : Z :=
  Z.of_nat (List.length
    (filter (fun c => sql_eq (comment_post_id c) (Some p)) cmts)).

(** The row the report owes to a comment. *)
Definition reported (usrs : list users_row) (psts : list post_row)
    (cmts : list comment_row) (username : string) (cmt : comment_row)
    (row : comments_info) : Prop :=
  exists pst author,
    In pst psts /\ comment_post_id cmt = Some (post_id pst)
    /\ In author usrs /\ post_author_id pst = Some (users_id author)
    /\ row = (username, post_header pst, Some (users_login author),
              comments_on cmts (post_id pst)).


Definition total (l : list Z) : Z := fold_right Z.add 0 l.

(** Neither optional module was found, or both were. *)
Definition no_modules : modules := {| is_lorem := false; is_faker := false |}.
Definition all_modules : modules := {| is_lorem := true; is_faker := true |}.

(** The rows the [INSERT] statements build from their tuples. *)
Definition user_of (pair : string * string) (id : Z) : users_row :=
  {| users_id := id; users_email := Some (fst pair); users_login := snd pair |}.

Definition log_of (v : log_value) (id : Z) : logs_row :=
  let '(datetime, user_id, space_type_id, event_type_id) := v in
  {| logs_id := id; logs_datetime := datetime; logs_user_id := Some user_id;
     logs_space_type_id := Some space_type_id;
     logs_event_type_id := Some event_type_id |}.

(** The tuples of one call of [fill_logs_login_logout]. *)
Definition login_logout_values (m : modules) (is_login : bool)
    (draw : nat -> clock) (user_ids : list Z) : list log_value :=
  map (fun iu : nat * Z =>
         (get_random_date m (fst (date_range is_login))
            (snd (date_range is_login)) (draw (fst iu)),
          snd iu, 1, if is_login then 1 else 5))
      (combine (seq 0 (List.length user_ids)) user_ids).

(** How many rows of a list are events of the type [n]. *)
Definition events (n : Z) (rows : list logs_row) : nat :=
  List.length (filter (is_event n) rows).

Definition blog_of (v : Z * string * string) (id : Z) : blog_row :=
  let '(owner, name, description) := v in
  {| blog_id := id; blog_owner_id := Some owner; blog_name := name;
     blog_description := Some description |}.

Definition post_of (v : string * string * Z * Z) (id : Z) : post_row :=
  let '(header, text, user_id, blog_id) := v in
  {| post_id := id; post_header := header; post_text := Some text;
     post_author_id := Some user_id; post_blog_id := Some blog_id |}.

(** [seq[word]] with [word] brought below [len(seq)]. *)
Definition chosen (word : nat) (ids : list Z) : Z :=
  nth (word mod List.length ids) ids 0.

(** The first place of [k] in [ids]. *)
Fixpoint position (k : Z) (ids : list Z) : nat :=
  match ids with
  | [] => 0
  | x :: ids' => if x =? k then 0 else S (position k ids')
  end.

(** The user a login resolves to: the first row that has it. *)
Definition first_user (usrs : list users_row) (username : string)
  : option users_row :=
  find (fun usr => String.eqb (users_login usr) username) usrs.

(** The log rows of a user id. *)
Definition logs_of (lgs : list logs_row) (uid : option Z) : list logs_row :=
  filter (fun l => sql_eq (logs_user_id l) uid) lgs.

(** The log rows of a list that fall on the date [d]. *)
Definition on_date (date : timestamp -> option string) (d : option string)
    (rows : list logs_row) : list logs_row :=
  filter (fun l => key_eqb (date (logs_datetime l)) d) rows.

Definition row_date (r : actions_info) : option string := fst (fst (fst r)).
Definition row_logins (r : actions_info) : Z := snd (fst (fst r)).
Definition row_logouts (r : actions_info) : Z := snd (fst r).
Definition row_actions (r : actions_info) : Z := snd r.

(** *** A small populated store

    Three users, two of them with the login Ada; one blog; two posts; four
    comments; five log rows over two days. *)

Definition sample_users : list users_row :=
  [user_of ("ada@example.com", "Ada") 1;
   user_of ("bob@example.com", "Bob") 2;
   user_of ("ada@example.com", "Ada") 3].

Definition sample_posts : list post_row :=
  [post_of ("Engines", "On engines", 1, 1) 1;
   post_of ("Looms", "On looms", 2, 1) 2].

Definition comment_of (v : string * Z * Z) (id : Z) : comment_row :=
  let '(text, user_id, post_id) := v in
  {| comment_id := id; comment_text := Some text;
     comment_author_id := Some user_id; comment_post_id := Some post_id |}.

Definition sample_comments : list comment_row :=
  [comment_of ("First", 2, 1) 1;
   comment_of ("Second", 1, 1) 2;
   comment_of ("Third", 1, 1) 3;
   comment_of ("Fourth", 3, 2) 4].

Definition sample_logs : list logs_row :=
  [log_of (10, 1, 1, 1) 1;
   log_of (20, 1, 1, 5) 2;
   log_of (day + 10, 1, 3, 2) 3;
   log_of (day + 20, 1, 1, 1) 4;
   log_of (30, 2, 1, 1) 5].

Definition sample : store :=
  {| users := Some sample_users;
     blog := Some [blog_of (1, "Notes", "On machines") 1];
     post := Some sample_posts;
     comment := Some sample_comments;
     event_type := event_type created;
     space_type := space_type created;
     logs := Some sample_logs |}.





(** A stand-in for [date()]: the first day of the time line, or the
    second. *)
Definition sample_date (t : timestamp) : option string :=
  if t <? day then Some "1970-01-01" else Some "1970-01-02".

(** A clock that reads a thousand days, with [faker] answering the start of
    the range asked for. *)
Definition sample_clock : clock :=
  {| now := 1000 * day;
     date_time_between := fun starts _ => 1000 * day + offset starts |}.

Definition sample_blog_draw (i : nat) : blog_draw :=
  {| owner_word := i; blog_sentence := "Lorem ipsum.";
     blog_paragraph := "Dolor sit amet." |}.

Definition sample_post_draw (i : nat) : post_draw :=
  {| author_word := i; blog_word := 0;
     post_sentence := "Lorem ipsum."; post_paragraph := "Dolor sit amet.";
     creation := sample_clock; die := Z.of_nat i; deletion := sample_clock |}.

Definition sample_comment_draw (i : nat) : comment_draw :=
  {| commenter_word := i; post_word := i;
     comment_paragraph := "Dolor sit amet."; commented := sample_clock;
     logged_word := S i |}.

Definition sample_world : main.world :=
  {| main.faker_names := fun _ => "Grace O'Hara";
     main.blog_draws := sample_blog_draw;
     main.post_draws := sample_post_draw;
     main.comment_draws := sample_comment_draw;
     main.login_clocks := fun _ _ => sample_clock;
     main.logout_clocks := fun _ _ => sample_clock |}.

(** [main.py -f -g -b 1]: make the tables, then one blog. *)
Definition blogs_first : main.arguments :=
  {| main.create_tables_flag := true; main.users_count := None;
     main.blogs_count := Some 1; main.posts_count := None;
     main.comments_count := None; main.actions_count := None |}.

(** The stores the fill engine reaches from two new files: the tables are
    made, then any fill operation that returns may follow. *)
Inductive filled : store -> Prop :=
| filled_created : filled created
| filled_users m count names s s' :
    filled s -> fill_users m count names s = (s', Returned tt) -> filled s'
| filled_blogs m count draw s s' :
    filled s -> fill_blogs m count draw s = (s', Returned tt) -> filled s'
| filled_posts m count draw s s' :
    filled s -> fill_posts m count draw s = (s', Returned tt) -> filled s'
| filled_comments m count draw s s' :
    filled s -> fill_comments m count draw s = (s', Returned tt) -> filled s'
| filled_logs m is_login draw s s' :
    filled s -> fill_logs_login_logout m is_login draw s = (s', Returned tt) ->
    filled s'.

(** All tables are there and the main database is populated. *)
Definition consistent (s : store) : Prop :=
  exists usrs blgs psts cmts lgs,
    users s = Some usrs /\ blog s = Some blgs /\ post s = Some psts
    /\ comment s = Some cmts /\ logs s = Some lgs
    /\ populated usrs psts cmts.

(* ------------------------------------------------------------------ *)
(** ** Further notions: what a call leaves in place *)

(** A table is there. *)
Definition exists_ {R} (t : table R) (s : store) : bool :=
  match get t s with Some _ => true | None => false end.

(** The table [t] is the same after as before. *)
Definition same {R} (t : table R) (s s' : store) : Prop := get t s' = get t s.

(** The table [t] has after the call the rows it had, in their order, and
    possibly more after them; a table that was not there is still not. *)
Definition grows {R} (t : table R) (s s' : store) : Prop :=
  match get t s with
  | None => get t s' = None
  | Some rows => exists new, get t s' = Some (rows ++ new)
  end.

(** Every table that was there is the same after. *)
Definition kept (s s' : store) : Prop :=
  (users s <> None -> users s' = users s)
  /\ (blog s <> None -> blog s' = blog s)
  /\ (post s <> None -> post s' = post s)
  /\ (comment s <> None -> comment s' = comment s)
  /\ (event_type s <> None -> event_type s' = event_type s)
  /\ (space_type s <> None -> space_type s' = space_type s)
  /\ (logs s <> None -> logs s' = logs s).

(** The ids 1, 2, ..., n. *)
Definition numbered (n : nat) : list Z := map Z.of_nat (seq 1 n).

(** The pairs of a space type and an event type the fill engine writes:
    login and logout in the global space, the making and the deleting of a
    post in the blog space, a comment in the post space. *)
Definition logged_pairs : list (Z * Z) :=
  [(space_global, event_login); (space_global, event_logout);
   (space_blog, event_create_post); (space_blog, event_delete_post);
   (space_post, event_comment)].

(** What holds of the rows of a store beyond [populated]: the lookup tables
    are the seeded ones, the ids of each table count up from 1, every blog
    has an owner among the users, every post a blog among the blogs, and
    every log row a user among the users and one of the [logged_pairs]. *)
Record sound (s : store) : Prop := {
  sound_events : event_type s = event_type created;
  sound_spaces : space_type s = space_type created;
  sound_users : exists usrs, users s = Some usrs
                  /\ map users_id usrs = numbered (List.length usrs);
  sound_blogs : exists usrs blgs, users s = Some usrs /\ blog s = Some blgs
                  /\ map blog_id blgs = numbered (List.length blgs)
                  /\ forall b, In b blgs ->
                       exists u, In u usrs /\ blog_owner_id b = Some (users_id u);
  sound_posts : exists blgs psts, blog s = Some blgs /\ post s = Some psts
                  /\ map post_id psts = numbered (List.length psts)
                  /\ forall p, In p psts ->
                       exists b, In b blgs /\ post_blog_id p = Some (blog_id b);
  sound_comments : exists cmts, comment s = Some cmts
                  /\ map comment_id cmts = numbered (List.length cmts);
  sound_logs : exists usrs lgs, users s = Some usrs /\ logs s = Some lgs
                  /\ map logs_id lgs = numbered (List.length lgs)
                  /\ forall l, In l lgs ->
                       (exists u, In u usrs /\ logs_user_id l = Some (users_id u))
                       /\ exists sp ev, In (sp, ev) logged_pairs
                            /\ logs_space_type_id l = Some sp
                            /\ logs_event_type_id l = Some ev
}.


(** *** Stores the fill engine reaches

    The tables and one user; then one login on top. *)
Definition one_user : store :=
  fst (fill_users all_modules 1 (fun _ => "Ada") created).

Definition logged_in : store :=
  fst (fill_logs_login_logout all_modules true (fun _ => sample_clock) one_user).

(** *** Reading one field back

    What a reader of the excel dialect takes as the first field of a line
    and what it leaves: a field that opens with a quote goes to its closing
    quote, any other one to the next delimiter or line end.  It serves to
    tell written lines apart. *)
Fixpoint until_sep (s : string) : string * string :=
  match s with
  | EmptyString => (EmptyString, EmptyString)
  | String c s' =>
      if Ascii.eqb c converter.comma || Ascii.eqb c converter.cr
      then (EmptyString, s)
      else let (a, r) := until_sep s' in (String c a, r)
  end.

Definition read_field (s : string) : string * string :=
  match s with
  | String c s' =>
      if Ascii.eqb c dquote then
        match scan_quoted dquote s' with
        | Closed k r => (k, r)
        | Unterminated => (EmptyString, EmptyString)
        end
      else until_sep s
  | EmptyString => (EmptyString, EmptyString)
  end.

(** The text begins with a delimiter or with a line end. *)
Definition at_sep (t : string) : bool :=
  match t with
  | String c _ => Ascii.eqb c converter.comma || Ascii.eqb c converter.cr
  | EmptyString => false
  end.

(** *** Counting rows over a run *)

(** The number of rows of a table; none when the table is not there. *)
Definition rows_in {R} (t : table R) (s : store) : nat :=
  match get t s with
  | Some rows => List.length rows
  | None => 0%nat
  end.

(** The count an option of the command line asks for; none when the option
    is left out. *)
Definition asked (count : option Z) : nat :=
  match count with
  | Some n => Z.to_nat n
  | None => 0%nat
  end.

(** From [s] to [s'] the tables users, blog, post and comment have gained
    [u], [b], [p] and [c] rows, and logs between [l_min] and [l_max]. *)
Definition gained (s s' : store) (u b p c l_min l_max : nat) : Prop :=
  (rows_in main_users s' = rows_in main_users s + u
   /\ rows_in main_blog s' = rows_in main_blog s + b
   /\ rows_in main_post s' = rows_in main_post s + p
   /\ rows_in main_comment s' = rows_in main_comment s + c
   /\ rows_in logging_logs s + l_min <= rows_in logging_logs s'
      <= rows_in logging_logs s + l_max)%nat.




(** *** Sample runs *)

(** A machine with two new database files and no other file. *)
Definition new_machine : program.machine :=
  {| program.databases := fresh; program.filesystem := fun _ => None |}.



(** [main.py -f -g -u 2 -b 1 -p 2 -c 2 -l 1]. *)
Definition full_run : program.namespace :=
  {| program.login := None; program.authors_db := "authors.db";
     program.logs_db := "logs.db"; program.comments_csv := "comments.csv";
     program.general_csv := "general.csv"; program.fill := true;
     program.counts :=
       {| main.create_tables_flag := true; main.users_count := Some 2;
          main.blogs_count := Some 1; main.posts_count := Some 2;
          main.comments_count := Some 2; main.actions_count := Some 1 |} |}.


(** *** A store reached by every fill operation

    Two users, one blog, two posts, two comments and the log rows of the
    posts, of one deletion, of the comments and of one round of logins. *)
Definition grown_users : store :=
  fst (fill_users all_modules 2 (main.faker_names sample_world) created).

Definition grown_blogs : store :=
  fst (fill_blogs all_modules 1 sample_blog_draw grown_users).

Definition grown_posts : store :=
  fst (fill_posts all_modules 2 sample_post_draw grown_blogs).

Definition grown_comments : store :=
  fst (fill_comments all_modules 2 sample_comment_draw grown_posts).

Definition grown : store :=
  fst (fill_logs_login_logout all_modules true (fun _ => sample_clock)
         grown_comments).

(** *** Row ids within the engine's range *)

Definition ids_of (s : store) : list Z :=
  let ids {R} (id : R -> Z) (rows : option (list R)) :=
    match rows with Some l => map id l | None => [] end in
  ids users_id (users s) ++ ids blog_id (blog s) ++ ids post_id (post s)
  ++ ids comment_id (comment s) ++ ids logs_id (logs s).

(** No row of the store has an id above [rowid_max].  When that holds of
    the store a call leaves, every id the call gave out is the one the
    engine gives. *)
Definition within_rowids (s : store) : bool :=
  forallb (fun i => i <=? rowid_max) (ids_of s).
(* ------------------------------------------------------------------ *)
(** ** Inserting rows *)

Section Insert.

Context {R : Type} (id : R -> Z).

Lemma append_rows_added (new : list (Z -> R)) : forall rows,
  append_rows id rows new = rows ++ added id rows new.
Proof.
  induction new as [|r new IH]; intros rows; simpl.
  - now rewrite app_nil_r.
  - rewrite IH, <- app_assoc. reflexivity.
Qed.

Lemma added_length (new : list (Z -> R)) : forall rows,
  List.length (added id rows new) = List.length new.
Proof.
  induction new as [|r new IH]; intros rows; simpl; [|rewrite IH]; reflexivity.
Qed.

Lemma max_bounds (x : Z) (xs : list Z) :
  forall y, In y (x :: xs) -> y <= fold_right Z.max x xs.
Proof.
  induction xs as [|z xs IH]; simpl; intros y Hy.
  - destruct Hy as [<-|[]]. lia.
  - destruct Hy as [<-|[<-|Hy]].
    + specialize (IH x (or_introl eq_refl)). lia.
    + lia.
    + specialize (IH y (or_intror Hy)). lia.
Qed.

Lemma next_id_above (rows : list R) :
  forall x, In x (map id rows) -> x < next_id id rows.
Proof.
  unfold next_id. intros x Hx. destruct (map id rows) as [|y ys]; [destruct Hx|].
  pose proof (max_bounds y ys x Hx). lia.
Qed.

Lemma next_id_new (rows : list R) : ~ In (next_id id rows) (map id rows).
Proof. intros H. apply next_id_above in H. lia. Qed.

Lemma added_from (new : list (Z -> R)) : forall rows r,
  In r (added id rows new) -> exists f i, In f new /\ r = f i.
Proof.
  induction new as [|f new IH]; intros rows r Hr; simpl in Hr; [destruct Hr|].
  destruct Hr as [<-|Hr].
  - exists f, (next_id id rows). split; [now left|reflexivity].
  - destruct (IH _ r Hr) as (g & i & Hg & ->). exists g, i.
    split; [now right|reflexivity].
Qed.

Lemma added_over (new : list (Z -> R)) :
  (forall f, In f new -> forall i, id (f i) = i) ->
  forall rows r x,
  In r (added id rows new) -> In x (map id rows) -> x < id r.
Proof.
  induction new as [|f new IH]; intros Hid rows r x Hr Hx; simpl in Hr;
    [destruct Hr|].
  destruct Hr as [<-|Hr].
  - rewrite (Hid f (or_introl eq_refl)). now apply next_id_above.
  - apply (IH (fun g Hg => Hid g (or_intror Hg)) _ r x Hr).
    rewrite map_app, in_app_iff. now left.
Qed.

Lemma added_apart (new : list (Z -> R)) :
  (forall f, In f new -> forall i, id (f i) = i) ->
  forall rows, NoDup (map id (added id rows new)).
Proof.
  induction new as [|f new IH]; intros Hid rows; simpl; constructor.
  - rewrite (Hid f (or_introl eq_refl)). intros H. apply in_map_iff in H.
    destruct H as (r & Hr & Hin).
    assert (next_id id rows < id r); [|lia].
    apply (added_over new (fun g Hg => Hid g (or_intror Hg)) _ r _ Hin).
    rewrite map_app, in_app_iff. right. simpl.
    rewrite (Hid f (or_introl eq_refl)). now left.
  - apply IH. intros g Hg. apply Hid. now right.
Qed.

Lemma added_keeps_keys (new : list (Z -> R)) (rows : list R) :
  (forall f, In f new -> forall i, id (f i) = i) ->
  NoDup (map id rows) ->
  NoDup (map id (rows ++ added id rows new)).
Proof.
  intros Hid Hrows. rewrite map_app.
  apply NoDup_app; [assumption|now apply added_apart|].
  intros x Hx H. apply in_map_iff in H. destruct H as (r & Hr & Hin).
  pose proof (added_over new Hid rows r x Hin Hx). lia.
Qed.

Section Built.

Context {V P : Type} (mk : V -> Z -> R) (entry : R -> P) (want : V -> P).
Hypothesis id_mk : forall v i, id (mk v i) = i.
Hypothesis entry_mk : forall v i, entry (mk v i) = want v.

Lemma built_ids (vs : list V) :
  forall f, In f (map mk vs) -> forall i, id (f i) = i.
Proof.
  intros f Hf i. apply in_map_iff in Hf. destruct Hf as (v & <- & _).
  apply id_mk.
Qed.

Lemma added_entries (vs : list V) : forall rows,
  map entry (added id rows (map mk vs)) = map want vs.
Proof.
  induction vs as [|v vs IH]; intros rows; simpl; [reflexivity|].
  now rewrite entry_mk, IH.
Qed.



Lemma added_keyed (vs : list V) (rows : list R) :
  NoDup (map id rows) ->
  NoDup (map id (rows ++ added id rows (map mk vs))).
Proof. apply added_keeps_keys, built_ids. Qed.

End Built.

End Insert.

(** ** Running statements *)

Lemma comprehension_total {A B} (f : A -> outcome B) (g : A -> B) (l : list A) :
  (forall x, In x l -> f x = Returned (g x)) ->
  comprehension f l = Returned (map g l).
Proof.
  induction l as [|x l IH]; intros H; simpl; [reflexivity|].
  rewrite (H x (or_introl eq_refl)). simpl.
  rewrite IH; [reflexivity|]. intros y Hy. apply H. now right.
Qed.

Lemma execute_insert_nothing {V R} (t : table R) (read : V -> outcome (Z -> R))
    (s : store) :
  execute_insert t read [] s = (s, Raised OperationalError).
Proof. reflexivity. Qed.

Lemma execute_insert_rows {V R} (t : table R) (read : V -> outcome (Z -> R))
    (mk : V -> Z -> R) (values : list V) (s : store) (rows : list R) :
  values <> [] ->
  (forall v, In v values -> read v = Returned (mk v)) ->
  get t s = Some rows ->
  execute_insert t read values s
  = (set t (Some (rows ++ added (rowid t) rows (map mk values))) s,
     Returned tt).
Proof.
  intros Hne Hread Hget. destruct values as [|v values]; [contradiction|].
  unfold execute_insert, bind, pure.
  rewrite (comprehension_total read mk _ Hread).
  unfold insert. rewrite Hget, append_rows_added. reflexivity.
Qed.

(* ------------------------------------------------------------------ *)
(** ** Texts that come back as they went in *)

(** [repr], [str.lower] and the tokenizer on small inputs. *)
Example repr_name : repr "Ada" = "'Ada'".
Proof. reflexivity. Qed.

Example repr_apostrophe :
  repr "O'Hara" = String dquote ("O'Hara" ++ String dquote EmptyString)%string.
Proof. reflexivity. Qed.

Example repr_backslash : repr "a\b" = "'a\\b'".
Proof. reflexivity. Qed.

Example repr_both_quotes :
  repr (String dquote "'") = ("'" ++ String dquote "\''")%string.
Proof. reflexivity. Qed.

Example email_of_name : email_of "Grace O'Hara" = "grace_o'hara@example.com".
Proof. reflexivity. Qed.

Example rendered_apostrophe : rendered_value (repr "O'Hara") = Returned "O'Hara".
Proof. reflexivity. Qed.

Example rendered_both_quotes : rendered_value (repr (String dquote "'")) = Misread.
Proof. reflexivity. Qed.

Example quoted_doubled : quoted_value "it''s" = Returned "it's".
Proof. reflexivity. Qed.

Example quoted_apostrophe : quoted_value "it's" = Misread.
Proof. reflexivity. Qed.

Example operand_text : dq_operand comments_scope comments_tail "Ada" = Text "Ada".
Proof. reflexivity. Qed.

Example operand_column : dq_operand comments_scope comments_tail "Login" = Name "Login".
Proof. reflexivity. Qed.

Example operand_open :
  dq_operand comments_scope comments_tail (String dquote EmptyString) = Illegal.
Proof. reflexivity. Qed.

Example operand_spliced :
  dq_operand comments_scope comments_tail
    (String "x" (String dquote " OR 1 -- "))
  = Spliced.
Proof. reflexivity. Qed.

Lemma scan_quoted_closes (q : ascii) (tail : string) :
  match tail with
  | String c _ => Ascii.eqb c q = false
  | EmptyString => True
  end ->
  forall s, contains q s = false ->
  scan_quoted q (s ++ String q tail)%string = Closed s tail.
Proof.
  intros Htail s. induction s as [|c s IH]; simpl; intros Hs.
  - rewrite Ascii.eqb_refl. destruct tail as [|c' tail']; [reflexivity|].
    now rewrite Htail.
  - apply orb_false_elim in Hs. destruct Hs as [Hc Hs].
    rewrite Hc, (IH Hs). reflexivity.
Qed.

Lemma quoted_value_clean (s : string) :
  clean s = true -> quoted_value s = Returned s.
Proof.
  unfold clean, quoted_value. intros H.
  apply andb_true_iff in H. destruct H as [Hn Hq].
  apply negb_true_iff in Hn, Hq. rewrite Hn.
  now rewrite (scan_quoted_closes squote EmptyString I s Hq).
Qed.

Lemma dq_operand_bare (scope : list string) (tail username : string) :
  match tail with
  | String c _ => Ascii.eqb c dquote = false
  | EmptyString => True
  end ->
  bare scope username = true ->
  dq_operand scope tail username = Text username.
Proof.
  unfold bare, dq_operand. intros Htail H.
  apply andb_true_iff in H. destruct H as [H Hs].
  apply andb_true_iff in H. destruct H as [Hn Hq].
  apply negb_true_iff in Hn, Hq, Hs. rewrite Hn.
  rewrite (scan_quoted_closes dquote tail Htail username Hq).
  now rewrite String.eqb_refl, Hs.
Qed.

Lemma printable_not_control (c : ascii) :
  printable c = true ->
  Ascii.eqb c "009"%char = false /\ Ascii.eqb c "010"%char = false
  /\ Ascii.eqb c "013"%char = false.
Proof.
  destruct c as [[] [] [] [] [] [] [] []]; vm_compute; intros H;
    try discriminate H; repeat split.
Qed.

Lemma repr_char_plain (q c : ascii) :
  plain_char c = true -> Ascii.eqb c q = false ->
  repr_char q c = String c EmptyString.
Proof.
  unfold plain_char, repr_char. intros H Hq.
  apply andb_true_iff in H. destruct H as [H Hd].
  apply andb_true_iff in H. destruct H as [Hp Hb].
  apply negb_true_iff in Hb.
  destruct (printable_not_control c Hp) as (H9 & H10 & H13).
  now rewrite Hb, Hq, H9, H10, H13, Hp.
Qed.

Lemma repr_body_plain (q : ascii) (s : string) :
  plain s = true -> contains q s = false -> repr_body q s = s.
Proof.
  induction s as [|c s IH]; simpl; intros Hp Hq; [reflexivity|].
  apply andb_true_iff in Hp. destruct Hp as [Hc Hp].
  apply orb_false_elim in Hq. destruct Hq as [Hcq Hq].
  now rewrite (repr_char_plain q c Hc Hcq), (IH Hp Hq).
Qed.

Lemma plain_no_dquote (s : string) : plain s = true -> contains dquote s = false.
Proof.
  induction s as [|c s IH]; simpl; intros Hp; [reflexivity|].
  apply andb_true_iff in Hp. destruct Hp as [Hc Hp]. rewrite (IH Hp).
  unfold plain_char in Hc. apply andb_true_iff in Hc. destruct Hc as [_ Hd].
  apply negb_true_iff in Hd. now rewrite Hd.
Qed.







(** *** Names that are not plain *)


















Lemma escaped_plain (s : string) : plain s = true -> escaped s = s.
Proof.
  intros H. unfold escaped, repr_quote.
  rewrite (plain_no_dquote s H), andb_true_r.
  destruct (contains squote s) eqn:Hs.
  - apply repr_body_plain; [exact H|now apply plain_no_dquote].
  - now apply repr_body_plain.
Qed.


(** The ids the fill operations write for the event and space types are
    those of the seeded rows. *)
Lemma seeded_ids :
  option_map (map (fun r => (type_name r, type_id r))) (event_type created)
  = Some [("login", event_login); ("comment", event_comment);
          ("create_post", event_create_post);
          ("delete_post", event_delete_post); ("logout", event_logout)]
  /\ option_map (map (fun r => (type_name r, type_id r))) (space_type created)
     = Some [("global", space_global); ("blog", space_blog);
             ("post", space_post)].
Proof. split; reflexivity. Qed.

Lemma create_tables_again (s : store) :
  users s <> None -> create_tables s = (s, Raised OperationalError).
Proof.
  intros H. unfold create_tables, bind, create_table. simpl.
  destruct (users s); [reflexivity | contradiction].
Qed.

(** [C6] On two new files [create_tables] leaves exactly the five event
    types login, comment, create_post, delete_post, logout with the ids 1 to
    5 in that order and the three space types global, blog, post with the
    ids 1 to 3, every other table being empty.  On any store that already
    has its tables (the one just made, or one filled since), a further
    [create_tables] raises [sqlite3.OperationalError] at its first statement
    and changes nothing; fill mode catches it, prints "Tables already
    exist" and goes on. *)
Theorem create_tables_seeds_once :
  create_tables fresh = (created, Returned tt)
  /\ option_map (map (fun r => (type_id r, type_name r))) (event_type created)
     = Some [(1, "login"); (2, "comment"); (3, "create_post");
             (4, "delete_post"); (5, "logout")]
  /\ option_map (map (fun r => (type_id r, type_name r))) (space_type created)
     = Some [(1, "global"); (2, "blog"); (3, "post")]
  /\ forall s : store,
       users s <> None ->
       create_tables s = (s, Raised OperationalError)
       /\ main.try_create_tables s = (s, Returned ["Tables already exist"]).
Proof.
  split; [reflexivity|]. split; [reflexivity|]. split; [reflexivity|].
  intros s H. unfold main.try_create_tables.
  rewrite (create_tables_again s H). split; reflexivity.
Qed.

Lemma create_tables_seeds_once_witness :
  users created <> None
  /\ create_tables created = (created, Raised OperationalError)
  /\ main.try_create_tables created
     = (created, Returned ["Tables already exist"]).
Proof.
  split; [discriminate|].
  apply (proj2 (proj2 (proj2 create_tables_seeds_once)) created). discriminate.
Defined.

(* ------------------------------------------------------------------ *)
(** ** fill_users *)


Lemma range_positive (count : Z) : 1 <= count -> range count <> [].
Proof.
  intros H. unfold range.
  destruct (Z.to_nat count) as [|n] eqn:E; [lia|discriminate].
Qed.

Lemma range_length (count : Z) : List.length (range count) = Z.to_nat count.
Proof. apply length_seq. Qed.

Lemma in_range_below (count : Z) (i : nat) :
  In i (range count) -> (i < Z.to_nat count)%nat.
Proof. unfold range. rewrite in_seq. lia. Qed.







(* ------------------------------------------------------------------ *)
(** ** Filling before the parent rows exist *)

Lemma range_first (count : Z) :
  1 <= count -> exists rest, range count = 0%nat :: rest.
Proof.
  intros H. unfold range. destruct (Z.to_nat count) as [|n] eqn:E; [lia|].
  simpl. now eexists.
Qed.

(** [C3], as stated, fails right after the tables are made, no user being
    there: [fill_blogs(1)] neither returns with nothing inserted nor reports
    that parents are missing, [random.choice] raises [IndexError] on the
    empty id list; [fill_logs_login_logout] raises
    [sqlite3.OperationalError], its statement ending in [VALUES ;]; and fill
    mode run as [main.py -f -g -b 1] on two new files ends on the
    [IndexError]. *)
Lemma fill_blogs_first_raises :
  fill_blogs all_modules 1 sample_blog_draw created = (created, Raised IndexError)
  /\ fill_logs_login_logout all_modules true (fun _ => sample_clock) created
     = (created, Raised OperationalError)
  /\ main.fill_mode all_modules blogs_first sample_world fresh
     = (created, Raised IndexError)
  /\ ~ (exists s', fill_blogs all_modules 1 sample_blog_draw created
                   = (s', Returned tt)).
Proof.
  repeat split. intros (s' & H). discriminate H.
Qed.

(** [C3], amended: on a store whose required parent table is empty (no
    users for [fill_blogs], [fill_posts], [fill_comments] and
    [fill_logs_login_logout]; no blogs for [fill_posts]; no posts for
    [fill_comments]), a later-stage fill asked for at least one row inserts
    nothing and raises to its caller: [IndexError], from [random.choice] on
    the empty id list, in [fill_blogs], [fill_posts] and [fill_comments];
    [sqlite3.OperationalError], the statement ending in [VALUES ;], in
    [fill_logs_login_logout].  Fill mode has a handler for neither, so the
    run ends on the exception. *)
Theorem fill_without_parents_raises (m : modules) (count : Z) (s : store) :
  1 <= count ->
  (users s = Some [] -> blog s <> None -> post s <> None ->
     (forall d, fill_blogs m count d s = (s, Raised IndexError))
     /\ (forall d, fill_posts m count d s = (s, Raised IndexError))
     /\ (forall d, fill_comments m count d s = (s, Raised IndexError))
     /\ (forall b d, fill_logs_login_logout m b d s
                     = (s, Raised OperationalError)))
  /\ (users s <> None -> blog s = Some [] ->
      forall d, fill_posts m count d s = (s, Raised IndexError))
  /\ (users s <> None -> post s = Some [] ->
      forall d, fill_comments m count d s = (s, Raised IndexError))
  /\ (forall w,
        main.fill_mode m
          {| main.create_tables_flag := true; main.users_count := None;
             main.blogs_count := Some count; main.posts_count := None;
             main.comments_count := None; main.actions_count := None |}
          w fresh
        = (created, Raised IndexError)).
Proof.
  intros Hc. destruct (range_first count Hc) as [rest Hr].
  split; [|split; [|split]].
  - intros Hu Hb Hp.
    destruct (blog s) as [blgs|] eqn:Eb; [|contradiction].
    destruct (post s) as [psts|] eqn:Ep; [|contradiction].
    repeat split; intros.
    + unfold fill_blogs, bind, __get_all_ids__, pure. simpl.
      rewrite Hu, Hr. reflexivity.
    + unfold fill_posts, bind, __get_all_ids__, pure. simpl.
      rewrite Hu, Eb, Hr. reflexivity.
    + unfold fill_comments, bind, __get_all_ids__, pure. simpl.
      rewrite Hu, Ep, Hr. reflexivity.
    + unfold fill_logs_login_logout, bind, __get_all_ids__, pure. simpl.
      rewrite Hu. reflexivity.
  - intros Hu Hb d. destruct (users s) as [usrs|] eqn:Eu; [|contradiction].
    unfold fill_posts, bind, __get_all_ids__, pure. simpl.
    rewrite Eu, Hb, Hr. simpl. unfold post_round.
    destruct (map users_id usrs); reflexivity.
  - intros Hu Hp d. destruct (users s) as [usrs|] eqn:Eu; [|contradiction].
    unfold fill_comments, bind, __get_all_ids__, pure. simpl.
    rewrite Eu, Hp, Hr. simpl. unfold comment_round.
    destruct (map users_id usrs); reflexivity.
  - intros w. unfold main.fill_mode, main.when, bind. simpl.
    assert (H0 : (count =? 0) = false) by lia. rewrite H0.
    unfold fill_blogs, bind, __get_all_ids__, pure. simpl.
    rewrite Hr. reflexivity.
Qed.

Lemma fill_without_parents_raises_witness :
  (forall d, fill_blogs no_modules 1 d created = (created, Raised IndexError))
  /\ (forall d, fill_posts no_modules 1 d created = (created, Raised IndexError))
  /\ (forall d, fill_comments no_modules 1 d created
                = (created, Raised IndexError))
  /\ (forall b d, fill_logs_login_logout no_modules b d created
                  = (created, Raised OperationalError)).
Proof.
  apply (proj1 (fill_without_parents_raises no_modules 1 created ltac:(lia)));
    [reflexivity|discriminate|discriminate].
Defined.

(* ------------------------------------------------------------------ *)
(** ** fill_logs_login_logout *)

Lemma read_log_total (v : log_value) : read_log v = Returned (log_of v).
Proof. destruct v as [[[datetime user_id] space_type_id] event_type_id]. reflexivity. Qed.

Lemma log_of_id (v : log_value) (i : Z) : logs_id (log_of v i) = i.
Proof. destruct v as [[[datetime user_id] space_type_id] event_type_id]. reflexivity. Qed.

Lemma log_of_entry (v : log_value) (i : Z) : log_entry (log_of v i) = some_entry v.
Proof. destruct v as [[[datetime user_id] space_type_id] event_type_id]. reflexivity. Qed.

Lemma set_logs_same (s : store) (lgs : list logs_row) :
  logs s = Some lgs -> set logging_logs (Some (lgs ++ [])) s = s.
Proof. destruct s. simpl. intros ->. now rewrite app_nil_r. Qed.

Lemma set_logs_twice (s : store) (v v' : option (list logs_row)) :
  set logging_logs v (set logging_logs v' s) = set logging_logs v s.
Proof. reflexivity. Qed.

Lemma map_snd_combine {A B} (l : list A) (l' : list B) :
  List.length l = List.length l' -> map snd (combine l l') = l'.
Proof.
  revert l'. induction l as [|x l IH]; intros [|y l'] H; simpl in *;
    try discriminate; [reflexivity|]. now rewrite IH by lia.
Qed.

(** The time [get_random_date] returns lies in the range asked for when
    [faker] answers; without [faker] it is the clock reading, which lies in
    the range exactly when the range holds the present. *)
Lemma get_random_date_in_range (m : modules) (starts ends : bound) (c : clock) :
  (is_faker m = true -> in_range c starts ends) ->
  offset starts <= 0 <= offset ends ->
  now c + offset starts <= get_random_date m starts ends c <= now c + offset ends.
Proof.
  unfold get_random_date, in_range. intros Hf H0.
  destruct (is_faker m); simpl; [now apply Hf|lia].
Qed.

Lemma fill_logs_login_logout_effect (m : modules) (is_login : bool)
    (draw : nat -> clock) (s : store) (usrs : list users_row)
    (lgs : list logs_row) :
  users s = Some usrs -> logs s = Some lgs ->
  exists new,
    fill_logs_login_logout m is_login draw s
    = (set logging_logs (Some (lgs ++ new)) s,
       match usrs with [] => Raised OperationalError | _ :: _ => Returned tt end)
    /\ map log_entry new
       = map some_entry
           (login_logout_values m is_login draw (map users_id usrs)).
Proof.
  intros Hu Hl.
  unfold fill_logs_login_logout, bind, __get_all_ids__. simpl get. rewrite Hu.
  fold (login_logout_values m is_login draw (map users_id usrs)).
  destruct usrs as [|u usrs].
  - exists []. rewrite (set_logs_same s lgs Hl). split; reflexivity.
  - exists (added logs_id lgs
              (map log_of (login_logout_values m is_login draw
                             (map users_id (u :: usrs))))).
    split.
    + apply (execute_insert_rows logging_logs read_log log_of); try assumption.
      * discriminate.
      * intros v _. apply read_log_total.
    + apply (added_entries logs_id log_of log_entry some_entry log_of_entry).
Qed.

Lemma events_app (n : Z) (a b : list logs_row) :
  events n (a ++ b) = (events n a + events n b)%nat.
Proof. unfold events. now rewrite filter_app, length_app. Qed.

Lemma events_of_entries (n : Z) (state : Z) (rows : list logs_row)
    (vs : list log_value) :
  map log_entry rows = map some_entry vs ->
  Forall (fun v => snd v = state) vs ->
  events n rows = if n =? state then List.length vs else 0%nat.
Proof.
  unfold events. revert vs. induction rows as [|l rows IH]; intros [|v vs] H Hs;
    simpl in H; try discriminate.
  - now destruct (n =? state).
  - injection H as Hl H. inversion Hs as [|? ? Hv Hs']; subst.
    specialize (IH vs H Hs'). simpl.
    destruct v as [[[datetime user_id] space_type_id] event_type_id].
    unfold log_entry in Hl. simpl in Hl. injection Hl as _ _ _ He.
    unfold is_event at 1. rewrite He. simpl.
    rewrite Z.eqb_sym. simpl in IH.
    destruct (n =? event_type_id); simpl; now rewrite IH.
Qed.

Lemma login_logout_values_state (m : modules) (is_login : bool)
    (draw : nat -> clock) (ids : list Z) :
  Forall (fun v => snd v = if is_login then 1 else 5)
         (login_logout_values m is_login draw ids).
Proof.
  unfold login_logout_values. apply Forall_forall. intros v Hv.
  apply in_map_iff in Hv. destruct Hv as (iu & <- & _). reflexivity.
Qed.

Lemma login_logout_values_length (m : modules) (is_login : bool)
    (draw : nat -> clock) (ids : list Z) :
  List.length (login_logout_values m is_login draw ids) = List.length ids.
Proof.
  unfold login_logout_values.
  now rewrite length_map, length_combine, length_seq, Nat.min_id.
Qed.

Lemma login_logout_rounds_effect (m : modules) (w : main.world)
    (usrs : list users_row) (rounds : list nat) :
  forall (s : store) (lgs : list logs_row),
  users s = Some usrs -> logs s = Some lgs ->
  exists new out,
    main.login_logout_rounds m w rounds s
    = (set logging_logs (Some (lgs ++ new)) s, out)
    /\ (usrs <> [] -> out = Returned tt)
    /\ events event_login new = (List.length rounds * List.length usrs)%nat
    /\ events event_logout new = (List.length rounds * List.length usrs)%nat.
Proof.
  destruct usrs as [|u usrs'].
  - intros s lgs Hu Hl. destruct rounds as [|i rounds].
    + exists [], (Returned tt). rewrite (set_logs_same s lgs Hl).
      now repeat split.
    + destruct (fill_logs_login_logout_effect m true (main.login_clocks w i)
                  s [] lgs Hu Hl) as (n1 & E1 & V1).
      assert (n1 = []) as -> by (now destruct n1).
      exists [], (Raised OperationalError).
      simpl main.login_logout_rounds. unfold bind at 1. rewrite E1.
      rewrite Nat.mul_0_r. repeat split. intros H. now contradiction H.
  - set (usrs := u :: usrs').
    induction rounds as [|i rounds IH]; intros s lgs Hu Hl.
    + exists [], (Returned tt). rewrite (set_logs_same s lgs Hl).
      now repeat split.
    + destruct (fill_logs_login_logout_effect m true (main.login_clocks w i)
                  s usrs lgs Hu Hl) as (n1 & E1 & V1).
      set (s1 := set logging_logs (Some (lgs ++ n1)) s) in *.
      assert (Hu1 : users s1 = Some usrs) by exact Hu.
      destruct (fill_logs_login_logout_effect m false (main.logout_clocks w i)
                  s1 usrs (lgs ++ n1) Hu1 eq_refl) as (n2 & E2 & V2).
      set (s2 := set logging_logs (Some ((lgs ++ n1) ++ n2)) s1) in *.
      destruct (IH s2 ((lgs ++ n1) ++ n2) Hu1 eq_refl)
        as (n3 & out & E3 & R3 & C1 & C5).
      exists (n1 ++ n2 ++ n3), out.
      split; [|split; [exact R3|split]].
      * simpl main.login_logout_rounds. unfold bind at 1. rewrite E1.
        unfold usrs at 1. cbv iota. unfold bind at 1. rewrite E2.
        unfold usrs at 1. cbv iota. rewrite E3.
        unfold s2, s1. rewrite !set_logs_twice.
        now rewrite <- !app_assoc.
      * rewrite !events_app, C1.
        rewrite (events_of_entries event_login 1 n1 _ V1
                   (login_logout_values_state m true _ _)).
        rewrite (events_of_entries event_login 5 n2 _ V2
                   (login_logout_values_state m false _ _)).
        rewrite ?login_logout_values_length, ?length_map.
        unfold event_login, event_logout. cbn [Z.eqb Pos.eqb List.length Nat.mul].
        lia.
      * rewrite !events_app, C5.
        rewrite (events_of_entries event_logout 1 n1 _ V1
                   (login_logout_values_state m true _ _)).
        rewrite (events_of_entries event_logout 5 n2 _ V2
                   (login_logout_values_state m false _ _)).
        rewrite ?login_logout_values_length, ?length_map.
        unfold event_login, event_logout. cbn [Z.eqb Pos.eqb List.length Nat.mul].
        lia.
Qed.

(** [C8] Each call of [fill_logs_login_logout] appends exactly one log row
    per user now in the users table, in the order of the users: space type
    global, event type login and a time between five days before the clock
    reading and the reading when [is_login], event type logout and a time
    between the reading and five days after it otherwise.  So [n] rounds of
    the login call followed by the logout call append [n] times the number
    of users rows of each kind, not [n].  (With no user the call inserts
    nothing and raises; with at least one it returns.) *)
Theorem login_logout_per_user (m : modules) (s : store)
    (usrs : list users_row) (lgs : list logs_row) :
  users s = Some usrs -> logs s = Some lgs ->
  (forall (is_login : bool) (draw : nat -> clock),
     (is_faker m = true ->
      forall i, in_range (draw i) (fst (date_range is_login))
                         (snd (date_range is_login))) ->
     exists new out,
       fill_logs_login_logout m is_login draw s
       = (set logging_logs (Some (lgs ++ new)) s, out)
       /\ (usrs <> [] -> out = Returned tt)
       /\ map logs_user_id new = map (fun u => Some (users_id u)) usrs
       /\ forall l, In l new ->
            logs_space_type_id l = Some space_global
            /\ logs_event_type_id l
               = Some (if is_login then event_login else event_logout)
            /\ exists i,
                 if is_login
                 then now (draw i) - 5 * day <= logs_datetime l <= now (draw i)
                 else now (draw i) <= logs_datetime l <= now (draw i) + 5 * day)
  /\ (forall (w : main.world) (n : Z),
        exists new out,
          main.login_logout_rounds m w (range n) s
          = (set logging_logs (Some (lgs ++ new)) s, out)
          /\ (usrs <> [] -> out = Returned tt)
          /\ events event_login new = (Z.to_nat n * List.length usrs)%nat
          /\ events event_logout new = (Z.to_nat n * List.length usrs)%nat).
Proof.
  intros Hu Hl. split.
  - intros is_login draw Hf.
    destruct (fill_logs_login_logout_effect m is_login draw s usrs lgs Hu Hl)
      as (new & E & V).
    exists new. eexists. split; [exact E|]. split; [|split].
    + intros H. destruct usrs; [contradiction|reflexivity].
    + transitivity (map (fun e : timestamp * option Z * option Z * option Z =>
                            snd (fst (fst e))) (map log_entry new)).
      { now rewrite map_map. }
      rewrite V. unfold login_logout_values. rewrite !map_map. simpl.
      rewrite <- (map_map snd Some), map_snd_combine, map_map;
        [reflexivity|now rewrite length_seq].
    + intros l Hlin.
      apply (in_map log_entry) in Hlin. rewrite V in Hlin.
      apply in_map_iff in Hlin. destruct Hlin as (v & Hv & Hvin).
      unfold login_logout_values in Hvin. apply in_map_iff in Hvin.
      destruct Hvin as ([i u] & <- & _). unfold log_entry in Hv. simpl in Hv.
      injection Hv as Hd _ Hs He. rewrite <- Hs, <- He.
      split; [reflexivity|]. split; [now destruct is_login|].
      exists i. rewrite <- Hd.
      pose proof (get_random_date_in_range m (fst (date_range is_login))
                    (snd (date_range is_login)) (draw i)
                    (fun H => Hf H i)) as Hr.
      destruct is_login; simpl in Hr |- *; unfold day in *; lia.
  - intros w n.
    destruct (login_logout_rounds_effect m w usrs (range n) s lgs Hu Hl)
      as (new & out & E & R & C1 & C5).
    exists new, out. rewrite range_length in C1, C5. now repeat split.
Qed.

(* ------------------------------------------------------------------ *)
(** ** fill_blogs *)

Lemma choice_chosen (word : nat) (ids : list Z) :
  ids <> [] -> choice word ids = Returned (chosen word ids).
Proof.
  intros H. destruct ids as [|x ids]; [contradiction|].
  unfold choice, chosen. f_equal. apply nth_indep.
  apply Nat.mod_upper_bound. discriminate.
Qed.

Lemma chosen_in (word : nat) (ids : list Z) : ids <> [] -> In (chosen word ids) ids.
Proof.
  intros H. unfold chosen. apply nth_In. apply Nat.mod_upper_bound.
  destruct ids; [contradiction|discriminate].
Qed.

Lemma position_found (k : Z) (ids : list Z) :
  In k ids -> chosen (position k ids) ids = k.
Proof.
  intros H. unfold chosen.
  assert (Hp : (position k ids < List.length ids)%nat /\ nth (position k ids) ids 0 = k).
  { induction ids as [|x ids IH]; [destruct H|]. simpl.
    destruct (x =? k) eqn:E.
    - split; [lia|]. now apply Z.eqb_eq.
    - destruct H as [->|H]; [rewrite Z.eqb_refl in E; discriminate|].
      destruct (IH H) as [Hlt Hn]. split; [lia|exact Hn]. }
  destruct Hp as [Hlt Hn]. now rewrite Nat.mod_small.
Qed.

Lemma get_sentence_clean (m : modules) (text : string) :
  (is_lorem m = true -> clean text = true) -> clean (get_sentence m text) = true.
Proof. unfold get_sentence. destruct (is_lorem m); simpl; auto. Qed.

Lemma get_description_clean (m : modules) (text : string) :
  (is_lorem m = true -> clean text = true) ->
  clean (get_description m text) = true.
Proof. unfold get_description. destruct (is_lorem m); simpl; auto. Qed.

Lemma read_blog_clean (owner : Z) (name description : string) :
  clean name = true -> clean description = true ->
  read_blog (owner, name, description)
  = Returned (blog_of (owner, name, description)).
Proof.
  intros Hn Hd. unfold read_blog.
  now rewrite (quoted_value_clean name Hn), (quoted_value_clean description Hd).
Qed.

Lemma users_ids_nonempty (usrs : list users_row) :
  usrs <> [] -> map users_id usrs <> [].
Proof. destruct usrs; [contradiction|discriminate]. Qed.

Lemma fill_blogs_effect (m : modules) (K : Z) (draw : nat -> blog_draw)
    (s : store) (usrs : list users_row) (blgs : list blog_row) :
  1 <= K -> users s = Some usrs -> usrs <> [] -> blog s = Some blgs ->
  (is_lorem m = true -> forall i, (i < Z.to_nat K)%nat ->
     clean (blog_sentence (draw i)) = true
     /\ clean (blog_paragraph (draw i)) = true) ->
  exists new : list blog_row,
    fill_blogs m K draw s = (set main_blog (Some (blgs ++ new)) s, Returned tt)
    /\ List.length new = Z.to_nat K
    /\ map blog_owner_id new
       = map (fun i => Some (chosen (owner_word (draw i)) (map users_id usrs)))
             (range K).
Proof.
  intros HK Hu Hne Hb Htext.
  set (ids := map users_id usrs).
  set (g := fun i => (chosen (owner_word (draw i)) ids,
                      get_sentence m (blog_sentence (draw i)),
                      get_description m (blog_paragraph (draw i)))).
  exists (added blog_id blgs (map blog_of (map g (range K)))).
  split; [|split].
  - unfold fill_blogs, bind, __get_all_ids__, pure. simpl get. rewrite Hu.
    fold ids.
    rewrite (comprehension_total _ g).
    + apply (execute_insert_rows main_blog read_blog blog_of); [| |exact Hb].
      * pose proof (range_positive K HK).
        destruct (range K); [contradiction|discriminate].
      * intros v Hv. apply in_map_iff in Hv. destruct Hv as (i & <- & Hi).
        apply in_range_below in Hi. unfold g. apply read_blog_clean.
        -- apply get_sentence_clean. intros H. now apply (Htext H i Hi).
        -- apply get_description_clean. intros H. now apply (Htext H i Hi).
    + intros i _.
      now rewrite (choice_chosen _ ids (users_ids_nonempty usrs Hne)).
  - now rewrite added_length, !length_map, range_length.
  - rewrite (added_entries blog_id blog_of blog_owner_id
               (fun v => Some (fst (fst v)))).
    + now rewrite map_map.
    + now intros [[owner name] description] i.
Qed.

(** [C9] For every K >= 1 and every store with at least one user, after
    [fill_blogs(K)] the K new blog rows have owners taken from the ids of
    the users table as it is at the call: the owner of the i-th new row is
    the id at the place the i-th random index points to in that full list,
    read by the call itself, so it is one of these ids, the list is the same
    for every row (sampling with replacement), and every list of K of these
    ids is the outcome for some random indices.  Different indices below
    the number of users give different ids, so the owner is as evenly spread
    over the ids as the index is over its range; that each index is equally
    likely is the contract of [random.choice].  (The blog texts, when
    [lorem] supplies them, are assumed free of quotes and NUL.) *)
Theorem fill_blogs_owners (m : modules) (K : Z) (draw : nat -> blog_draw)
    (s : store) (usrs : list users_row) (blgs : list blog_row) :
  1 <= K -> users s = Some usrs -> usrs <> [] -> blog s = Some blgs ->
  (is_lorem m = true -> forall i, (i < Z.to_nat K)%nat ->
     clean (blog_sentence (draw i)) = true
     /\ clean (blog_paragraph (draw i)) = true) ->
  (exists new : list blog_row,
     fill_blogs m K draw s = (set main_blog (Some (blgs ++ new)) s, Returned tt)
     /\ List.length new = Z.to_nat K
     /\ map blog_owner_id new
        = map (fun i => Some (nth (owner_word (draw i) mod List.length usrs)
                                  (map users_id usrs) 0))
              (range K)
     /\ forall b, In b new ->
          exists u, In u usrs /\ blog_owner_id b = Some (users_id u))
  /\ (forall owners : list Z,
        List.length owners = Z.to_nat K ->
        (forall k, In k owners -> In k (map users_id usrs)) ->
        exists words new,
          fill_blogs m K
            (fun i => {| owner_word := words i;
                         blog_sentence := blog_sentence (draw i);
                         blog_paragraph := blog_paragraph (draw i) |}) s
          = (set main_blog (Some (blgs ++ new)) s, Returned tt)
          /\ map blog_owner_id new = map Some owners)
  /\ (NoDup (map users_id usrs) ->
      forall i j, (i < List.length usrs)%nat -> (j < List.length usrs)%nat ->
        chosen i (map users_id usrs) = chosen j (map users_id usrs) -> i = j).
Proof.
  intros HK Hu Hne Hb Htext. split; [|split].
  - destruct (fill_blogs_effect m K draw s usrs blgs HK Hu Hne Hb Htext)
      as (new & E & L & O).
    exists new. split; [exact E|]. split; [exact L|]. split.
    + rewrite O. apply map_ext. intros i. unfold chosen.
      now rewrite length_map.
    + intros b Hbin.
      apply (in_map blog_owner_id) in Hbin. rewrite O in Hbin.
      apply in_map_iff in Hbin. destruct Hbin as (i & Hi & _).
      pose proof (chosen_in (owner_word (draw i)) (map users_id usrs)
                    (users_ids_nonempty usrs Hne)) as Hin.
      apply in_map_iff in Hin. destruct Hin as (u & Hid & Hin).
      exists u. split; [exact Hin|]. now rewrite <- Hi, Hid.
  - intros owners Hlen Hin.
    set (words := fun i => position (nth i owners 0) (map users_id usrs)).
    destruct (fill_blogs_effect m K
                (fun i => {| owner_word := words i;
                             blog_sentence := blog_sentence (draw i);
                             blog_paragraph := blog_paragraph (draw i) |})
                s usrs blgs HK Hu Hne Hb Htext) as (new & E & L & O).
    exists words, new. split; [exact E|]. rewrite O. simpl.
    unfold range. rewrite <- Hlen.
    rewrite <- (map_map (fun i => nth i owners 0)
                  (fun k => Some (chosen (position k (map users_id usrs))
                                         (map users_id usrs)))).
    rewrite <- (map_map (fun k => chosen (position k (map users_id usrs))
                                         (map users_id usrs)) Some).
    f_equal.
    assert (Hnth : map (fun i => nth i owners 0) (seq 0 (List.length owners))
                   = owners).
    { clear. induction owners as [|k owners IH]; simpl; [reflexivity|].
      f_equal. rewrite <- seq_shift, map_map. exact IH. }
    rewrite Hnth. rewrite <- (map_id owners) at 2. apply map_ext_in.
    intros k Hk. apply position_found. now apply Hin.
  - intros Hkeys i j Hi Hj. unfold chosen. rewrite length_map.
    rewrite !Nat.mod_small by assumption.
    apply (proj1 (NoDup_nth (map users_id usrs) 0) Hkeys);
      now rewrite length_map.
Qed.

(* ------------------------------------------------------------------ *)
(** ** fill_posts *)

Lemma read_post_clean (header text : string) (user_id blog : Z) :
  clean header = true -> clean text = true ->
  read_post (header, text, user_id, blog)
  = Returned (post_of (header, text, user_id, blog)).
Proof.
  intros Hh Ht. unfold read_post.
  now rewrite (quoted_value_clean header Hh), (quoted_value_clean text Ht).
Qed.

Lemma blog_ids_nonempty (blgs : list blog_row) :
  blgs <> [] -> map blog_id blgs <> [].
Proof. destruct blgs; [contradiction|discriminate]. Qed.

Lemma map_concat {A B} (f : A -> B) (l : list (list A)) :
  map f (List.concat l) = List.concat (map (map f) l).
Proof.
  induction l as [|x l IH]; simpl; [reflexivity|]. now rewrite map_app, IH.
Qed.

(** [C5], as stated, fails at its space type: the log row that goes with a
    new post has [space_type_id] 2, the blog space, not 3, the post space.
    Here one post is made on the sample store, the die showing 0: the one
    new log row is a create_post event in the blog space, and no new log row
    is a create_post event in the post space. *)
Lemma fill_posts_logs_blog_space :
  exists new_logs,
    logs (fst (fill_posts all_modules 1 sample_post_draw sample))
    = Some (sample_logs ++ new_logs)
    /\ map log_entry new_logs
       = [(998 * day, Some 1, Some space_blog, Some event_create_post)]
    /\ space_blog <> space_post
    /\ ~ (exists l, In l new_logs
                    /\ logs_event_type_id l = Some event_create_post
                    /\ logs_space_type_id l = Some space_post).
Proof.
  eexists. split; [reflexivity|]. split; [reflexivity|].
  split; [discriminate|].
  intros (l & [<-|[]] & _ & H). discriminate H.
Qed.

(** [C5], amended: [fill_posts(count)], when it has users and blogs to draw
    from, appends for each of its [count] rounds one post and one log row of
    event type create_post in the space type blog, by the post's author, at
    a time between two days before the clock reading and the reading; and,
    exactly when [random.randint(0, 3)] gives 1 (one of its four values), a
    second log row right after it, of event type delete_post in the space
    type blog, by the same user, at a time between one and four days after
    the clock reading when [faker] gives the time, at the clock reading
    itself otherwise. *)
Theorem fill_posts_logs (m : modules) (count : Z) (draw : nat -> post_draw)
    (s : store) (usrs : list users_row) (blgs : list blog_row)
    (psts : list post_row) (lgs : list logs_row) :
  1 <= count ->
  users s = Some usrs -> usrs <> [] ->
  blog s = Some blgs -> blgs <> [] ->
  post s = Some psts -> logs s = Some lgs ->
  (is_lorem m = true -> forall i, (i < Z.to_nat count)%nat ->
     clean (post_sentence (draw i)) = true
     /\ clean (post_paragraph (draw i)) = true) ->
  (is_faker m = true -> forall i,
     in_range (creation (draw i)) (days (-2)) now_
     /\ in_range (deletion (draw i)) (days 1) (days 4)) ->
  let author := fun i =>
    nth (author_word (draw i) mod List.length usrs) (map users_id usrs) 0 in
  let made := fun i =>
    get_random_date m (days (-2)) now_ (creation (draw i)) in
  let unmade := fun i =>
    get_random_date m (days 1) (days 4) (deletion (draw i)) in
  exists (new_posts : list post_row) (new_logs : list logs_row),
    fill_posts m count draw s
    = (set logging_logs (Some (lgs ++ new_logs))
         (set main_post (Some (psts ++ new_posts)) s), Returned tt)
    /\ map post_author_id new_posts = map (fun i => Some (author i)) (range count)
    /\ map log_entry new_logs
       = flat_map (fun i =>
           (made i, Some (author i), Some space_blog, Some event_create_post)
           :: (if die (draw i) =? 1
               then [(unmade i, Some (author i), Some space_blog,
                      Some event_delete_post)]
               else []))
           (range count)
    /\ (forall i,
          now (creation (draw i)) - 2 * day <= made i <= now (creation (draw i))
          /\ if is_faker m
             then now (deletion (draw i)) + 1 * day <= unmade i
                  <= now (deletion (draw i)) + 4 * day
             else unmade i = now (deletion (draw i)))
    /\ List.length (filter (fun r => r =? 1) [0; 1; 2; 3]) = 1%nat.
Proof.
  intros Hc Hu Hune Hb Hbne Hp Hl Htext Htime author made unmade.
  set (ids := map users_id usrs).
  set (bids := map blog_id blgs).
  set (g := fun i : nat =>
    ((get_sentence m (post_sentence (draw i)),
      get_description m (post_paragraph (draw i)),
      chosen (author_word (draw i)) ids, chosen (blog_word (draw i)) bids),
     ((made i, chosen (author_word (draw i)) ids, 2, 3)
      :: (if die (draw i) =? 1
          then [(unmade i, chosen (author_word (draw i)) ids, 2, 4)]
          else []) : list log_value))).
  assert (Hauthor : forall i, chosen (author_word (draw i)) ids = author i).
  { intros i. unfold chosen, author, ids. now rewrite length_map. }
  set (rounds := map g (range count)).
  set (s1 := set main_post
               (Some (psts ++ added post_id psts (map post_of (map fst rounds))))
               s).
  exists (added post_id psts (map post_of (map fst rounds))),
         (added logs_id lgs (map log_of (List.concat (map snd rounds)))).
  assert (Hne : range count <> []) by now apply range_positive.
  split; [|split; [|split; [|split]]].
  - unfold fill_posts, bind, __get_all_ids__, pure. simpl get.
    rewrite Hu, Hb. fold ids bids.
    rewrite (comprehension_total _ g).
    + cbv beta iota. fold rounds.
      rewrite (execute_insert_rows main_post read_post post_of
                 (map fst rounds) s psts).
      * fold s1.
        apply (execute_insert_rows logging_logs read_log log_of).
        -- unfold rounds. destruct (range count) as [|i l]; [contradiction|].
           simpl. discriminate.
        -- intros v _. apply read_log_total.
        -- exact Hl.
      * unfold rounds. destruct (range count); [contradiction|discriminate].
      * intros v Hv. unfold rounds in Hv. rewrite map_map in Hv.
        apply in_map_iff in Hv. destruct Hv as (i & <- & Hi).
        apply in_range_below in Hi. unfold g. cbn [fst].
        apply read_post_clean.
        -- apply get_sentence_clean. intros H. now apply (Htext H i Hi).
        -- apply get_description_clean. intros H. now apply (Htext H i Hi).
      * exact Hp.
    + intros i _. unfold post_round.
      rewrite (choice_chosen _ ids (users_ids_nonempty usrs Hune)).
      cbn [obind].
      now rewrite (choice_chosen _ bids (blog_ids_nonempty blgs Hbne)).
  - rewrite (added_entries post_id post_of post_author_id
               (fun v => Some (snd (fst v)))).
    + unfold rounds. rewrite !map_map. apply map_ext. intros i. unfold g.
      cbn [fst snd]. now rewrite Hauthor.
    + now intros [[[header text] user_id] blog] i.
  - rewrite (added_entries logs_id log_of log_entry some_entry log_of_entry).
    rewrite map_concat, flat_map_concat_map. f_equal.
    unfold rounds. rewrite !map_map. apply map_ext. intros i. unfold g.
    cbn [snd]. rewrite Hauthor.
    destruct (die (draw i) =? 1); reflexivity.
  - intros i. split.
    + pose proof (get_random_date_in_range m (days (-2)) now_
                    (creation (draw i)) (fun H => proj1 (Htime H i))) as Hr.
      unfold made. simpl in Hr. unfold day in *. lia.
    + unfold unmade, get_random_date.
      destruct (is_faker m) eqn:Hf; simpl; [|reflexivity].
      destruct (Htime eq_refl i) as [_ Hd]. unfold in_range in Hd.
      simpl in Hd. unfold day in *. lia.
  - reflexivity.
Qed.

(* ------------------------------------------------------------------ *)
(** ** What the fill engine keeps true *)

Lemma bind_returned {A B} (m : M A) (f : A -> M B) (s s' : store) (b : B) :
  bind m f s = (s', Returned b) ->
  exists s1 a, m s = (s1, Returned a) /\ f a s1 = (s', Returned b).
Proof.
  unfold bind. destruct (m s) as [s1 [a|e|]]; intros H; try discriminate H.
  now exists s1, a.
Qed.

Lemma pure_returned {A} (o : outcome A) (s s' : store) (a : A) :
  pure o s = (s', Returned a) -> s' = s /\ o = Returned a.
Proof. unfold pure. intros H. injection H as <- ->. now split. Qed.

Lemma get_all_ids_returned {R} (t : table R) (s s' : store) (ids : list Z) :
  __get_all_ids__ t s = (s', Returned ids) ->
  s' = s /\ exists rows, get t s = Some rows /\ ids = map (rowid t) rows.
Proof.
  unfold __get_all_ids__. destruct (get t s) as [rows|]; intros H;
    [|discriminate H].
  injection H as <- <-. split; [reflexivity|]. now exists rows.
Qed.

Lemma comprehension_returned {A B} (f : A -> outcome B) (l : list A) :
  forall ys, comprehension f l = Returned ys ->
  Forall2 (fun x y => f x = Returned y) l ys.
Proof.
  induction l as [|x l IH]; simpl; intros ys H.
  - injection H as <-. constructor.
  - destruct (f x) as [y|e|] eqn:E; try discriminate H. simpl in H.
    destruct (comprehension f l) as [ys'|e|]; try discriminate H.
    simpl in H. injection H as <-. constructor; [exact E|now apply IH].
Qed.

Lemma Forall2_right {A B} (P : A -> B -> Prop) (l : list A) (l' : list B) :
  Forall2 P l l' -> forall y, In y l' -> exists x, In x l /\ P x y.
Proof.
  induction 1 as [|x y l l' Hxy _ IH]; intros z Hz; [destruct Hz|].
  destruct Hz as [<-|Hz].
  - exists x. split; [now left|exact Hxy].
  - destruct (IH z Hz) as (x' & Hx' & Hp). exists x'. split; [now right|exact Hp].
Qed.

Lemma execute_insert_returned {V R} (t : table R)
    (read : V -> outcome (Z -> R)) (values : list V) (s s' : store) (u : unit) :
  execute_insert t read values s = (s', Returned u) ->
  exists rows new,
    get t s = Some rows
    /\ Forall2 (fun v f => read v = Returned f) values new
    /\ s' = set t (Some (rows ++ added (rowid t) rows new)) s.
Proof.
  unfold execute_insert. destruct values as [|v values]; [discriminate|].
  intros H. apply bind_returned in H. destruct H as (s1 & new & H1 & H2).
  apply pure_returned in H1. destruct H1 as [-> Hc].
  unfold insert in H2. destruct (get t s) as [rows|]; [|discriminate H2].
  injection H2 as <-. exists rows, new.
  split; [reflexivity|]. split; [now apply comprehension_returned|].
  now rewrite append_rows_added.
Qed.

Lemma choice_returned {A} (word : nat) (l : list A) (x : A) :
  choice word l = Returned x -> In x l.
Proof.
  unfold choice. destruct l as [|y l]; [discriminate|].
  intros H.
  assert (E : x = nth (word mod List.length (y :: l)) (y :: l) y)
    by congruence.
  rewrite E. apply nth_In. apply Nat.mod_upper_bound. discriminate.
Qed.

Lemma read_user_returned (pair : string * string) (f : Z -> users_row) :
  read_user pair = Returned f -> forall i, users_id (f i) = i.
Proof.
  unfold read_user.
  destruct (rendered_value (repr (fst pair))); try discriminate.
  destruct (rendered_value (repr (snd pair))); try discriminate.
  simpl. intros H. injection H as <-. reflexivity.
Qed.

Lemma read_post_returned (header text : string) (user_id blog : Z)
    (f : Z -> post_row) :
  read_post (header, text, user_id, blog) = Returned f ->
  forall i, post_id (f i) = i /\ post_author_id (f i) = Some user_id.
Proof.
  unfold read_post.
  destruct (quoted_value header); try discriminate.
  destruct (quoted_value text); try discriminate.
  simpl. intros H. injection H as <-. now split.
Qed.

Lemma read_comment_returned (text : string) (user_id post : Z)
    (f : Z -> comment_row) :
  read_comment (text, user_id, post) = Returned f ->
  forall i, comment_author_id (f i) = Some user_id
            /\ comment_post_id (f i) = Some post.
Proof.
  unfold read_comment. destruct (quoted_value text); try discriminate.
  simpl. intros H. injection H as <-. now split.
Qed.

Lemma post_round_returned (m : modules) (user_ids blog_ids : list Z)
    (d : post_draw) (header text : string) (user_id blog : Z)
    (evs : list log_value) :
  post_round m user_ids blog_ids d = Returned ((header, text, user_id, blog), evs) ->
  In user_id user_ids.
Proof.
  unfold post_round.
  destruct (choice (author_word d) user_ids) as [u| |] eqn:Eu; try discriminate.
  destruct (choice (blog_word d) blog_ids) as [b| |]; try discriminate.
  simpl. intros H. injection H as _ _ <- _ _.
  exact (choice_returned _ _ _ Eu).
Qed.

Lemma comment_round_returned (m : modules) (user_ids post_ids : list Z)
    (d : comment_draw) (text : string) (user_id post : Z) (ev : log_value) :
  comment_round m user_ids post_ids d = Returned ((text, user_id, post), ev) ->
  In user_id user_ids /\ In post post_ids.
Proof.
  unfold comment_round.
  destruct (choice (commenter_word d) user_ids) as [u| |] eqn:Eu;
    try discriminate.
  destruct (choice (post_word d) post_ids) as [p| |] eqn:Ep; try discriminate.
  destruct (choice (logged_word d) user_ids) as [l| |]; try discriminate.
  simpl. intros H. injection H as _ <- <- _.
  split; [exact (choice_returned _ _ _ Eu)|exact (choice_returned _ _ _ Ep)].
Qed.

Lemma populated_more_users (usrs new : list users_row) (psts : list post_row)
    (cmts : list comment_row) :
  populated usrs psts cmts -> NoDup (map users_id (usrs ++ new)) ->
  populated (usrs ++ new) psts cmts.
Proof.
  intros [Hku Hkp Hca Hpa] Hk. split; [exact Hk|exact Hkp| |].
  - intros cmt Hc. destruct (Hca cmt Hc) as (a & p & Ha & H1 & Hp & H2).
    exists a, p. rewrite in_app_iff. auto.
  - intros pst Hp. destruct (Hpa pst Hp) as (a & Ha & H1).
    exists a. rewrite in_app_iff. auto.
Qed.

Lemma populated_more_posts (usrs : list users_row) (psts new : list post_row)
    (cmts : list comment_row) :
  populated usrs psts cmts -> NoDup (map post_id (psts ++ new)) ->
  (forall pst, In pst new ->
     exists a, In a usrs /\ post_author_id pst = Some (users_id a)) ->
  populated usrs (psts ++ new) cmts.
Proof.
  intros [Hku Hkp Hca Hpa] Hk Hnew. split; [exact Hku|exact Hk| |].
  - intros cmt Hc. destruct (Hca cmt Hc) as (a & p & Ha & H1 & Hp & H2).
    exists a, p. rewrite in_app_iff. auto.
  - intros pst Hp. apply in_app_iff in Hp. destruct Hp as [Hp|Hp]; auto.
Qed.

Lemma populated_more_comments (usrs : list users_row) (psts : list post_row)
    (cmts new : list comment_row) :
  populated usrs psts cmts ->
  (forall cmt, In cmt new ->
     exists a p, In a usrs /\ comment_author_id cmt = Some (users_id a)
                 /\ In p psts /\ comment_post_id cmt = Some (post_id p)) ->
  populated usrs psts (cmts ++ new).
Proof.
  intros [Hku Hkp Hca Hpa] Hnew. split; [exact Hku|exact Hkp| |exact Hpa].
  intros cmt Hc. apply in_app_iff in Hc. destruct Hc as [Hc|Hc]; auto.
Qed.

Lemma consistent_created : consistent created.
Proof.
  exists [], [], [], [], []. repeat (split; [reflexivity|]).
  split; try constructor; intros ? [].
Qed.

Lemma fill_users_consistent m count names s s' :
  consistent s -> fill_users m count names s = (s', Returned tt) ->
  consistent s'.
Proof.
  intros (usrs & blgs & psts & cmts & lgs & Hu & Hb & Hp & Hc & Hl & Hpop) H.
  unfold fill_users in H. apply execute_insert_returned in H.
  destruct H as (rows & new & Hget & Hread & ->).
  simpl in Hget. rewrite Hu in Hget. injection Hget as <-.
  exists (usrs ++ added users_id usrs new), blgs, psts, cmts, lgs.
  repeat (split; [first [reflexivity|assumption]|]).
  apply populated_more_users; [exact Hpop|].
  apply added_keeps_keys; [|apply Hpop].
  intros f Hf. destruct (Forall2_right _ _ _ Hread f Hf) as (v & _ & Hv).
  now apply (read_user_returned v).
Qed.

Lemma fill_blogs_consistent m count draw s s' :
  consistent s -> fill_blogs m count draw s = (s', Returned tt) ->
  consistent s'.
Proof.
  intros (usrs & blgs & psts & cmts & lgs & Hu & Hb & Hp & Hc & Hl & Hpop) H.
  unfold fill_blogs in H.
  apply bind_returned in H. destruct H as (s1 & ids & H1 & H).
  apply get_all_ids_returned in H1. destruct H1 as [-> _].
  apply bind_returned in H. destruct H as (s1 & values & H1 & H).
  apply pure_returned in H1. destruct H1 as [-> _].
  apply execute_insert_returned in H.
  destruct H as (rows & new & Hget & _ & ->).
  simpl in Hget. rewrite Hb in Hget. injection Hget as <-.
  exists usrs, (blgs ++ added blog_id blgs new), psts, cmts, lgs.
  repeat (split; [first [reflexivity|assumption]|]). exact Hpop.
Qed.

Lemma fill_logs_login_logout_consistent m is_login draw s s' :
  consistent s -> fill_logs_login_logout m is_login draw s = (s', Returned tt) ->
  consistent s'.
Proof.
  intros (usrs & blgs & psts & cmts & lgs & Hu & Hb & Hp & Hc & Hl & Hpop) H.
  unfold fill_logs_login_logout in H.
  apply bind_returned in H. destruct H as (s1 & ids & H1 & H).
  apply get_all_ids_returned in H1. destruct H1 as [-> _].
  apply execute_insert_returned in H.
  destruct H as (rows & new & Hget & _ & ->).
  simpl in Hget. rewrite Hl in Hget. injection Hget as <-.
  exists usrs, blgs, psts, cmts, (lgs ++ added logs_id lgs new).
  repeat (split; [first [reflexivity|assumption]|]). exact Hpop.
Qed.

Lemma fill_posts_consistent m count draw s s' :
  consistent s -> fill_posts m count draw s = (s', Returned tt) ->
  consistent s'.
Proof.
  intros (usrs & blgs & psts & cmts & lgs & Hu & Hb & Hp & Hc & Hl & Hpop) H.
  unfold fill_posts in H.
  apply bind_returned in H. destruct H as (s1 & ids & H1 & H).
  apply get_all_ids_returned in H1. destruct H1 as (-> & usrs' & Hu' & ->).
  simpl in Hu'. rewrite Hu in Hu'. injection Hu' as <-.
  apply bind_returned in H. destruct H as (s1 & bids & H1 & H).
  apply get_all_ids_returned in H1. destruct H1 as [-> _].
  apply bind_returned in H. destruct H as (s1 & rounds & H1 & H).
  apply pure_returned in H1. destruct H1 as [-> Hrounds].
  apply comprehension_returned in Hrounds.
  apply bind_returned in H. destruct H as (s1 & [] & H1 & H).
  apply execute_insert_returned in H1.
  destruct H1 as (rows & new & Hget & Hread & ->).
  simpl in Hget. rewrite Hp in Hget. injection Hget as <-.
  apply execute_insert_returned in H.
  destruct H as (lrows & lnew & Hlget & _ & ->).
  simpl in Hlget. rewrite Hl in Hlget. injection Hlget as <-.
  exists usrs, blgs, (psts ++ added post_id psts new), cmts,
         (lgs ++ added logs_id lgs lnew).
  repeat (split; [first [reflexivity|assumption]|]).
  assert (Hnew : forall f, In f new ->
            exists header text user_id blog,
              read_post (header, text, user_id, blog) = Returned f
              /\ In user_id (map users_id usrs)).
  { intros f Hf. destruct (Forall2_right _ _ _ Hread f Hf) as (v & Hv & Hrv).
    apply in_map_iff in Hv. destruct Hv as ([v' evs] & <- & Hin).
    destruct (Forall2_right _ _ _ Hrounds _ Hin) as (i & _ & Hi).
    destruct v' as [[[header text] user_id] blog].
    exists header, text, user_id, blog. split; [exact Hrv|].
    exact (post_round_returned _ _ _ _ _ _ _ _ _ Hi). }
  apply populated_more_posts; [exact Hpop| |].
  - apply added_keeps_keys; [|apply Hpop].
    intros f Hf i. destruct (Hnew f Hf) as (h & t & u & b & Hr & _).
    apply (read_post_returned _ _ _ _ _ Hr).
  - intros pst Hpst. destruct (added_from post_id new psts pst Hpst)
      as (f & i & Hf & ->).
    destruct (Hnew f Hf) as (h & t & u & b & Hr & Hu').
    apply in_map_iff in Hu'. destruct Hu' as (a & <- & Ha).
    exists a. split; [exact Ha|].
    apply (read_post_returned _ _ _ _ _ Hr).
Qed.

Lemma fill_comments_consistent m count draw s s' :
  consistent s -> fill_comments m count draw s = (s', Returned tt) ->
  consistent s'.
Proof.
  intros (usrs & blgs & psts & cmts & lgs & Hu & Hb & Hp & Hc & Hl & Hpop) H.
  unfold fill_comments in H.
  apply bind_returned in H. destruct H as (s1 & ids & H1 & H).
  apply get_all_ids_returned in H1. destruct H1 as (-> & usrs' & Hu' & ->).
  simpl in Hu'. rewrite Hu in Hu'. injection Hu' as <-.
  apply bind_returned in H. destruct H as (s1 & pids & H1 & H).
  apply get_all_ids_returned in H1. destruct H1 as (-> & psts' & Hp' & ->).
  simpl in Hp'. rewrite Hp in Hp'. injection Hp' as <-.
  apply bind_returned in H. destruct H as (s1 & rounds & H1 & H).
  apply pure_returned in H1. destruct H1 as [-> Hrounds].
  apply comprehension_returned in Hrounds.
  apply bind_returned in H. destruct H as (s1 & [] & H1 & H).
  apply execute_insert_returned in H1.
  destruct H1 as (rows & new & Hget & Hread & ->).
  simpl in Hget. rewrite Hc in Hget. injection Hget as <-.
  apply execute_insert_returned in H.
  destruct H as (lrows & lnew & Hlget & _ & ->).
  simpl in Hlget. rewrite Hl in Hlget. injection Hlget as <-.
  exists usrs, blgs, psts, (cmts ++ added comment_id cmts new),
         (lgs ++ added logs_id lgs lnew).
  repeat (split; [first [reflexivity|assumption]|]).
  apply populated_more_comments; [exact Hpop|].
  intros cmt Hcmt. destruct (added_from comment_id new cmts cmt Hcmt)
    as (f & i & Hf & ->).
  destruct (Forall2_right _ _ _ Hread f Hf) as (v & Hv & Hrv).
  apply in_map_iff in Hv. destruct Hv as ([v' ev] & <- & Hin).
  destruct (Forall2_right _ _ _ Hrounds _ Hin) as (j & _ & Hj).
  destruct v' as [[text user_id] pid]. cbn [fst] in Hrv.
  destruct (comment_round_returned _ _ _ _ _ _ _ _ Hj) as [Hu' Hp'].
  apply in_map_iff in Hu'. destruct Hu' as (a & <- & Ha).
  apply in_map_iff in Hp'. destruct Hp' as (p & <- & Hpin).
  exists a, p.
  destruct (read_comment_returned _ _ _ _ Hrv i) as [E1 E2].
  now repeat split.
Qed.


(* ------------------------------------------------------------------ *)
(** ** The reports *)

Lemma sample_populated : populated sample_users sample_posts sample_comments.
Proof.
  split.
  - repeat constructor; simpl; intuition discriminate.
  - repeat constructor; simpl; intuition discriminate.
  - intros cmt H. simpl in H.
    destruct H as [<-|[<-|[<-|[<-|[]]]]].
    + exists (user_of ("bob@example.com", "Bob") 2),
             (post_of ("Engines", "On engines", 1, 1) 1).
      simpl. intuition.
    + exists (user_of ("ada@example.com", "Ada") 1),
             (post_of ("Engines", "On engines", 1, 1) 1).
      simpl. intuition.
    + exists (user_of ("ada@example.com", "Ada") 1),
             (post_of ("Engines", "On engines", 1, 1) 1).
      simpl. intuition.
    + exists (user_of ("ada@example.com", "Ada") 3),
             (post_of ("Looms", "On looms", 2, 1) 2).
      simpl. intuition.
  - intros pst H. simpl in H. destruct H as [<-|[<-|[]]].
    + exists (user_of ("ada@example.com", "Ada") 1). simpl. intuition.
    + exists (user_of ("bob@example.com", "Bob") 2). simpl. intuition.
Qed.

(** The two reports on the sample store.  Ada is the login of the users 1
    and 3; the user 1 commented twice on the post 1, which has three
    comments. *)
Example comments_info_sample :
  get_user_comments_info "Ada" sample
  = (sample,
     Returned [("Ada", "Engines", Some "Ada", 3);
               ("Ada", "Engines", Some "Ada", 3);
               ("Ada", "Looms", Some "Bob", 1)]).
Proof. reflexivity. Qed.

Example actions_info_sample :
  get_user_actions_info sample_date "Ada" sample
  = (sample,
     Returned [(Some "1970-01-01", 1, 1, 0); (Some "1970-01-02", 1, 0, 1)]).
Proof. reflexivity. Qed.

(** A login that is the name of a column is not compared as a text. *)
Example comments_info_column_name :
  get_user_comments_info "login" sample = (sample, Misread).
Proof. reflexivity. Qed.

Lemma get_user_comments_info_bare (username : string) (s : store) :
  bare comments_scope username = true ->
  get_user_comments_info username s
  = (s, match comment s, users s, post s with
        | Some cmts, Some usrs, Some psts =>
            Returned (select_comments_info cmts usrs psts username)
        | _, _, _ => Raised OperationalError
        end).
Proof.
  intros H. unfold get_user_comments_info.
  now rewrite (dq_operand_bare comments_scope comments_tail username eq_refl H).
Qed.

Lemma get_user_actions_info_bare (date : timestamp -> option string)
    (username : string) (s : store) :
  bare actions_scope username = true ->
  get_user_actions_info date username s
  = (s, match logs s, users s with
        | Some lgs, Some usrs =>
            Returned (select_actions_info date lgs usrs username)
        | _, _ => Raised OperationalError
        end).
Proof.
  intros H. unfold get_user_actions_info.
  now rewrite (dq_operand_bare actions_scope actions_tail username eq_refl H).
Qed.

Lemma flat_map_nil {A B} (f : A -> list B) (l : list A) :
  (forall x, In x l -> f x = []) -> flat_map f l = [].
Proof.
  induction l as [|x l IH]; intros H; simpl; [reflexivity|].
  rewrite (H x (or_introl eq_refl)), IH; [reflexivity|].
  intros y Hy. apply H. now right.
Qed.

Section Keyed.

Context {A : Type} (key : A -> Z).

Lemma flat_map_key {B} (F : A -> list B) (l : list A) (x : A) :
  NoDup (map key l) -> In x l ->
  flat_map (fun y => if key x =? key y then F y else []) l = F x.
Proof.
  induction l as [|y l IH]; intros Hk Hx; [destruct Hx|].
  simpl in Hk. inversion Hk as [|? ? Hy Hk']; subst. simpl.
  destruct Hx as [->|Hx].
  - rewrite Z.eqb_refl. rewrite flat_map_nil; [apply app_nil_r|].
    intros z Hz. destruct (key x =? key z) eqn:E; [|reflexivity].
    apply Z.eqb_eq in E. exfalso. apply Hy. rewrite E. now apply in_map.
  - destruct (key x =? key y) eqn:E.
    + apply Z.eqb_eq in E. exfalso. apply Hy. rewrite <- E. now apply in_map.
    + simpl. now apply IH.
Qed.

Lemma existsb_key (P : A -> bool) (l : list A) (x : A) :
  NoDup (map key l) -> In x l ->
  existsb (fun y => (key x =? key y) && P y) l = P x.
Proof.
  induction l as [|y l IH]; intros Hk Hx; [destruct Hx|].
  simpl in Hk. inversion Hk as [|? ? Hy Hk']; subst. simpl.
  destruct Hx as [->|Hx].
  - rewrite Z.eqb_refl. simpl. destruct (P x); [reflexivity|]. simpl.
    apply not_true_is_false. intros H. apply existsb_exists in H.
    destruct H as (z & Hz & Hb). apply andb_true_iff in Hb.
    destruct Hb as [E _]. apply Z.eqb_eq in E. apply Hy. rewrite E.
    now apply in_map.
  - destruct (key x =? key y) eqn:E.
    + apply Z.eqb_eq in E. exfalso. apply Hy. rewrite <- E. now apply in_map.
    + simpl. now apply IH.
Qed.

Lemma filter_no_key (l : list A) (k : Z) :
  ~ In k (map key l) -> filter (fun y => key y =? k) l = [].
Proof.
  induction l as [|z l IH]; intros Hk; simpl; [reflexivity|].
  destruct (key z =? k) eqn:E.
  - apply Z.eqb_eq in E. exfalso. apply Hk. now left.
  - apply IH. intros H. apply Hk. now right.
Qed.

Lemma filter_key (l : list A) (x : A) :
  NoDup (map key l) -> In x l ->
  filter (fun y => key y =? key x) l = [x].
Proof.
  induction l as [|y l IH]; intros Hk Hx; [destruct Hx|].
  simpl in Hk. inversion Hk as [|? ? Hy Hk']; subst. simpl.
  destruct Hx as [->|Hx].
  - rewrite Z.eqb_refl. f_equal. now apply filter_no_key.
  - destruct (key y =? key x) eqn:E.
    + apply Z.eqb_eq in E. exfalso. apply Hy. rewrite E. now apply in_map.
    + now apply IH.
Qed.

End Keyed.

(** *** get_user_comments_info *)

Lemma comment_rows_attached (cmts : list comment_row) (usrs : list users_row)
    (psts : list post_row) (username : string) (cmt : comment_row)
    (a : users_row) (pst : post_row) :
  NoDup (map users_id usrs) -> NoDup (map post_id psts) ->
  In a usrs -> In pst psts ->
  comment_author_id cmt = Some (users_id a) ->
  comment_post_id cmt = Some (post_id pst) ->
  comment_rows cmts usrs psts username cmt
  = if String.eqb (users_login a) username
    then [(users_login a, post_header pst, author_login usrs pst,
           comments_count cmts cmt)]
    else [].
Proof.
  intros Hku Hkp Ha Hp Hca Hcp. unfold comment_rows. rewrite Hca, Hcp.
  cbn [sql_eq].
  pose proof (flat_map_key users_id
    (fun usr => flat_map (fun pst0 =>
       if (post_id pst =? post_id pst0) && String.eqb (users_login usr) username
       then [(users_login usr, post_header pst0, author_login usrs pst0,
              comments_count cmts cmt)]
       else []) psts) usrs a Hku Ha) as E.
  cbv beta in E. rewrite E. clear E.
  destruct (String.eqb (users_login a) username).
  - pose proof (flat_map_key post_id
      (fun pst0 => [(users_login a, post_header pst0, author_login usrs pst0,
                     comments_count cmts cmt)]) psts pst Hkp Hp) as E.
    cbv beta in E. rewrite <- E. apply flat_map_ext. intros pst0.
    now rewrite andb_true_r.
  - apply flat_map_nil. intros pst0 _. now rewrite andb_false_r.
Qed.

Lemma authored_by_attached (usrs : list users_row) (username : string)
    (cmt : comment_row) (a : users_row) :
  NoDup (map users_id usrs) -> In a usrs ->
  comment_author_id cmt = Some (users_id a) ->
  authored_by usrs username cmt = String.eqb (users_login a) username.
Proof.
  intros Hku Ha Hca. unfold authored_by. rewrite Hca. cbn [sql_eq].
  exact (existsb_key users_id (fun usr => String.eqb (users_login usr) username)
           usrs a Hku Ha).
Qed.

Lemma author_login_attached (usrs : list users_row) (pst : post_row)
    (a : users_row) :
  NoDup (map users_id usrs) -> In a usrs ->
  post_author_id pst = Some (users_id a) ->
  author_login usrs pst = Some (users_login a).
Proof.
  intros Hku Ha Hpa. unfold author_login. rewrite Hpa. cbn [sql_eq].
  now rewrite (filter_key users_id usrs a Hku Ha).
Qed.


Lemma comment_rows_joined (cmts : list comment_row) (usrs : list users_row)
    (psts : list post_row) (username : string) (cmt : comment_row)
    (row : comments_info) :
  In row (comment_rows cmts usrs psts username cmt) ->
  exists usr pst,
    In usr usrs /\ In pst psts
    /\ comment_author_id cmt = Some (users_id usr)
    /\ comment_post_id cmt = Some (post_id pst)
    /\ users_login usr = username.
Proof.
  unfold comment_rows. intros H. apply in_flat_map in H.
  destruct H as (usr & Hu & H).
  destruct (comment_author_id cmt) as [a|] eqn:Ea; [|destruct H].
  cbn [sql_eq] in H. destruct (a =? users_id usr) eqn:E; [|destruct H].
  apply Z.eqb_eq in E. apply in_flat_map in H. destruct H as (pst & Hp & H).
  destruct (comment_post_id cmt) as [p|] eqn:Ep; [|destruct H].
  cbn [sql_eq] in H. destruct (p =? post_id pst) eqn:E'; [|destruct H].
  apply Z.eqb_eq in E'.
  destruct (String.eqb (users_login usr) username) eqn:El; [|destruct H].
  apply String.eqb_eq in El. exists usr, pst. subst. now repeat split.
Qed.



(** [C1], as stated, fails at the login made of one double quote: the query
    text then ends in [usr.login ==] and three double quotes, a token that
    never closes, and the call raises instead of returning rows. *)
Lemma comments_info_raises_on_quote :
  populated sample_users sample_posts sample_comments
  /\ get_user_comments_info (String dquote EmptyString) sample
     = (sample, Raised OperationalError)
  /\ ~ (exists rows,
          get_user_comments_info (String dquote EmptyString) sample
          = (sample, Returned rows)
          /\ Forall2 (reported sample_users sample_posts sample_comments
                        (String dquote EmptyString))
               (filter (authored_by sample_users (String dquote EmptyString))
                       sample_comments) rows).
Proof.
  split; [exact sample_populated|]. split; [reflexivity|].
  intros (rows & H & _). discriminate H.
Qed.

(** [C1], amended: in every populated state, for every login that
    ["{username}"] hands over as that text (no double quote and no NUL in
    it, and not the name of a column or alias in reach of the [WHERE]),
    [get_user_comments_info] returns exactly one row for each comment row
    whose author has that login, in the order of the comments and without
    merging comments on the same post: the login, the header of the
    comment's post, the login of that post's author, and the number of all
    comment rows that reference that post, whoever wrote them. *)
Theorem comments_info_one_row_per_comment (s : store)
    (usrs : list users_row) (psts : list post_row) (cmts : list comment_row)
    (username : string) :
  users s = Some usrs -> post s = Some psts -> comment s = Some cmts ->
  populated usrs psts cmts ->
  bare comments_scope username = true ->
  exists rows,
    get_user_comments_info username s = (s, Returned rows)
    /\ Forall2 (reported usrs psts cmts username)
         (filter (authored_by usrs username) cmts) rows.
Proof.
  intros Hu Hp Hc [Hku Hkp Hca Hpa] Hbare.
  exists (select_comments_info cmts usrs psts username). split.
  - rewrite (get_user_comments_info_bare username s Hbare).
    now rewrite Hc, Hu, Hp.
  - unfold select_comments_info.
    assert (Hsub : forall l, (forall c, In c l -> In c cmts) ->
              Forall2 (reported usrs psts cmts username)
                (filter (authored_by usrs username) l)
                (flat_map (comment_rows cmts usrs psts username) l)).
    { induction l as [|c l IH]; intros Hl; simpl; [constructor|].
      destruct (Hca c (Hl c (or_introl eq_refl)))
        as (a & pst & Ha & Hauth & Hpst & Hpost).
      rewrite (comment_rows_attached cmts usrs psts username c a pst
                 Hku Hkp Ha Hpst Hauth Hpost).
      rewrite (authored_by_attached usrs username c a Hku Ha Hauth).
      assert (IH' := IH (fun c' Hc' => Hl c' (or_intror Hc'))).
      destruct (String.eqb (users_login a) username) eqn:El; [|exact IH'].
      simpl. constructor; [|exact IH'].
      destruct (Hpa pst Hpst) as (pa & Hpain & Hpaid).
      exists pst, pa. repeat split; try assumption.
      apply String.eqb_eq in El.
      rewrite El, (author_login_attached usrs pst pa Hku Hpain Hpaid).
      unfold comments_count, comments_on. now rewrite Hpost. }
    apply Hsub. auto.
Qed.

(** *** get_user_actions_info *)

Lemma user_id_of_first (usrs : list users_row) (username : string) :
  user_id_of usrs username = option_map users_id (first_user usrs username).
Proof.
  unfold user_id_of, first_user.
  induction usrs as [|u usrs IH]; simpl; [reflexivity|].
  destruct (String.eqb (users_login u) username); [reflexivity|exact IH].
Qed.

Lemma first_user_unknown (usrs : list users_row) (username : string) :
  (forall usr, In usr usrs -> users_login usr <> username) ->
  first_user usrs username = None.
Proof.
  intros H. unfold first_user.
  destruct (find _ usrs) as [u|] eqn:E; [|reflexivity].
  apply find_some in E. destruct E as [Hin Hl]. apply String.eqb_eq in Hl.
  now destruct (H u Hin).
Qed.

Lemma logs_of_nobody (lgs : list logs_row) : logs_of lgs None = [].
Proof.
  unfold logs_of. induction lgs as [|l lgs IH]; simpl; [reflexivity|].
  now destruct (logs_user_id l).
Qed.

Lemma key_eqb_eq (a b : option string) : key_eqb a b = true <-> a = b.
Proof.
  destruct a as [x|], b as [y|]; simpl; split; intros H;
    try discriminate; try reflexivity.
  - apply String.eqb_eq in H. now subst.
  - injection H as ->. apply String.eqb_refl.
Qed.

Lemma key_eqb_refl (a : option string) : key_eqb a a = true.
Proof. now apply key_eqb_eq. Qed.

Lemma distinct_in (keys : list (option string)) (k : option string) :
  In k (distinct keys) <-> In k keys.
Proof.
  induction keys as [|x keys IH]; simpl; [tauto|].
  rewrite filter_In, IH. split.
  - intros [H|[H _]]; auto.
  - intros [H|H]; [now left|].
    destruct (key_eqb x k) eqn:E.
    + left. now apply key_eqb_eq.
    + right. split; [exact H|reflexivity].
Qed.

Lemma distinct_nodup (keys : list (option string)) : NoDup (distinct keys).
Proof.
  induction keys as [|x keys IH]; simpl; constructor.
  - rewrite filter_In. intros [_ H]. now rewrite key_eqb_refl in H.
  - now apply NoDup_filter.
Qed.

Lemma insert_key_in (k x : option string) (keys : list (option string)) :
  In x (insert_key k keys) <-> x = k \/ In x keys.
Proof.
  induction keys as [|k' keys IH]; simpl; [intuition|].
  destruct (key_leb k k'); simpl; [intuition|].
  rewrite IH. intuition.
Qed.

Lemma sorted_keys_in (x : option string) (keys : list (option string)) :
  In x (sorted_keys keys) <-> In x keys.
Proof.
  induction keys as [|k keys IH]; simpl; [tauto|].
  rewrite insert_key_in, IH. intuition.
Qed.

Lemma insert_key_nodup (k : option string) (keys : list (option string)) :
  ~ In k keys -> NoDup keys -> NoDup (insert_key k keys).
Proof.
  induction keys as [|k' keys IH]; intros Hk Hkeys; simpl.
  - constructor; [exact Hk|constructor].
  - destruct (key_leb k k'); [now constructor|].
    inversion Hkeys as [|? ? Hk' Hkeys']; subst. constructor.
    + rewrite insert_key_in. intros [->|H]; [|contradiction].
      apply Hk. now left.
    + apply IH; [|exact Hkeys']. intros H. apply Hk. now right.
Qed.

Lemma sorted_keys_nodup (keys : list (option string)) :
  NoDup keys -> NoDup (sorted_keys keys).
Proof.
  induction 1 as [|k keys Hk _ IH]; simpl; [constructor|].
  apply insert_key_nodup; [|exact IH]. now rewrite sorted_keys_in.
Qed.

Lemma sum_app_map {A} (f g : A -> Z) (l : list A) :
  total (map (fun x => f x + g x) l) = total (map f l) + total (map g l).
Proof. induction l as [|x l IH]; simpl; lia. Qed.

Lemma sum_one_key (k : option string) (keys : list (option string)) :
  NoDup keys -> In k keys ->
  total (map (fun d => if key_eqb k d then 1 else 0) keys) = 1.
Proof.
  induction keys as [|x keys IH]; intros Hk Hin; [destruct Hin|].
  inversion Hk as [|? ? Hx Hk']; subst. simpl.
  assert (Hzero : forall l, ~ In k l ->
            total (map (fun d => if key_eqb k d then 1 else 0) l) = 0).
  { induction l as [|y l IHl]; intros Hy; simpl; [reflexivity|].
    destruct (key_eqb k y) eqn:E.
    - apply key_eqb_eq in E. exfalso. apply Hy. now left.
    - apply IHl. intros H. apply Hy. now right. }
  destruct Hin as [->|Hin].
  - rewrite key_eqb_refl, (Hzero keys Hx). reflexivity.
  - destruct (key_eqb k x) eqn:E.
    + apply key_eqb_eq in E. subst. contradiction.
    + now rewrite IH.
Qed.

(** Counting within each group and adding up is counting in the whole. *)
Lemma sum_over_dates (date : timestamp -> option string)
    (p : logs_row -> bool) (keys : list (option string)) :
  NoDup keys ->
  forall rows,
  (forall l, In l rows -> In (date (logs_datetime l)) keys) ->
  total (map (fun d => count_when p (on_date date d rows)) keys)
  = count_when p rows.
Proof.
  intros Hk. induction rows as [|l rows IH]; intros Hin.
  - unfold count_when, on_date. simpl. clear.
    induction keys as [|k keys IH]; simpl; [reflexivity|exact IH].
  - assert (E : forall d,
        count_when p (on_date date d (l :: rows))
        = (if key_eqb (date (logs_datetime l)) d then
             if p l then 1 else 0 else 0)
          + count_when p (on_date date d rows)).
    { intros d. unfold count_when, on_date. simpl.
      destruct (key_eqb (date (logs_datetime l)) d); simpl; [|reflexivity].
      destruct (p l); cbn [List.length]; lia. }
    rewrite (map_ext _ _ E), sum_app_map.
    rewrite IH by (intros l' Hl'; apply Hin; now right).
    unfold count_when at 2. simpl.
    destruct (p l).
    + rewrite (sum_one_key _ keys Hk (Hin l (or_introl eq_refl))).
      unfold count_when. cbn [List.length]. lia.
    + assert (Z0 : total (map (fun d => if key_eqb (date (logs_datetime l)) d
                                      then 0 else 0) keys) = 0).
      { clear. induction keys as [|k keys IH]; simpl; [reflexivity|].
        rewrite IH. now destruct (key_eqb _ k). }
      rewrite Z0. unfold count_when. lia.
Qed.

(** [C2], as stated, fails at the login made of one double quote: the
    token opened before it never closes and the call raises. *)
Lemma actions_info_raises_on_quote :
  get_user_actions_info sample_date (String dquote EmptyString) sample
  = (sample, Raised OperationalError)
  /\ ~ (exists rows,
          get_user_actions_info sample_date (String dquote EmptyString) sample
          = (sample, Returned rows)).
Proof.
  split; [reflexivity|]. intros (rows & H). discriminate H.
Qed.

(** [C2], amended: for every login that ["{username}"] hands over as that
    text (no double quote and no NUL in it, and not a name in reach of the
    inner [WHERE]), [get_user_actions_info] takes the id of the first users
    row with that login and returns one row for each date on which that id
    has log rows, and none for any other date: the date, the number of its
    log rows of that date with event type 1, the number with event type 5,
    and the number with a space type above 1.  The login and logout columns
    summed over the rows returned give the number of that id's log rows of
    event type 1 plus the number of event type 5.  The date of a row is what
    SQLite's [date()] makes of its [datetime]. *)
Theorem actions_info_by_date (date : timestamp -> option string) (s : store)
    (usrs : list users_row) (lgs : list logs_row) (username : string) :
  users s = Some usrs -> logs s = Some lgs ->
  bare actions_scope username = true ->
  let mine := logs_of lgs (option_map users_id (first_user usrs username)) in
  exists rows,
    get_user_actions_info date username s = (s, Returned rows)
    /\ NoDup (map row_date rows)
    /\ (forall d, In d (map row_date rows)
                  <-> exists l, In l mine /\ date (logs_datetime l) = d)
    /\ (forall r, In r rows ->
          row_logins r
          = count_when (is_event event_login) (on_date date (row_date r) mine)
          /\ row_logouts r
             = count_when (is_event event_logout)
                 (on_date date (row_date r) mine)
          /\ row_actions r
             = count_when (fun l => match logs_space_type_id l with
                                    | Some n => 1 <? n
                                    | None => false
                                    end)
                 (on_date date (row_date r) mine))
    /\ total (map (fun r => row_logins r + row_logouts r) rows)
       = count_when (is_event event_login) mine
         + count_when (is_event event_logout) mine.
Proof.
  intros Hu Hl Hbare mine.
  exists (select_actions_info date lgs usrs username).
  split.
  { rewrite (get_user_actions_info_bare date username s Hbare).
    now rewrite Hl, Hu. }
  unfold select_actions_info. rewrite user_id_of_first.
  fold (logs_of lgs (option_map users_id (first_user usrs username))).
  fold mine.
  set (keys := sorted_keys
                 (distinct (map (fun l => date (logs_datetime l)) mine))).
  assert (Hdates : forall f : option string -> actions_info,
            (forall d, row_date (f d) = d) -> map row_date (map f keys) = keys).
  { intros f Hf. rewrite map_map. rewrite <- (map_id keys) at 2.
    apply map_ext. exact Hf. }
  split; [|split; [|split]].
  - rewrite Hdates by reflexivity. apply sorted_keys_nodup, distinct_nodup.
  - intros d. rewrite Hdates by reflexivity. unfold keys.
    rewrite sorted_keys_in, distinct_in, in_map_iff.
    split; intros (l & H1 & H2); exists l; now split.
  - intros r Hr. apply in_map_iff in Hr. destruct Hr as (d & <- & _).
    repeat split.
  - rewrite map_map. unfold row_logins, row_logouts. cbn [fst snd].
    rewrite (sum_app_map
      (fun d => count_when (is_event 1)
                  (filter (fun l => key_eqb (date (logs_datetime l)) d) mine))
      (fun d => count_when (is_event 5)
                  (filter (fun l => key_eqb (date (logs_datetime l)) d) mine))).
    assert (Hcover : forall l, In l mine -> In (date (logs_datetime l)) keys).
    { intros l Hin. unfold keys. rewrite sorted_keys_in, distinct_in.
      exact (in_map (fun l => date (logs_datetime l)) mine l Hin). }
    pose proof (sum_over_dates date (is_event 1) keys
                  (sorted_keys_nodup _ (distinct_nodup _)) mine Hcover) as S1.
    pose proof (sum_over_dates date (is_event 5) keys
                  (sorted_keys_nodup _ (distinct_nodup _)) mine Hcover) as S5.
    unfold on_date in S1, S5. unfold event_login, event_logout.
    now rewrite S1, S5.
Qed.

(** [C7], as stated, fails at the login made of one double quote, which is
    the login of no user: both reports raise instead of returning no
    row. *)
Lemma unknown_login_raises_on_quote :
  first_user sample_users (String dquote EmptyString) = None
  /\ get_user_comments_info (String dquote EmptyString) sample
     = (sample, Raised OperationalError)
  /\ get_user_actions_info sample_date (String dquote EmptyString) sample
     = (sample, Raised OperationalError)
  /\ get_user_comments_info (String dquote EmptyString) sample
     <> (sample, Returned [])
  /\ get_user_actions_info sample_date (String dquote EmptyString) sample
     <> (sample, Returned []).
Proof. repeat split; discriminate. Qed.

(** [C7], amended: on a store that has its tables, for every login that
    ["{username}"] hands over as that text in both queries (no double quote
    and no NUL in it, and not a name in reach of either [WHERE]) and that
    no users row has, both reports return the empty list. *)
Theorem unknown_login_gives_no_rows (date : timestamp -> option string)
    (s : store) (usrs : list users_row) (psts : list post_row)
    (cmts : list comment_row) (lgs : list logs_row) (username : string) :
  users s = Some usrs -> post s = Some psts -> comment s = Some cmts ->
  logs s = Some lgs ->
  bare comments_scope username = true ->
  bare actions_scope username = true ->
  (forall usr, In usr usrs -> users_login usr <> username) ->
  get_user_comments_info username s = (s, Returned [])
  /\ get_user_actions_info date username s = (s, Returned []).
Proof.
  intros Hu Hp Hc Hl Hb1 Hb2 Hno. split.
  - rewrite (get_user_comments_info_bare username s Hb1), Hc, Hu, Hp.
    do 2 f_equal. unfold select_comments_info. apply flat_map_nil.
    intros cmt _.
    destruct (comment_rows cmts usrs psts username cmt) as [|row l] eqn:E;
      [reflexivity|].
    destruct (comment_rows_joined cmts usrs psts username cmt row)
      as (usr & pst & Hin & _ & _ & _ & Hlogin).
    + rewrite E. now left.
    + now destruct (Hno usr Hin).
  - rewrite (get_user_actions_info_bare date username s Hb2), Hl, Hu.
    do 2 f_equal. unfold select_actions_info.
    rewrite user_id_of_first, (first_user_unknown usrs username Hno).
    simpl option_map. fold (logs_of lgs None). now rewrite logs_of_nobody.
Qed.

(* ------------------------------------------------------------------ *)
(** ** The statements at work on the sample store *)

Lemma comments_info_one_row_per_comment_witness :
  exists rows,
    get_user_comments_info "Ada" sample = (sample, Returned rows)
    /\ Forall2 (reported sample_users sample_posts sample_comments "Ada")
         (filter (authored_by sample_users "Ada") sample_comments) rows.
Proof.
  apply (comments_info_one_row_per_comment sample sample_users sample_posts
           sample_comments "Ada");
    [reflexivity|reflexivity|reflexivity|exact sample_populated|reflexivity].
Defined.


Lemma actions_info_by_date_witness :
  exists rows,
    get_user_actions_info sample_date "Ada" sample = (sample, Returned rows)
    /\ NoDup (map row_date rows)
    /\ (forall d, In d (map row_date rows)
                  <-> exists l, In l (logs_of sample_logs (Some 1))
                                /\ sample_date (logs_datetime l) = d)
    /\ (forall r, In r rows ->
          row_logins r
          = count_when (is_event event_login)
              (on_date sample_date (row_date r) (logs_of sample_logs (Some 1)))
          /\ row_logouts r
             = count_when (is_event event_logout)
                 (on_date sample_date (row_date r)
                    (logs_of sample_logs (Some 1)))
          /\ row_actions r
             = count_when (fun l => match logs_space_type_id l with
                                    | Some n => 1 <? n
                                    | None => false
                                    end)
                 (on_date sample_date (row_date r)
                    (logs_of sample_logs (Some 1))))
    /\ total (map (fun r => row_logins r + row_logouts r) rows)
       = count_when (is_event event_login) (logs_of sample_logs (Some 1))
         + count_when (is_event event_logout) (logs_of sample_logs (Some 1)).
Proof.
  apply (actions_info_by_date sample_date sample sample_users sample_logs "Ada");
    reflexivity.
Defined.

Lemma unknown_login_gives_no_rows_witness :
  get_user_comments_info "Charles" sample = (sample, Returned [])
  /\ get_user_actions_info sample_date "Charles" sample = (sample, Returned []).
Proof.
  apply (unknown_login_gives_no_rows sample_date sample sample_users
           sample_posts sample_comments sample_logs "Charles");
    try reflexivity.
  intros usr H. simpl in H.
  destruct H as [<-|[<-|[<-|[]]]]; discriminate.
Defined.

Lemma sample_clock_in_range (starts ends : bound) :
  offset starts <= offset ends -> in_range sample_clock starts ends.
Proof. unfold in_range, sample_clock. cbn [now date_time_between]. lia. Qed.

Lemma login_logout_per_user_witness :
  exists new out,
    fill_logs_login_logout all_modules true (fun _ => sample_clock) sample
    = (set logging_logs (Some (sample_logs ++ new)) sample, out)
    /\ (sample_users <> [] -> out = Returned tt)
    /\ map logs_user_id new = map (fun u => Some (users_id u)) sample_users
    /\ forall l, In l new ->
         logs_space_type_id l = Some space_global
         /\ logs_event_type_id l = Some event_login
         /\ exists i : nat,
              now sample_clock - 5 * day <= logs_datetime l <= now sample_clock.
Proof.
  apply (proj1 (login_logout_per_user all_modules sample sample_users
                  sample_logs eq_refl eq_refl) true (fun _ => sample_clock)).
  intros _ _. apply sample_clock_in_range. simpl. lia.
Defined.

Lemma fill_blogs_owners_witness :
  exists new : list blog_row,
    fill_blogs all_modules 2 sample_blog_draw sample
    = (set main_blog
         (Some ([blog_of (1, "Notes", "On machines") 1] ++ new)) sample,
       Returned tt)
    /\ List.length new = Z.to_nat 2
    /\ map blog_owner_id new
       = map (fun i => Some (nth (owner_word (sample_blog_draw i)
                                  mod List.length sample_users)
                                 (map users_id sample_users) 0))
             (range 2)
    /\ forall b, In b new ->
         exists u, In u sample_users /\ blog_owner_id b = Some (users_id u).
Proof.
  apply (proj1 (fill_blogs_owners all_modules 2 sample_blog_draw sample
                  sample_users [blog_of (1, "Notes", "On machines") 1]
                  ltac:(lia) eq_refl ltac:(discriminate) eq_refl
                  (fun _ _ _ => conj eq_refl eq_refl))).
Defined.

Lemma fill_posts_logs_witness :
  exists (new_posts : list post_row) (new_logs : list logs_row),
    fill_posts all_modules 2 sample_post_draw sample
    = (set logging_logs (Some (sample_logs ++ new_logs))
         (set main_post (Some (sample_posts ++ new_posts)) sample),
       Returned tt)
    /\ map post_author_id new_posts = [Some 1; Some 2]
    /\ map log_entry new_logs
       = [(998 * day, Some 1, Some space_blog, Some event_create_post);
          (998 * day, Some 2, Some space_blog, Some event_create_post);
          (1001 * day, Some 2, Some space_blog, Some event_delete_post)].
Proof.
  destruct (fill_posts_logs all_modules 2 sample_post_draw sample sample_users
              [blog_of (1, "Notes", "On machines") 1] sample_posts sample_logs
              ltac:(lia) eq_refl ltac:(discriminate) eq_refl
              ltac:(discriminate) eq_refl eq_refl
              (fun _ _ _ => conj eq_refl eq_refl)
              (fun _ _ =>
                 conj (sample_clock_in_range (days (-2)) now_ ltac:(simpl; lia))
                      (sample_clock_in_range (days 1) (days 4)
                         ltac:(simpl; lia))))
    as (new_posts & new_logs & E & A & L & _).
  exists new_posts, new_logs. split; [exact E|]. split; [exact A|exact L].
Defined.

(* ================================================================== *)
(** * Beyond the stated properties

    The rest of [database.py], [converter.py] and the run of [main.py]. *)

Import converter connection program.

(* ------------------------------------------------------------------ *)
(** ** create_tables on any store *)

(** [X1] [create_tables] on any store: it returns only on two new files, and
    then leaves [created]; on any other store it raises
    [sqlite3.OperationalError].  Either way it leaves every table that was
    there as it was, and a table is there afterwards exactly when it was
    there before or all the tables up to it in the script were missing: the
    script is not all-or-nothing. *)
Theorem create_tables_outcome (s : store) :
  let s' := fst (create_tables s) in
  kept s s'
  /\ ((snd (create_tables s) = Returned tt /\ s = fresh /\ s' = created)
      \/ (snd (create_tables s) = Raised OperationalError /\ s <> fresh))
  /\ exists_ main_users s' = true
  /\ exists_ main_blog s'
     = exists_ main_blog s || negb (exists_ main_users s)
  /\ exists_ main_post s'
     = exists_ main_post s
       || negb (exists_ main_users s || exists_ main_blog s)
  /\ exists_ main_comment s'
     = exists_ main_comment s
       || negb (exists_ main_users s || exists_ main_blog s
                || exists_ main_post s)
  /\ exists_ logging_event_type s'
     = exists_ logging_event_type s
       || negb (exists_ main_users s || exists_ main_blog s
                || exists_ main_post s || exists_ main_comment s)
  /\ exists_ logging_space_type s'
     = exists_ logging_space_type s
       || negb (exists_ main_users s || exists_ main_blog s
                || exists_ main_post s || exists_ main_comment s
                || exists_ logging_event_type s)
  /\ exists_ logging_logs s'
     = exists_ logging_logs s
       || negb (exists_ main_users s || exists_ main_blog s
                || exists_ main_post s || exists_ main_comment s
                || exists_ logging_event_type s
                || exists_ logging_space_type s).
Proof.
  destruct s as [[u|] [b|] [p|] [c|] [e|] [sp|] [l|]];
    (split; [unfold kept; simpl; repeat split; intros H; try reflexivity;
             now contradiction H
            |split; [first [right; split; [reflexivity|discriminate]
                           |left; repeat split]
                    |repeat split]]).
Qed.

(* ------------------------------------------------------------------ *)
(** ** What the fill operations leave in place *)

Lemma same_refl {R} (t : table R) (s : store) : same t s s.
Proof. reflexivity. Qed.

Lemma same_trans {R} (t : table R) (a b c : store) :
  same t a b -> same t b c -> same t a c.
Proof. unfold same. congruence. Qed.

Lemma grows_refl {R} (t : table R) (s : store) : grows t s s.
Proof.
  unfold grows. destruct (get t s) as [rows|] eqn:E; [|reflexivity].
  exists []. now rewrite app_nil_r.
Qed.

Lemma grows_trans {R} (t : table R) (a b c : store) :
  grows t a b -> grows t b c -> grows t a c.
Proof.
  unfold grows. destruct (get t a) as [rows|].
  - intros (n1 & ->) (n2 & ->). exists (n1 ++ n2). now rewrite app_assoc.
  - intros ->. auto.
Qed.

Section Frame.

Variable P : store -> store -> Prop.
Hypothesis P_refl : forall s, P s s.
Hypothesis P_trans : forall a b c, P a b -> P b c -> P a c.

Lemma bind_frame {A B} (m : M A) (f : A -> M B) :
  (forall s, P s (fst (m s))) -> (forall a s, P s (fst (f a s))) ->
  forall s, P s (fst (bind m f s)).
Proof.
  intros Hm Hf s. unfold bind. specialize (Hm s).
  destruct (m s) as [s1 [a|e|]]; simpl in *; try assumption.
  exact (P_trans _ _ _ Hm (Hf a s1)).
Qed.

Lemma get_all_ids_frame {R} (t : table R) (s : store) :
  P s (fst (__get_all_ids__ t s)).
Proof. unfold __get_all_ids__. destruct (get t s); apply P_refl. Qed.

Lemma execute_insert_frame {V R} (t : table R) (read : V -> outcome (Z -> R))
    (values : list V) :
  (forall s rows new, get t s = Some rows -> P s (set t (Some (rows ++ new)) s)) ->
  forall s, P s (fst (execute_insert t read values s)).
Proof.
  intros Hset s. unfold execute_insert. destruct values as [|v values].
  - apply P_refl.
  - unfold bind, pure. destruct (comprehension read (v :: values)) as [new|e|];
      simpl; try apply P_refl.
    unfold insert. destruct (get t s) as [rows|] eqn:E; simpl;
      [|apply P_refl].
    rewrite append_rows_added. now apply Hset.
Qed.

Lemma when_frame (count : option Z) (fill : Z -> M unit) :
  (forall n s, P s (fst (fill n s))) ->
  forall s, P s (fst (main.when count fill s)).
Proof.
  intros H s. unfold main.when. destruct count as [n|]; [|apply P_refl].
  destruct (n =? 0); [apply P_refl|apply H].
Qed.

End Frame.

Ltac frame_set :=
  let H := fresh in
  intros ? ? ? H;
  first [ reflexivity
        | unfold grows; simpl; simpl in H; rewrite H; eexists; reflexivity
        | unfold grows; simpl;
          match goal with
          | |- match ?x with _ => _ end =>
              destruct x; [exists []; now rewrite app_nil_r|reflexivity]
          end ].

(** Proves [P s (fst (call s))] for a call made of binds, id reads and
    inserts, [P] being [same t] or [grows t] for a table [t] given by
    name. *)
Ltac frame_with P P_refl P_trans :=
  intros;
  repeat first
    [ apply (bind_frame P P_trans); intros; cbv beta
    | apply (get_all_ids_frame P P_refl)
    | apply (execute_insert_frame P P_refl); frame_set
    | apply (when_frame P P_refl); intros; cbv beta
    | apply P_refl ].

Ltac same_frame t := frame_with (same t) (same_refl t) (same_trans t).
Ltac grows_frame t := frame_with (grows t) (grows_refl t) (grows_trans t).

Lemma fill_logs_login_logout_adds (m : modules) (is_login : bool)
    (draw : nat -> clock) (s : store) :
  let s' := fst (fill_logs_login_logout m is_login draw s) in
  grows logging_logs s s'
  /\ same main_users s s' /\ same main_blog s s' /\ same main_post s s'
  /\ same main_comment s s'
  /\ same logging_event_type s s' /\ same logging_space_type s s'.
Proof.
  unfold fill_logs_login_logout. cbv zeta.
  split; [grows_frame logging_logs|].
  split; [same_frame main_users|]. split; [same_frame main_blog|].
  split; [same_frame main_post|]. split; [same_frame main_comment|].
  split; [same_frame logging_event_type|same_frame logging_space_type].
Qed.

Lemma fill_users_adds (m : modules) (count : Z) (names : nat -> string)
    (s : store) :
  let s' := fst (fill_users m count names s) in
  grows main_users s s'
  /\ same main_blog s s' /\ same main_post s s' /\ same main_comment s s'
  /\ same logging_logs s s'
  /\ same logging_event_type s s' /\ same logging_space_type s s'.
Proof.
  unfold fill_users. cbv zeta.
  split; [grows_frame main_users|].
  split; [same_frame main_blog|]. split; [same_frame main_post|].
  split; [same_frame main_comment|]. split; [same_frame logging_logs|].
  split; [same_frame logging_event_type|same_frame logging_space_type].
Qed.

Lemma fill_blogs_adds (m : modules) (count : Z) (draw : nat -> blog_draw)
    (s : store) :
  let s' := fst (fill_blogs m count draw s) in
  grows main_blog s s'
  /\ same main_users s s' /\ same main_post s s' /\ same main_comment s s'
  /\ same logging_logs s s'
  /\ same logging_event_type s s' /\ same logging_space_type s s'.
Proof.
  unfold fill_blogs, pure. cbv zeta.
  split; [grows_frame main_blog|].
  split; [same_frame main_users|]. split; [same_frame main_post|].
  split; [same_frame main_comment|]. split; [same_frame logging_logs|].
  split; [same_frame logging_event_type|same_frame logging_space_type].
Qed.

Lemma fill_posts_adds (m : modules) (count : Z) (draw : nat -> post_draw)
    (s : store) :
  let s' := fst (fill_posts m count draw s) in
  grows main_post s s' /\ grows logging_logs s s'
  /\ same main_users s s' /\ same main_blog s s' /\ same main_comment s s'
  /\ same logging_event_type s s' /\ same logging_space_type s s'.
Proof.
  unfold fill_posts, pure. cbv zeta.
  split; [grows_frame main_post|]. split; [grows_frame logging_logs|].
  split; [same_frame main_users|]. split; [same_frame main_blog|].
  split; [same_frame main_comment|].
  split; [same_frame logging_event_type|same_frame logging_space_type].
Qed.

Lemma fill_comments_adds (m : modules) (count : Z) (draw : nat -> comment_draw)
    (s : store) :
  let s' := fst (fill_comments m count draw s) in
  grows main_comment s s' /\ grows logging_logs s s'
  /\ same main_users s s' /\ same main_blog s s' /\ same main_post s s'
  /\ same logging_event_type s s' /\ same logging_space_type s s'.
Proof.
  unfold fill_comments, pure. cbv zeta.
  split; [grows_frame main_comment|]. split; [grows_frame logging_logs|].
  split; [same_frame main_users|]. split; [same_frame main_blog|].
  split; [same_frame main_post|].
  split; [same_frame logging_event_type|same_frame logging_space_type].
Qed.

(** [X2] No fill operation changes or removes a row that is there, whether
    it returns or raises, as long as its statements are read as they were
    written and no id it gives out is above 2^63 - 1: the table it fills
    keeps its rows as they are and in their order, new rows coming after
    them, and every other table is left as it is.  [fill_users] touches only users, [fill_blogs] only blog,
    [fill_posts] only post and logs, [fill_comments] only comment and logs,
    [fill_logs_login_logout] only logs; none touches the two lookup
    tables. *)
Theorem fills_only_add (m : modules) (s : store) :
  (forall count names,
     snd (fill_users m count names s) <> Misread ->
     within_rowids (fst (fill_users m count names s)) = true ->
     let s' := fst (fill_users m count names s) in
     grows main_users s s'
     /\ same main_blog s s' /\ same main_post s s' /\ same main_comment s s'
     /\ same logging_logs s s'
     /\ same logging_event_type s s' /\ same logging_space_type s s')
  /\ (forall count draw,
        snd (fill_blogs m count draw s) <> Misread ->
        within_rowids (fst (fill_blogs m count draw s)) = true ->
        let s' := fst (fill_blogs m count draw s) in
        grows main_blog s s'
        /\ same main_users s s' /\ same main_post s s'
        /\ same main_comment s s' /\ same logging_logs s s'
        /\ same logging_event_type s s' /\ same logging_space_type s s')
  /\ (forall count draw,
        snd (fill_posts m count draw s) <> Misread ->
        within_rowids (fst (fill_posts m count draw s)) = true ->
        let s' := fst (fill_posts m count draw s) in
        grows main_post s s' /\ grows logging_logs s s'
        /\ same main_users s s' /\ same main_blog s s'
        /\ same main_comment s s'
        /\ same logging_event_type s s' /\ same logging_space_type s s')
  /\ (forall count draw,
        snd (fill_comments m count draw s) <> Misread ->
        within_rowids (fst (fill_comments m count draw s)) = true ->
        let s' := fst (fill_comments m count draw s) in
        grows main_comment s s' /\ grows logging_logs s s'
        /\ same main_users s s' /\ same main_blog s s' /\ same main_post s s'
        /\ same logging_event_type s s' /\ same logging_space_type s s')
  /\ (forall is_login draw,
        snd (fill_logs_login_logout m is_login draw s) <> Misread ->
        within_rowids (fst (fill_logs_login_logout m is_login draw s)) = true ->
        let s' := fst (fill_logs_login_logout m is_login draw s) in
        grows logging_logs s s'
        /\ same main_users s s' /\ same main_blog s s' /\ same main_post s s'
        /\ same main_comment s s'
        /\ same logging_event_type s s' /\ same logging_space_type s s').
Proof.
  split; [intros count names _ _; apply fill_users_adds|].
  split; [intros count draw _ _; apply fill_blogs_adds|].
  split; [intros count draw _ _; apply fill_posts_adds|].
  split; [intros count draw _ _; apply fill_comments_adds|].
  intros is_login draw _ _. apply fill_logs_login_logout_adds.
Qed.

(* ------------------------------------------------------------------ *)
(** ** fill_comments *)

Lemma read_comment_clean (text : string) (user_id post : Z) :
  clean text = true ->
  read_comment (text, user_id, post) = Returned (comment_of (text, user_id, post)).
Proof.
  intros H. unfold read_comment. now rewrite (quoted_value_clean text H).
Qed.

Lemma post_ids_nonempty (psts : list post_row) :
  psts <> [] -> map post_id psts <> [].
Proof. destruct psts; [contradiction|discriminate]. Qed.

Lemma fill_comments_effect (m : modules) (count : Z)
    (draw : nat -> comment_draw) (s : store) (usrs : list users_row)
    (psts : list post_row) (cmts : list comment_row) (lgs : list logs_row) :
  1 <= count ->
  users s = Some usrs -> usrs <> [] ->
  post s = Some psts -> psts <> [] ->
  comment s = Some cmts -> logs s = Some lgs ->
  (is_lorem m = true -> forall i, (i < Z.to_nat count)%nat ->
     clean (comment_paragraph (draw i)) = true) ->
  exists (new_comments : list comment_row) (new_logs : list logs_row),
    fill_comments m count draw s
    = (set logging_logs (Some (lgs ++ new_logs))
         (set main_comment (Some (cmts ++ new_comments)) s), Returned tt)
    /\ map (fun c => (comment_author_id c, comment_post_id c)) new_comments
       = map (fun i =>
                (Some (chosen (commenter_word (draw i)) (map users_id usrs)),
                 Some (chosen (post_word (draw i)) (map post_id psts))))
             (range count)
    /\ map log_entry new_logs
       = map (fun i =>
                (get_random_date m now_ (days 1) (commented (draw i)),
                 Some (chosen (logged_word (draw i)) (map users_id usrs)),
                 Some space_post, Some event_comment))
             (range count).
Proof.
  intros Hc Hu Hune Hp Hpne Hcm Hl Htext.
  set (ids := map users_id usrs). set (pids := map post_id psts).
  set (g := fun i : nat =>
    ((get_description m (comment_paragraph (draw i)),
      chosen (commenter_word (draw i)) ids, chosen (post_word (draw i)) pids),
     ((get_random_date m now_ (days 1) (commented (draw i)),
       chosen (logged_word (draw i)) ids, 3, 2) : log_value))).
  set (rounds := map g (range count)).
  exists (added comment_id cmts (map comment_of (map fst rounds))),
         (added logs_id lgs (map log_of (map snd rounds))).
  assert (Hne : range count <> []) by now apply range_positive.
  split; [|split].
  - unfold fill_comments, bind, __get_all_ids__, pure. simpl get.
    rewrite Hu, Hp. fold ids pids.
    rewrite (comprehension_total _ g).
    + cbv beta iota. fold rounds.
      rewrite (execute_insert_rows main_comment read_comment comment_of
                 (map fst rounds) s cmts).
      * apply (execute_insert_rows logging_logs read_log log_of).
        -- unfold rounds. destruct (range count); [contradiction|discriminate].
        -- intros v _. apply read_log_total.
        -- exact Hl.
      * unfold rounds. destruct (range count); [contradiction|discriminate].
      * intros v Hv. unfold rounds in Hv. rewrite map_map in Hv.
        apply in_map_iff in Hv. destruct Hv as (i & <- & Hi).
        apply in_range_below in Hi. unfold g. cbn [fst].
        apply read_comment_clean, get_description_clean.
        intros H. now apply (Htext H i Hi).
      * exact Hcm.
    + intros i _. unfold comment_round.
      rewrite (choice_chosen _ ids (users_ids_nonempty usrs Hune)).
      cbn [obind].
      rewrite (choice_chosen _ pids (post_ids_nonempty psts Hpne)).
      cbn [obind].
      now rewrite (choice_chosen _ ids (users_ids_nonempty usrs Hune)).
  - rewrite (added_entries comment_id comment_of
               (fun c => (comment_author_id c, comment_post_id c))
               (fun v => (Some (snd (fst v)), Some (snd v)))).
    + unfold rounds. now rewrite !map_map.
    + now intros [[text user_id] pid] i.
  - rewrite (added_entries logs_id log_of log_entry some_entry log_of_entry).
    unfold rounds. now rewrite !map_map.
Qed.

(** [X3] [fill_comments(count)], when there are users and posts to draw from,
    appends [count] comments, each by one of the users on one of the posts,
    and [count] log rows of event type comment in the space type post, at a
    time between the clock reading and one day after it.  The user of the
    log row is drawn anew: it is the user at the place of a third random
    index, not the author of the comment. *)
Theorem fill_comments_logs (m : modules) (count : Z)
    (draw : nat -> comment_draw) (s : store) (usrs : list users_row)
    (psts : list post_row) (cmts : list comment_row) (lgs : list logs_row) :
  1 <= count ->
  users s = Some usrs -> usrs <> [] ->
  post s = Some psts -> psts <> [] ->
  comment s = Some cmts -> logs s = Some lgs ->
  (is_lorem m = true -> forall i, (i < Z.to_nat count)%nat ->
     clean (comment_paragraph (draw i)) = true) ->
  (is_faker m = true -> forall i, in_range (commented (draw i)) now_ (days 1)) ->
  exists (new_comments : list comment_row) (new_logs : list logs_row),
    fill_comments m count draw s
    = (set logging_logs (Some (lgs ++ new_logs))
         (set main_comment (Some (cmts ++ new_comments)) s), Returned tt)
    /\ List.length new_comments = Z.to_nat count
    /\ List.length new_logs = Z.to_nat count
    /\ (forall c, In c new_comments ->
          exists u p, In u usrs /\ In p psts
            /\ comment_author_id c = Some (users_id u)
            /\ comment_post_id c = Some (post_id p))
    /\ map comment_author_id new_comments
       = map (fun i => Some (nth (commenter_word (draw i) mod List.length usrs)
                                 (map users_id usrs) 0)) (range count)
    /\ map logs_user_id new_logs
       = map (fun i => Some (nth (logged_word (draw i) mod List.length usrs)
                                 (map users_id usrs) 0)) (range count)
    /\ (forall l, In l new_logs ->
          logs_space_type_id l = Some space_post
          /\ logs_event_type_id l = Some event_comment
          /\ exists i, now (commented (draw i)) <= logs_datetime l
                       <= now (commented (draw i)) + 1 * day).
Proof.
  intros Hc Hu Hune Hp Hpne Hcm Hl Htext Htime.
  destruct (fill_comments_effect m count draw s usrs psts cmts lgs
              Hc Hu Hune Hp Hpne Hcm Hl Htext) as (nc & nl & E & C & L).
  exists nc, nl. split; [exact E|].
  assert (Hchosen : forall w, chosen w (map users_id usrs)
                    = nth (w mod List.length usrs) (map users_id usrs) 0).
  { intros w. unfold chosen. now rewrite length_map. }
  split; [|split; [|split; [|split; [|split]]]].
  - rewrite <- (length_map (fun c => (comment_author_id c, comment_post_id c))),
      C, length_map. apply range_length.
  - rewrite <- (length_map log_entry), L, length_map. apply range_length.
  - intros c Hin.
    apply (in_map (fun c => (comment_author_id c, comment_post_id c))) in Hin.
    rewrite C in Hin. apply in_map_iff in Hin. destruct Hin as (i & Hi & _).
    injection Hi as Ha Hpo.
    pose proof (chosen_in (commenter_word (draw i)) _
                  (users_ids_nonempty usrs Hune)) as Hin1.
    pose proof (chosen_in (post_word (draw i)) _
                  (post_ids_nonempty psts Hpne)) as Hin2.
    apply in_map_iff in Hin1. destruct Hin1 as (u & Hu1 & Hu2).
    apply in_map_iff in Hin2. destruct Hin2 as (p & Hp1 & Hp2).
    exists u, p. repeat split; try assumption; congruence.
  - transitivity (map fst (map (fun c => (comment_author_id c, comment_post_id c)) nc)).
    { now rewrite map_map. }
    rewrite C, map_map. apply map_ext. intros i. cbn [fst]. now rewrite Hchosen.
  - transitivity (map (fun e : timestamp * option Z * option Z * option Z =>
                         snd (fst (fst e))) (map log_entry nl)).
    { now rewrite map_map. }
    rewrite L, map_map. apply map_ext. intros i. cbn [fst snd].
    now rewrite Hchosen.
  - intros l Hin. apply (in_map log_entry) in Hin. rewrite L in Hin.
    apply in_map_iff in Hin. destruct Hin as (i & Hi & _).
    unfold log_entry in Hi. injection Hi as Hd _ Hs He.
    split; [now rewrite <- Hs|]. split; [now rewrite <- He|].
    exists i. rewrite <- Hd.
    pose proof (get_random_date_in_range m now_ (days 1) (commented (draw i))
                  (fun H => Htime H i)) as Hr.
    simpl in Hr. unfold day in *. lia.
Qed.

(* ------------------------------------------------------------------ *)
(** ** What a fill operation that returns has done *)

Lemma read_blog_returned (owner : Z) (name description : string)
    (f : Z -> blog_row) :
  read_blog (owner, name, description) = Returned f ->
  forall i, blog_id (f i) = i /\ blog_owner_id (f i) = Some owner.
Proof.
  unfold read_blog.
  destruct (quoted_value name); try discriminate.
  destruct (quoted_value description); try discriminate.
  simpl. intros H. injection H as <-. now split.
Qed.

Lemma read_post_blog (header text : string) (user_id blog : Z)
    (f : Z -> post_row) :
  read_post (header, text, user_id, blog) = Returned f ->
  forall i, post_blog_id (f i) = Some blog.
Proof.
  unfold read_post.
  destruct (quoted_value header); try discriminate.
  destruct (quoted_value text); try discriminate.
  simpl. intros H. injection H as <-. reflexivity.
Qed.

Lemma read_comment_id (text : string) (user_id post : Z) (f : Z -> comment_row) :
  read_comment (text, user_id, post) = Returned f ->
  forall i, comment_id (f i) = i.
Proof.
  unfold read_comment. destruct (quoted_value text); try discriminate.
  simpl. intros H. injection H as <-. reflexivity.
Qed.

Lemma read_log_returned (v : log_value) (f : Z -> logs_row) :
  read_log v = Returned f -> f = log_of v.
Proof. rewrite read_log_total. intros H. now injection H. Qed.

Lemma post_round_logged (m : modules) (user_ids blog_ids : list Z)
    (d : post_draw) (header text : string) (user_id blog : Z)
    (evs : list log_value) :
  post_round m user_ids blog_ids d = Returned ((header, text, user_id, blog), evs) ->
  In blog blog_ids
  /\ forall ev, In ev evs ->
       exists t, ev = (t, user_id, 2, 3) \/ ev = (t, user_id, 2, 4).
Proof.
  unfold post_round.
  destruct (choice (author_word d) user_ids) as [u| |]; try discriminate.
  destruct (choice (blog_word d) blog_ids) as [b| |] eqn:Eb; try discriminate.
  simpl. intros H. injection H as _ _ <- <- <-.
  split; [exact (choice_returned _ _ _ Eb)|].
  intros ev [<-|Hev]; [eexists; now left|].
  destruct (die d =? 1); [|destruct Hev].
  destruct Hev as [<-|[]]. eexists. now right.
Qed.

Lemma comment_round_logged (m : modules) (user_ids post_ids : list Z)
    (d : comment_draw) (v : string * Z * Z) (ev : log_value) :
  comment_round m user_ids post_ids d = Returned (v, ev) ->
  exists t u, In u user_ids /\ ev = (t, u, 3, 2).
Proof.
  unfold comment_round.
  destruct (choice (commenter_word d) user_ids) as [u| |]; try discriminate.
  destruct (choice (post_word d) post_ids) as [p| |]; try discriminate.
  destruct (choice (logged_word d) user_ids) as [l| |] eqn:El; try discriminate.
  simpl. intros H. injection H as _ <-.
  eexists. exists l. split; [exact (choice_returned _ _ _ El)|reflexivity].
Qed.

Lemma post_rounds_logged (m : modules) (user_ids blog_ids : list Z)
    (draw : nat -> post_draw) (l : list nat)
    (rounds : list ((string * string * Z * Z) * list log_value)) :
  Forall2 (fun i r => post_round m user_ids blog_ids (draw i) = Returned r)
    l rounds ->
  (List.length rounds <= List.length (List.concat (map snd rounds))
   <= 2 * List.length rounds)%nat.
Proof.
  induction 1 as [|i r l rounds Hr _ IH]; [simpl; lia|].
  cbn [map List.concat List.length]. rewrite length_app.
  assert (1 <= List.length (snd r) <= 2)%nat; [|lia].
  unfold post_round in Hr.
  destruct (choice (author_word (draw i)) user_ids); try discriminate.
  destruct (choice (blog_word (draw i)) blog_ids); try discriminate.
  simpl in Hr. injection Hr as <-. cbn [snd List.length].
  destruct (die (draw i) =? 1); simpl; lia.
Qed.

Lemma fill_users_returned (m : modules) (count : Z) (names : nat -> string)
    (s s' : store) :
  fill_users m count names s = (s', Returned tt) ->
  exists usrs new,
    users s = Some usrs
    /\ s' = set main_users (Some (usrs ++ added users_id usrs new)) s
    /\ new <> []
    /\ List.length new = Z.to_nat count
    /\ forall f, In f new -> forall i, users_id (f i) = i.
Proof.
  unfold fill_users. intros H.
  assert (Hlen : List.length
            (combine (map email_of (map (fun i => get_name m (names i))
                                        (range count)))
                     (map (fun i => get_name m (names i)) (range count)))
          = Z.to_nat count).
  { now rewrite length_combine, !length_map, range_length, Nat.min_id. }
  destruct (combine _ _) as [|v values] eqn:Ev; [discriminate H|].
  apply execute_insert_returned in H.
  destruct H as (rows & new & Hget & Hread & ->).
  exists rows, new. split; [exact Hget|]. split; [reflexivity|].
  split; [inversion Hread; discriminate|].
  split; [now rewrite <- (Forall2_length Hread)|].
  intros f Hf. destruct (Forall2_right _ _ _ Hread f Hf) as (x & _ & Hx).
  now apply (read_user_returned x).
Qed.

Lemma fill_blogs_returned (m : modules) (count : Z) (draw : nat -> blog_draw)
    (s s' : store) :
  fill_blogs m count draw s = (s', Returned tt) ->
  exists usrs blgs new,
    users s = Some usrs /\ blog s = Some blgs
    /\ s' = set main_blog (Some (blgs ++ added blog_id blgs new)) s
    /\ List.length new = Z.to_nat count
    /\ forall f, In f new -> forall i,
         blog_id (f i) = i
         /\ exists u, In u usrs /\ blog_owner_id (f i) = Some (users_id u).
Proof.
  unfold fill_blogs. intros H.
  apply bind_returned in H. destruct H as (s1 & ids & H1 & H).
  apply get_all_ids_returned in H1. destruct H1 as (-> & usrs & Hu & ->).
  apply bind_returned in H. destruct H as (s1 & values & H1 & H).
  apply pure_returned in H1. destruct H1 as [-> Hvalues].
  apply comprehension_returned in Hvalues.
  apply execute_insert_returned in H.
  destruct H as (blgs & new & Hget & Hread & ->).
  exists usrs, blgs, new. repeat (split; [first [reflexivity|assumption]|]).
  split.
  { pose proof (Forall2_length Hread) as L1.
    pose proof (Forall2_length Hvalues) as L2. rewrite range_length in L2.
    lia. }
  intros f Hf i. destruct (Forall2_right _ _ _ Hread f Hf) as (v & Hv & Hrv).
  destruct (Forall2_right _ _ _ Hvalues v Hv) as (j & _ & Hj).
  destruct v as [[owner name] description].
  destruct (read_blog_returned _ _ _ _ Hrv i) as [Hid Hown].
  split; [exact Hid|].
  destruct (choice (owner_word (draw j)) (map (rowid main_users) usrs))
    as [o| |] eqn:Eo; try discriminate Hj.
  simpl in Hj. injection Hj as <- _ _.
  apply choice_returned in Eo. apply in_map_iff in Eo.
  destruct Eo as (u & Hu1 & Hu2). exists u. split; [exact Hu2|].
  now rewrite Hown, <- Hu1.
Qed.

Lemma fill_logs_login_logout_returned (m : modules) (is_login : bool)
    (draw : nat -> clock) (s s' : store) :
  fill_logs_login_logout m is_login draw s = (s', Returned tt) ->
  exists usrs lgs new,
    users s = Some usrs /\ logs s = Some lgs
    /\ s' = set logging_logs (Some (lgs ++ added logs_id lgs new)) s
    /\ List.length new = List.length usrs
    /\ forall g, In g new -> forall i,
         logs_id (g i) = i
         /\ (exists u, In u usrs /\ logs_user_id (g i) = Some (users_id u))
         /\ logs_space_type_id (g i) = Some space_global
         /\ (logs_event_type_id (g i) = Some event_login
             \/ logs_event_type_id (g i) = Some event_logout).
Proof.
  unfold fill_logs_login_logout. intros H.
  apply bind_returned in H. destruct H as (s1 & ids & H1 & H).
  apply get_all_ids_returned in H1. destruct H1 as (-> & usrs & Hu & ->).
  apply execute_insert_returned in H.
  destruct H as (lgs & new & Hget & Hread & ->).
  exists usrs, lgs, new. repeat (split; [first [reflexivity|assumption]|]).
  split.
  { pose proof (Forall2_length Hread) as L1.
    rewrite length_map, length_combine, length_seq, Nat.min_id, length_map
      in L1. lia. }
  intros g Hg i. destruct (Forall2_right _ _ _ Hread g Hg) as (v & Hv & Hrv).
  apply read_log_returned in Hrv. subst g.
  apply in_map_iff in Hv. destruct Hv as ([j uid] & <- & Hin).
  apply in_combine_r in Hin. apply in_map_iff in Hin.
  destruct Hin as (u & Hu1 & Hu2). simpl in Hu1. simpl.
  split; [reflexivity|]. split; [exists u; split; [exact Hu2|now rewrite Hu1]|].
  split; [reflexivity|]. destruct is_login; [now left|now right].
Qed.

Lemma fill_posts_returned (m : modules) (count : Z) (draw : nat -> post_draw)
    (s s' : store) :
  fill_posts m count draw s = (s', Returned tt) ->
  exists usrs blgs psts lgs new lnew,
    users s = Some usrs /\ blog s = Some blgs /\ post s = Some psts
    /\ logs s = Some lgs
    /\ s' = set logging_logs (Some (lgs ++ added logs_id lgs lnew))
              (set main_post (Some (psts ++ added post_id psts new)) s)
    /\ (List.length new = Z.to_nat count
        /\ Z.to_nat count <= List.length lnew <= 2 * Z.to_nat count)%nat
    /\ (forall f, In f new -> forall i,
          post_id (f i) = i
          /\ (exists u, In u usrs /\ post_author_id (f i) = Some (users_id u))
          /\ exists b, In b blgs /\ post_blog_id (f i) = Some (blog_id b))
    /\ forall g, In g lnew -> forall i,
         logs_id (g i) = i
         /\ (exists u, In u usrs /\ logs_user_id (g i) = Some (users_id u))
         /\ logs_space_type_id (g i) = Some space_blog
         /\ (logs_event_type_id (g i) = Some event_create_post
             \/ logs_event_type_id (g i) = Some event_delete_post).
Proof.
  unfold fill_posts. intros H.
  apply bind_returned in H. destruct H as (s1 & ids & H1 & H).
  apply get_all_ids_returned in H1. destruct H1 as (-> & usrs & Hu & ->).
  apply bind_returned in H. destruct H as (s1 & bids & H1 & H).
  apply get_all_ids_returned in H1. destruct H1 as (-> & blgs & Hb & ->).
  apply bind_returned in H. destruct H as (s1 & rounds & H1 & H).
  apply pure_returned in H1. destruct H1 as [-> Hrounds].
  apply comprehension_returned in Hrounds.
  apply bind_returned in H. destruct H as (s1 & [] & H1 & H).
  apply execute_insert_returned in H1.
  destruct H1 as (psts & new & Hget & Hread & ->).
  apply execute_insert_returned in H.
  destruct H as (lgs & lnew & Hlget & Hlread & ->).
  exists usrs, blgs, psts, lgs, new, lnew.
  repeat (split; [first [reflexivity|assumption]|]).
  split.
  { pose proof (Forall2_length Hread) as L1. rewrite length_map in L1.
    pose proof (Forall2_length Hlread) as L2.
    pose proof (Forall2_length Hrounds) as L3. rewrite range_length in L3.
    pose proof (post_rounds_logged m _ _ draw _ _ Hrounds) as L4. lia. }
  split.
  - intros f Hf i. destruct (Forall2_right _ _ _ Hread f Hf) as (v & Hv & Hrv).
    apply in_map_iff in Hv. destruct Hv as ([v' evs] & <- & Hin).
    destruct (Forall2_right _ _ _ Hrounds _ Hin) as (j & _ & Hj).
    destruct v' as [[[header text] user_id] bid]. cbn [fst] in Hrv.
    destruct (read_post_returned _ _ _ _ _ Hrv i) as [Hid Hauthor].
    pose proof (read_post_blog _ _ _ _ _ Hrv i) as Hblog.
    pose proof (post_round_returned _ _ _ _ _ _ _ _ _ Hj) as Hu1.
    destruct (post_round_logged _ _ _ _ _ _ _ _ _ Hj) as [Hb1 _].
    apply in_map_iff in Hu1. destruct Hu1 as (u & Hu2 & Hu3).
    apply in_map_iff in Hb1. destruct Hb1 as (b & Hb2 & Hb3).
    split; [exact Hid|]. split.
    + exists u. split; [exact Hu3|]. now rewrite Hauthor, <- Hu2.
    + exists b. split; [exact Hb3|]. now rewrite Hblog, <- Hb2.
  - intros g Hg i. destruct (Forall2_right _ _ _ Hlread g Hg) as (v & Hv & Hrv).
    apply read_log_returned in Hrv. subst g.
    apply in_concat in Hv. destruct Hv as (evs & Hevs & Hv).
    apply in_map_iff in Hevs. destruct Hevs as ([v' evs'] & <- & Hin).
    destruct (Forall2_right _ _ _ Hrounds _ Hin) as (j & _ & Hj).
    destruct v' as [[[header text] user_id] bid].
    pose proof (post_round_returned _ _ _ _ _ _ _ _ _ Hj) as Hu1.
    destruct (post_round_logged _ _ _ _ _ _ _ _ _ Hj) as [_ Hev].
    apply in_map_iff in Hu1. destruct Hu1 as (u & Hu2 & Hu3).
    destruct (Hev v Hv) as (t & [->| ->]); simpl;
      (split; [reflexivity|];
       split; [exists u; split; [exact Hu3|now rewrite <- Hu2]|];
       split; [reflexivity|]); [now left|now right].
Qed.

Lemma fill_comments_returned (m : modules) (count : Z)
    (draw : nat -> comment_draw) (s s' : store) :
  fill_comments m count draw s = (s', Returned tt) ->
  exists usrs psts cmts lgs new lnew,
    users s = Some usrs /\ post s = Some psts /\ comment s = Some cmts
    /\ logs s = Some lgs
    /\ s' = set logging_logs (Some (lgs ++ added logs_id lgs lnew))
              (set main_comment (Some (cmts ++ added comment_id cmts new)) s)
    /\ (List.length new = Z.to_nat count
        /\ List.length lnew = Z.to_nat count)
    /\ (forall f, In f new -> forall i,
          comment_id (f i) = i
          /\ (exists u, In u usrs
                /\ comment_author_id (f i) = Some (users_id u))
          /\ exists p, In p psts /\ comment_post_id (f i) = Some (post_id p))
    /\ forall g, In g lnew -> forall i,
         logs_id (g i) = i
         /\ (exists u, In u usrs /\ logs_user_id (g i) = Some (users_id u))
         /\ logs_space_type_id (g i) = Some space_post
         /\ logs_event_type_id (g i) = Some event_comment.
Proof.
  unfold fill_comments. intros H.
  apply bind_returned in H. destruct H as (s1 & ids & H1 & H).
  apply get_all_ids_returned in H1. destruct H1 as (-> & usrs & Hu & ->).
  apply bind_returned in H. destruct H as (s1 & pids & H1 & H).
  apply get_all_ids_returned in H1. destruct H1 as (-> & psts & Hp & ->).
  apply bind_returned in H. destruct H as (s1 & rounds & H1 & H).
  apply pure_returned in H1. destruct H1 as [-> Hrounds].
  apply comprehension_returned in Hrounds.
  apply bind_returned in H. destruct H as (s1 & [] & H1 & H).
  apply execute_insert_returned in H1.
  destruct H1 as (cmts & new & Hget & Hread & ->).
  apply execute_insert_returned in H.
  destruct H as (lgs & lnew & Hlget & Hlread & ->).
  exists usrs, psts, cmts, lgs, new, lnew.
  repeat (split; [first [reflexivity|assumption]|]).
  split.
  { pose proof (Forall2_length Hread) as L1. rewrite length_map in L1.
    pose proof (Forall2_length Hlread) as L2. rewrite length_map in L2.
    pose proof (Forall2_length Hrounds) as L3. rewrite range_length in L3.
    lia. }
  split.
  - intros f Hf i. destruct (Forall2_right _ _ _ Hread f Hf) as (v & Hv & Hrv).
    apply in_map_iff in Hv. destruct Hv as ([v' ev] & <- & Hin).
    destruct (Forall2_right _ _ _ Hrounds _ Hin) as (j & _ & Hj).
    destruct v' as [[text user_id] pid]. cbn [fst] in Hrv.
    destruct (read_comment_returned _ _ _ _ Hrv i) as [Ha Hpo].
    pose proof (read_comment_id _ _ _ _ Hrv i) as Hid.
    destruct (comment_round_returned _ _ _ _ _ _ _ _ Hj) as [Hu1 Hp1].
    apply in_map_iff in Hu1. destruct Hu1 as (u & Hu2 & Hu3).
    apply in_map_iff in Hp1. destruct Hp1 as (p & Hp2 & Hp3).
    split; [exact Hid|]. split.
    + exists u. split; [exact Hu3|]. now rewrite Ha, <- Hu2.
    + exists p. split; [exact Hp3|]. now rewrite Hpo, <- Hp2.
  - intros g Hg i. destruct (Forall2_right _ _ _ Hlread g Hg) as (v & Hv & Hrv).
    apply read_log_returned in Hrv. subst g.
    apply in_map_iff in Hv. destruct Hv as ([v' ev] & <- & Hin).
    destruct (Forall2_right _ _ _ Hrounds _ Hin) as (j & _ & Hj).
    destruct (comment_round_logged _ _ _ _ _ _ Hj) as (t & uid & Hu1 & ->).
    apply in_map_iff in Hu1. destruct Hu1 as (u & Hu2 & Hu3). simpl.
    split; [reflexivity|].
    split; [exists u; split; [exact Hu3|now rewrite <- Hu2]|].
    now split.
Qed.

(* ------------------------------------------------------------------ *)
(** ** Ids count up from 1, and references point to rows that are there *)

Lemma max_of_seq (k a : nat) (b : Z) :
  fold_right Z.max b (map Z.of_nat (seq a (S k))) = Z.max b (Z.of_nat (a + k)).
Proof.
  revert a. induction k as [|k IH]; intros a.
  - cbn [seq map fold_right]. lia.
  - change (seq a (S (S k))) with (a :: seq (S a) (S k)).
    cbn [map fold_right]. rewrite IH. lia.
Qed.

Lemma numbered_S (n : nat) : numbered (S n) = numbered n ++ [Z.of_nat (S n)].
Proof. unfold numbered. now rewrite seq_S, map_app. Qed.

Lemma next_id_numbered {R} (id : R -> Z) (rows : list R) :
  map id rows = numbered (List.length rows) ->
  next_id id rows = Z.of_nat (S (List.length rows)).
Proof.
  unfold next_id. intros ->. destruct (List.length rows) as [|[|k]].
  - reflexivity.
  - reflexivity.
  - unfold numbered. change (seq 1 (S (S k))) with (1%nat :: seq 2 (S k)).
    cbn [map]. rewrite max_of_seq. lia.
Qed.

Lemma added_numbered {R} (id : R -> Z) (new : list (Z -> R)) :
  (forall f, In f new -> forall i, id (f i) = i) ->
  forall rows,
  map id rows = numbered (List.length rows) ->
  map id (rows ++ added id rows new)
  = numbered (List.length (rows ++ added id rows new)).
Proof.
  induction new as [|f new IH]; intros Hid rows Hrows.
  - cbn [added]. now rewrite app_nil_r.
  - cbn [added].
    change (f (next_id id rows) :: added id (rows ++ [f (next_id id rows)]) new)
      with ([f (next_id id rows)]
              ++ added id (rows ++ [f (next_id id rows)]) new).
    rewrite app_assoc. apply IH; [intros g Hg; apply Hid; now right|].
    rewrite map_app, length_app. cbn [map List.length].
    rewrite (Hid f (or_introl eq_refl)), (next_id_numbered id rows Hrows), Hrows.
    replace (List.length rows + 1)%nat with (S (List.length rows)) by lia.
    now rewrite numbered_S.
Qed.

Lemma added_all {R} (id : R -> Z) (P : R -> Prop) (rows : list R)
    (new : list (Z -> R)) :
  (forall r, In r rows -> P r) ->
  (forall f, In f new -> forall i, P (f i)) ->
  forall r, In r (rows ++ added id rows new) -> P r.
Proof.
  intros Hrows Hnew r Hr. apply in_app_iff in Hr. destruct Hr as [Hr|Hr].
  - now apply Hrows.
  - apply added_from in Hr. destruct Hr as (f & i & Hf & ->). now apply Hnew.
Qed.

Lemma sound_created : sound created.
Proof.
  split; try reflexivity.
  - exists []. now split.
  - exists [], []. repeat (split; [reflexivity|]). intros ? [].
  - exists [], []. repeat (split; [reflexivity|]). intros ? [].
  - exists []. now split.
  - exists [], []. repeat (split; [reflexivity|]). intros ? [].
Qed.

Ltac same_table H H' := rewrite H in H'; injection H' as <-.

Lemma fill_users_sound m count names s s' :
  sound s -> fill_users m count names s = (s', Returned tt) -> sound s'.
Proof.
  intros [He Hs (usrs & Hu & Hnu) (usrs1 & blgs & Hu1 & Hb & Hnb & Hbo)
          Hp Hc (usrs2 & lgs & Hu2 & Hl & Hnl & Hlu)] H.
  same_table Hu Hu1. same_table Hu Hu2.
  apply fill_users_returned in H.
  destruct H as (usrs' & new & Hu' & -> & _ & _ & Hid). same_table Hu Hu'.
  split; try assumption.
  - exists (usrs ++ added users_id usrs new). split; [reflexivity|].
    now apply added_numbered.
  - exists (usrs ++ added users_id usrs new), blgs.
    repeat (split; [first [reflexivity|assumption]|]).
    intros b Hin. destruct (Hbo b Hin) as (u & Hu1 & Hu2). exists u.
    split; [apply in_app_iff; now left|exact Hu2].
  - exists (usrs ++ added users_id usrs new), lgs.
    repeat (split; [first [reflexivity|assumption]|]).
    intros l Hin. destruct (Hlu l Hin) as ((u & Hu1 & Hu2) & Hpair).
    split; [|exact Hpair]. exists u.
    split; [apply in_app_iff; now left|exact Hu2].
Qed.

Lemma fill_blogs_sound m count draw s s' :
  sound s -> fill_blogs m count draw s = (s', Returned tt) -> sound s'.
Proof.
  intros [He Hs Hu (usrs & blgs & Hu1 & Hb & Hnb & Hbo)
          (blgs1 & psts & Hb1 & Hp & Hnp & Hpb) Hc Hl] H.
  same_table Hb Hb1.
  apply fill_blogs_returned in H.
  destruct H as (usrs' & blgs' & new & Hu' & Hb' & -> & _ & Hnew).
  same_table Hu1 Hu'. same_table Hb Hb'.
  split; try assumption.
  - exists usrs, (blgs ++ added blog_id blgs new).
    repeat (split; [first [reflexivity|assumption]|]). split.
    + apply added_numbered; [|exact Hnb]. intros f Hf i. apply (Hnew f Hf i).
    + apply added_all; [exact Hbo|]. intros f Hf i. apply (Hnew f Hf i).
  - exists (blgs ++ added blog_id blgs new), psts.
    repeat (split; [first [reflexivity|assumption]|]).
    intros p Hin. destruct (Hpb p Hin) as (b & Hb1 & Hb2). exists b.
    split; [apply in_app_iff; now left|exact Hb2].
Qed.

Lemma logged_pair (l : logs_row) (sp ev : Z) :
  In (sp, ev) logged_pairs ->
  logs_space_type_id l = Some sp -> logs_event_type_id l = Some ev ->
  exists sp ev, In (sp, ev) logged_pairs
    /\ logs_space_type_id l = Some sp /\ logs_event_type_id l = Some ev.
Proof. intros Hin Hsp Hev. exists sp, ev. now repeat split. Qed.

Lemma fill_logs_login_logout_sound m is_login draw s s' :
  sound s -> fill_logs_login_logout m is_login draw s = (s', Returned tt) ->
  sound s'.
Proof.
  intros [He Hs Hu Hb Hp Hc (usrs & lgs & Hu1 & Hl & Hnl & Hlu)] H.
  apply fill_logs_login_logout_returned in H.
  destruct H as (usrs' & lgs' & new & Hu' & Hl' & -> & _ & Hnew).
  same_table Hu1 Hu'. same_table Hl Hl'.
  split; try assumption.
  exists usrs, (lgs ++ added logs_id lgs new).
  repeat (split; [first [reflexivity|assumption]|]). split.
  - apply added_numbered; [|exact Hnl]. intros f Hf i. apply (Hnew f Hf i).
  - apply added_all; [exact Hlu|]. intros g Hg i.
    destruct (Hnew g Hg i) as (_ & Huser & Hsp & Hev).
    split; [exact Huser|].
    destruct Hev as [Hev|Hev];
      refine (logged_pair _ _ _ _ Hsp Hev); simpl; tauto.
Qed.

Lemma fill_posts_sound m count draw s s' :
  sound s -> fill_posts m count draw s = (s', Returned tt) -> sound s'.
Proof.
  intros [He Hs Hu (usrs0 & blgs0 & Hu0 & Hb0 & Hb)
          (blgs & psts & Hb1 & Hp & Hnp & Hpb) Hc
          (usrs & lgs & Hu1 & Hl & Hnl & Hlu)] H.
  apply fill_posts_returned in H.
  destruct H as (usrs' & blgs' & psts' & lgs' & new & lnew
                 & Hu' & Hb' & Hp' & Hl' & -> & _ & Hnew & Hlnew).
  same_table Hu1 Hu'. same_table Hb1 Hb'. same_table Hp Hp'.
  same_table Hl Hl'.
  split; try assumption.
  - exists usrs0, blgs0. now repeat split.
  - exists blgs, (psts ++ added post_id psts new).
    repeat (split; [first [reflexivity|assumption]|]). split.
    + apply added_numbered; [|exact Hnp]. intros f Hf i. apply (Hnew f Hf i).
    + apply added_all; [exact Hpb|]. intros f Hf i. apply (Hnew f Hf i).
  - exists usrs, (lgs ++ added logs_id lgs lnew).
    repeat (split; [first [reflexivity|assumption]|]). split.
    + apply added_numbered; [|exact Hnl]. intros f Hf i. apply (Hlnew f Hf i).
    + apply added_all; [exact Hlu|]. intros g Hg i.
      destruct (Hlnew g Hg i) as (_ & Huser & Hsp & Hev).
      split; [exact Huser|].
      destruct Hev as [Hev|Hev];
        refine (logged_pair _ _ _ _ Hsp Hev); simpl; tauto.
Qed.

Lemma fill_comments_sound m count draw s s' :
  sound s -> fill_comments m count draw s = (s', Returned tt) -> sound s'.
Proof.
  intros [He Hs Hu Hb (blgs & psts & Hb1 & Hp & Hpb)
          (cmts & Hc & Hnc) (usrs & lgs & Hu1 & Hl & Hnl & Hlu)] H.
  apply fill_comments_returned in H.
  destruct H as (usrs' & psts' & cmts' & lgs' & new & lnew
                 & Hu' & Hp' & Hc' & Hl' & -> & _ & Hnew & Hlnew).
  same_table Hu1 Hu'. same_table Hp Hp'. same_table Hc Hc'.
  same_table Hl Hl'.
  split; try assumption.
  - exists blgs, psts. now repeat split.
  - exists (cmts ++ added comment_id cmts new). split; [reflexivity|].
    apply added_numbered; [|exact Hnc]. intros f Hf i. apply (Hnew f Hf i).
  - exists usrs, (lgs ++ added logs_id lgs lnew).
    repeat (split; [first [reflexivity|assumption]|]). split.
    + apply added_numbered; [|exact Hnl]. intros f Hf i. apply (Hlnew f Hf i).
    + apply added_all; [exact Hlu|]. intros g Hg i.
      destruct (Hlnew g Hg i) as (_ & Huser & Hsp & Hev).
      split; [exact Huser|].
      refine (logged_pair _ _ _ _ Hsp Hev); simpl; tauto.
Qed.

Lemma filled_is_sound (s : store) : filled s -> sound s.
Proof.
  induction 1 as [|m count names s s' _ IH H|m count draw s s' _ IH H
                  |m count draw s s' _ IH H|m count draw s s' _ IH H
                  |m is_login draw s s' _ IH H].
  - exact sound_created.
  - exact (fill_users_sound _ _ _ _ _ IH H).
  - exact (fill_blogs_sound _ _ _ _ _ IH H).
  - exact (fill_posts_sound _ _ _ _ _ IH H).
  - exact (fill_comments_sound _ _ _ _ _ IH H).
  - exact (fill_logs_login_logout_sound _ _ _ _ _ IH H).
Qed.

(** [X4] Whatever sequence of fill operations has returned since the tables
    were made, in the store they leave ids are keys, every comment has an
    author among the users and a post among the posts, and every post has an
    author among the users. *)
Theorem fills_keep_populated (s : store) : filled s -> consistent s.
Proof.
  induction 1 as [|m count names s s' _ IH H|m count draw s s' _ IH H
                  |m count draw s s' _ IH H|m count draw s s' _ IH H
                  |m is_login draw s s' _ IH H].
  - exact consistent_created.
  - exact (fill_users_consistent _ _ _ _ _ IH H).
  - exact (fill_blogs_consistent _ _ _ _ _ IH H).
  - exact (fill_posts_consistent _ _ _ _ _ IH H).
  - exact (fill_comments_consistent _ _ _ _ _ IH H).
  - exact (fill_logs_login_logout_consistent _ _ _ _ _ IH H).
Qed.

(** [X5] Whatever sequence of fill operations has returned since the tables
    were made, in the store they leave the two lookup tables hold the seeded
    rows, the ids of users, blogs, posts, comments and log rows are
    1, 2, ..., n in the order of the rows, every blog has an owner among the
    users, every post a blog among the blogs, and every log row a user among
    the users and one of the five pairs of space type and event type the
    engine writes. *)
Theorem fills_keep_sound (s : store) : filled s -> sound s.
Proof.
  induction 1 as [|m count names s s' _ IH H|m count draw s s' _ IH H
                  |m count draw s s' _ IH H|m count draw s s' _ IH H
                  |m is_login draw s s' _ IH H].
  - exact sound_created.
  - exact (fill_users_sound _ _ _ _ _ IH H).
  - exact (fill_blogs_sound _ _ _ _ _ IH H).
  - exact (fill_posts_sound _ _ _ _ _ IH H).
  - exact (fill_comments_sound _ _ _ _ _ IH H).
  - exact (fill_logs_login_logout_sound _ _ _ _ _ IH H).
Qed.

(* ------------------------------------------------------------------ *)
(** ** The reports on the stores the fill engine reaches *)

Lemma filled_one_user : filled one_user.
Proof.
  apply (filled_users all_modules 1 (fun _ => "Ada") created);
    [exact filled_created|reflexivity].
Qed.

Lemma filled_logged_in : filled logged_in.
Proof.
  apply (filled_logs all_modules true (fun _ => sample_clock) one_user);
    [exact filled_one_user|reflexivity].
Qed.

Lemma filled_grown : filled grown.
Proof.
  apply (filled_logs all_modules true (fun _ => sample_clock) grown_comments);
    [|reflexivity].
  apply (filled_comments all_modules 2 sample_comment_draw grown_posts);
    [|reflexivity].
  apply (filled_posts all_modules 2 sample_post_draw grown_blogs);
    [|reflexivity].
  apply (filled_blogs all_modules 1 sample_blog_draw grown_users);
    [|reflexivity].
  apply (filled_users all_modules 2 (main.faker_names sample_world) created);
    [exact filled_created|reflexivity].
Qed.

Lemma logged_pair_counted (l : logs_row) :
  (exists sp ev, In (sp, ev) logged_pairs
     /\ logs_space_type_id l = Some sp /\ logs_event_type_id l = Some ev) ->
  (if is_event 1 l then 1 else 0) + (if is_event 5 l then 1 else 0)
  + (if is_action l then 1 else 0) = 1.
Proof.
  intros (sp & ev & Hin & Hsp & Hev). unfold is_event, is_action.
  rewrite Hsp, Hev. simpl in Hin.
  destruct Hin as [E|[E|[E|[E|[E|[]]]]]]; injection E as <- <-; reflexivity.
Qed.

Lemma counts_partition (group : list logs_row) :
  (forall l, In l group ->
     exists sp ev, In (sp, ev) logged_pairs
       /\ logs_space_type_id l = Some sp /\ logs_event_type_id l = Some ev) ->
  count_when (is_event 1) group + count_when (is_event 5) group
  + count_when is_action group
  = Z.of_nat (List.length group).
Proof.
  unfold count_when. induction group as [|l group IH]; intros H; [reflexivity|].
  specialize (IH (fun l' Hl' => H l' (or_intror Hl'))).
  pose proof (logged_pair_counted l (H l (or_introl eq_refl))) as Hl.
  cbn [filter].
  destruct (is_event 1 l), (is_event 5 l), (is_action l);
    cbn [List.length] in *; lia.
Qed.

Lemma key_leb_total (a b : option string) :
  key_leb a b = true \/ key_leb b a = true.
Proof.
  destruct a as [x|], b as [y|]; simpl; auto. apply String.leb_total.
Qed.

Lemma insert_key_sorted (k : option string) (keys : list (option string)) :
  Sorted (fun a b => key_leb a b = true) keys ->
  Sorted (fun a b => key_leb a b = true) (insert_key k keys).
Proof.
  induction 1 as [|k' keys Hs IH Hhd]; simpl.
  - constructor; constructor.
  - destruct (key_leb k k') eqn:E.
    + constructor; [now constructor|now constructor].
    + constructor; [exact IH|].
      assert (Hk : key_leb k' k = true).
      { destruct (key_leb_total k k') as [H|H]; [congruence|exact H]. }
      destruct keys as [|k'' keys]; simpl; [now constructor|].
      destruct (key_leb k k''); constructor; [exact Hk|].
      now inversion Hhd.
Qed.

Lemma sorted_keys_sorted (keys : list (option string)) :
  Sorted (fun a b => key_leb a b = true) (sorted_keys keys).
Proof.
  induction keys as [|k keys IH]; simpl; [constructor|].
  now apply insert_key_sorted.
Qed.

Lemma actions_info_partition (date : timestamp -> option string)
    (usrs : list users_row) (lgs : list logs_row) (text : string) :
  (forall l, In l lgs ->
     exists sp ev, In (sp, ev) logged_pairs
       /\ logs_space_type_id l = Some sp /\ logs_event_type_id l = Some ev) ->
  let mine := logs_of lgs (user_id_of usrs text) in
  let rows := select_actions_info date lgs usrs text in
  (forall r, In r rows ->
     row_logins r + row_logouts r + row_actions r
     = Z.of_nat (List.length (on_date date (row_date r) mine))
     /\ 1 <= row_logins r + row_logouts r + row_actions r)
  /\ total (map (fun r => row_logins r + row_logouts r + row_actions r) rows)
     = Z.of_nat (List.length mine).
Proof.
  intros Hpairs mine rows.
  assert (Hmine : forall l, In l mine ->
            exists sp ev, In (sp, ev) logged_pairs
              /\ logs_space_type_id l = Some sp
              /\ logs_event_type_id l = Some ev).
  { intros l Hl. apply filter_In in Hl. now apply Hpairs. }
  split.
  - intros r Hr. unfold rows, select_actions_info in Hr.
    apply in_map_iff in Hr. destruct Hr as (d & <- & Hd).
    unfold row_logins, row_logouts, row_actions, row_date. cbn [fst snd].
    fold (logs_of lgs (user_id_of usrs text)). fold mine.
    fold (on_date date d mine).
    assert (E : count_when (is_event 1) (on_date date d mine)
                + count_when (is_event 5) (on_date date d mine)
                + count_when is_action (on_date date d mine)
                = Z.of_nat (List.length (on_date date d mine))).
    { apply counts_partition. intros l Hl. apply filter_In in Hl.
      now apply Hmine. }
    split; [exact E|]. rewrite E.
    apply sorted_keys_in, distinct_in, in_map_iff in Hd.
    destruct Hd as (l & Hl & Hin).
    assert (Hg : In l (on_date date d mine)).
    { apply filter_In. split; [exact Hin|]. now apply key_eqb_eq. }
    destruct (on_date date d mine); [destruct Hg|]. cbn [List.length]. lia.
  - unfold rows, select_actions_info.
    fold (logs_of lgs (user_id_of usrs text)). fold mine.
    rewrite map_map.
    unfold row_logins, row_logouts, row_actions. cbn [fst snd].
    change (fun d => count_when (is_event 1)
                       (filter (fun l => key_eqb (date (logs_datetime l)) d) mine)
                     + count_when (is_event 5)
                         (filter (fun l => key_eqb (date (logs_datetime l)) d)
                            mine)
                     + count_when is_action
                         (filter (fun l => key_eqb (date (logs_datetime l)) d)
                            mine))
      with (fun d => (fun d => count_when (is_event 1) (on_date date d mine)
                               + count_when (is_event 5) (on_date date d mine)) d
                     + (fun d => count_when is_action (on_date date d mine)) d).
    rewrite sum_app_map, sum_app_map.
    assert (Hkeys : forall l, In l mine ->
              In (date (logs_datetime l))
                 (sorted_keys
                    (distinct (map (fun l => date (logs_datetime l)) mine)))).
    { intros l Hl. apply sorted_keys_in, distinct_in, in_map_iff.
      now exists l. }
    rewrite !(sum_over_dates date _ _
                (sorted_keys_nodup _ (distinct_nodup _)) mine Hkeys).
    now apply counts_partition.
Qed.

Lemma scan_doubled (tail : string) :
  match tail with
  | String c _ => Ascii.eqb c dquote = false
  | EmptyString => True
  end ->
  forall s,
  scan_quoted dquote (doubled s ++ String dquote tail)%string = Closed s tail.
Proof.
  intros Htail s. induction s as [|c s IH].
  - cbn [doubled String.append scan_quoted]. rewrite Ascii.eqb_refl.
    destruct tail as [|c' tail']; [reflexivity|]. now rewrite Htail.
  - cbn [doubled]. destruct (Ascii.eqb c dquote) eqn:E.
    + apply Ascii.eqb_eq in E. subst c.
      cbn [String.append scan_quoted]. rewrite Ascii.eqb_refl, IH.
      reflexivity.
    + cbn [String.append scan_quoted]. rewrite E, IH. reflexivity.
Qed.

Lemma doubled_contains (c : ascii) (s : string) :
  contains c (doubled s) = contains c s.
Proof.
  induction s as [|x s IH]; [reflexivity|]. cbn [doubled].
  destruct (Ascii.eqb x dquote) eqn:E.
  - apply Ascii.eqb_eq in E. subst x. cbn [contains]. rewrite IH.
    now destruct (Ascii.eqb dquote c).
  - cbn [contains]. now rewrite IH.
Qed.

Lemma dq_operand_doubled (scope : list string) (tail text : string) :
  match tail with
  | String c _ => Ascii.eqb c dquote = false
  | EmptyString => True
  end ->
  contains nul text = false ->
  existsb (name_eqb text) scope = false ->
  dq_operand scope tail (doubled text) = Text text.
Proof.
  intros Htail Hnul Hscope. unfold dq_operand.
  rewrite doubled_contains, Hnul, (scan_doubled tail Htail), String.eqb_refl.
  now rewrite Hscope.
Qed.

(** [X6] In a store the fill engine has reached, for every login that
    SQLite reads as a text (the token closes where the query means it to,
    holds no NUL, and its text is no name in reach of the inner [WHERE]),
    [get_user_actions_info] returns, its rows come in the order of their
    dates with NULL first, and each row accounts for every log row of the
    user on its date once: logins, logouts and actions add up to the number
    of those log rows, which is at least 1, and over all rows of the report
    they add up to the number of log rows of the user.  The user is the
    first whose login is that text. *)
Theorem actions_info_counts (date : timestamp -> option string) (s : store)
    (username text : string) :
  filled s ->
  dq_operand actions_scope actions_tail username = Text text ->
  exists usrs lgs rows,
    users s = Some usrs /\ logs s = Some lgs
    /\ get_user_actions_info date username s = (s, Returned rows)
    /\ Sorted (fun a b => key_leb a b = true) (map row_date rows)
    /\ (forall r, In r rows ->
          row_logins r + row_logouts r + row_actions r
          = Z.of_nat (List.length
              (on_date date (row_date r)
                 (logs_of lgs (user_id_of usrs text))))
          /\ 1 <= row_logins r + row_logouts r + row_actions r)
    /\ total (map (fun r => row_logins r + row_logouts r + row_actions r) rows)
       = Z.of_nat (List.length (logs_of lgs (user_id_of usrs text))).
Proof.
  intros Hfilled Hop.
  destruct (filled_is_sound s Hfilled)
    as [_ _ _ _ _ _ (usrs & lgs & Hu & Hl & _ & Hpairs)].
  exists usrs, lgs, (select_actions_info date lgs usrs text).
  split; [exact Hu|]. split; [exact Hl|]. split.
  { unfold get_user_actions_info. rewrite Hop. cbn [with_operand].
    now rewrite Hl, Hu. }
  split.
  { unfold select_actions_info. rewrite map_map. unfold row_date.
    cbn [fst]. rewrite map_id. apply sorted_keys_sorted. }
  apply (actions_info_partition date usrs lgs text).
  intros l Hin. exact (proj2 (Hpairs l Hin)).
Qed.

(** [X7] The login handed to the two reports is put between double quotes
    as it is, so SQLite reads each doubled double quote in it as one: the
    reports asked for a login with every double quote written twice are the
    reports of that login, whatever double quotes it holds, as long as it
    holds no NUL and is not the name of a column or of a result in reach. *)
Theorem doubled_quotes_find_login (date : timestamp -> option string)
    (s : store) (text : string) :
  contains nul text = false ->
  existsb (name_eqb text) comments_scope = false ->
  existsb (name_eqb text) actions_scope = false ->
  get_user_comments_info (doubled text) s
  = (s, match comment s, users s, post s with
        | Some cmts, Some usrs, Some psts =>
            Returned (select_comments_info cmts usrs psts text)
        | _, _, _ => Raised OperationalError
        end)
  /\ get_user_actions_info date (doubled text) s
     = (s, match logs s, users s with
           | Some lgs, Some usrs =>
               Returned (select_actions_info date lgs usrs text)
           | _, _ => Raised OperationalError
           end).
Proof.
  intros Hnul Hc Ha. unfold get_user_comments_info, get_user_actions_info.
  rewrite (dq_operand_doubled comments_scope comments_tail text eq_refl Hnul Hc).
  rewrite (dq_operand_doubled actions_scope actions_tail text eq_refl Hnul Ha).
  split; reflexivity.
Qed.

(* ------------------------------------------------------------------ *)
(** ** converter.py: what the written text keeps of a table *)

Lemma find_last {A} (p : A -> bool) (l : list A) (x : A) :
  find p (l ++ [x])
  = match find p l with
    | Some y => Some y
    | None => if p x then Some x else None
    end.
Proof.
  induction l as [|y l IH]; simpl; [reflexivity|].
  destruct (p y); [reflexivity|exact IH].
Qed.

Lemma dict_get_missing (key : string) (restval : cell) (d : dict) :
  ~ In key (map fst d) -> dict_get key restval d = restval.
Proof.
  unfold dict_get. intros H.
  destruct (find _ (rev d)) as [item|] eqn:E; [|reflexivity].
  apply find_some in E. destruct E as [Hin Hk]. apply String.eqb_eq in Hk.
  exfalso. apply H. apply in_map_iff. exists item.
  split; [exact Hk|]. now apply in_rev.
Qed.

Lemma dict_get_first (key : string) (restval v : cell) (d : dict) :
  ~ In key (map fst d) -> dict_get key restval ((key, v) :: d) = v.
Proof.
  intros H. pose proof (dict_get_missing key restval d H) as E.
  unfold dict_get in *. cbn [rev]. rewrite find_last.
  destruct (find _ (rev d)) as [item|] eqn:F.
  - apply find_some in F. destruct F as [Hin Hk]. apply String.eqb_eq in Hk.
    exfalso. apply H. apply in_map_iff. exists item.
    split; [exact Hk|]. now apply in_rev.
  - cbn [fst snd]. now rewrite String.eqb_refl.
Qed.

Lemma dict_get_later (key other : string) (restval v : cell) (d : dict) :
  other <> key ->
  dict_get key restval ((other, v) :: d) = dict_get key restval d.
Proof.
  intros H. unfold dict_get. cbn [rev]. rewrite find_last.
  destruct (find _ (rev d)); [reflexivity|]. cbn [fst].
  apply String.eqb_neq in H. now rewrite H.
Qed.

Lemma combine_keys {A B} (l : list A) (l' : list B) (x : A) :
  In x (map fst (combine l l')) -> In x l.
Proof.
  intros H. apply in_map_iff in H. destruct H as ([a b] & <- & Hin).
  now apply in_combine_l in Hin.
Qed.

Lemma zipped_row (restval : cell) (names : list string) :
  NoDup names ->
  forall row,
  map (fun key => dict_get key restval (combine names row)) names
  = firstn (List.length names) row
    ++ repeat restval (List.length names - List.length row).
Proof.
  induction 1 as [|name names Hname Hnames IH]; intros row; [reflexivity|].
  destruct row as [|v row].
  - assert (E : forall l : list string,
              map (fun key => dict_get key restval []) l
              = repeat restval (List.length l)).
    { induction l as [|k l IHl]; [reflexivity|].
      cbn [map List.length repeat]. now rewrite IHl. }
    exact (E (name :: names)).
  - cbn [combine map firstn List.length app Nat.sub]. f_equal.
    + apply dict_get_first. intros H. apply Hname. exact (combine_keys _ _ _ H).
    + rewrite <- IH. apply map_ext_in. intros key Hkey.
      apply dict_get_later. intros ->. contradiction.
Qed.

(** *** One field *)

Lemma append_assoc (a b c : string) :
  ((a ++ b) ++ c = a ++ (b ++ c))%string.
Proof. induction a as [|x a IH]; simpl; [reflexivity|now rewrite IH]. Qed.

Lemma append_nil_r (a : string) : (a ++ EmptyString = a)%string.
Proof. induction a as [|x a IH]; simpl; [reflexivity|now rewrite IH]. Qed.

Lemma append_inv_head (a b c : string) :
  (a ++ b = a ++ c)%string -> b = c.
Proof.
  induction a as [|x a IH]; simpl; intros H; [exact H|].
  injection H as H. now apply IH.
Qed.

Lemma at_sep_no_quote (t : string) :
  at_sep t = true ->
  match t with
  | String c _ => Ascii.eqb c dquote = false
  | EmptyString => True
  end.
Proof.
  destruct t as [|c t]; [trivial|]. cbn [at_sep]. intros H.
  apply orb_true_iff in H. destruct H as [H|H]; apply Ascii.eqb_eq in H;
    subst c; reflexivity.
Qed.

Lemma until_sep_at (t : string) :
  at_sep t = true -> until_sep t = (EmptyString, t).
Proof.
  destruct t as [|c t]; [discriminate|]. cbn [at_sep until_sep].
  now intros ->.
Qed.

Lemma until_sep_app (s t : string) :
  contains comma s = false -> contains cr s = false -> at_sep t = true ->
  until_sep (s ++ t) = (s, t).
Proof.
  intros Hc Hr Ht. induction s as [|x s IH].
  - now apply until_sep_at.
  - cbn [contains] in Hc, Hr.
    apply orb_false_elim in Hc. destruct Hc as [Hxc Hc].
    apply orb_false_elim in Hr. destruct Hr as [Hxr Hr].
    cbn [String.append until_sep]. rewrite Hxc, Hxr, (IH Hc Hr).
    reflexivity.
Qed.

Lemma read_field_written (s t : string) :
  at_sep t = true -> read_field (field s ++ t) = (s, t).
Proof.
  intros Ht. unfold field. destruct (needs_quotes s) eqn:E.
  - cbn [String.append read_field]. rewrite Ascii.eqb_refl.
    rewrite append_assoc. cbn [String.append].
    now rewrite (scan_doubled t (at_sep_no_quote t Ht)).
  - unfold needs_quotes in E.
    apply orb_false_elim in E. destruct E as [E _].
    apply orb_false_elim in E. destruct E as [E Hr].
    apply orb_false_elim in E. destruct E as [Hc Hq].
    pose proof (until_sep_app s t Hc Hr Ht) as U.
    destruct s as [|x s].
    + destruct t as [|c t]; [discriminate|].
      cbn [String.append read_field] in *.
      pose proof (at_sep_no_quote (String c t) Ht) as Hd. cbn in Hd.
      now rewrite Hd.
    + cbn [contains] in Hq. apply orb_false_elim in Hq.
      destruct Hq as [Hxq _].
      cbn [String.append read_field] in *. now rewrite Hxq.
Qed.

Lemma read_field_pair (t : string) :
  at_sep t = true ->
  read_field (String dquote (String dquote t)) = (EmptyString, t).
Proof.
  intros Ht. pose proof (at_sep_no_quote t Ht) as Hd.
  destruct t as [|c t]; [discriminate|].
  cbn [read_field scan_quoted]. rewrite !Ascii.eqb_refl. now rewrite Hd.
Qed.

(** *** One line *)

Lemma join_cons (f g : string) (fs : list string) :
  join (f :: g :: fs) = (f ++ String comma (join (g :: fs)))%string.
Proof. reflexivity. Qed.

Lemma line_injective (fs : list string) :
  forall f g gs r r',
  (join (map field (f :: fs)) ++ lineterminator ++ r
   = join (map field (g :: gs)) ++ lineterminator ++ r')%string ->
  f :: fs = g :: gs /\ r = r'.
Proof.
  induction fs as [|f2 fs IH]; intros f g gs r r' H.
  - destruct gs as [|g2 gs].
    + cbn [map join] in H. apply (f_equal read_field) in H.
      rewrite !read_field_written in H by reflexivity.
      injection H as -> ->. now split.
    + cbn [map] in H. rewrite join_cons in H. cbn [join] in H.
      rewrite append_assoc in H. apply (f_equal read_field) in H.
      rewrite !read_field_written in H by reflexivity.
      discriminate H.
  - destruct gs as [|g2 gs].
    + cbn [map] in H. rewrite join_cons in H. cbn [join] in H.
      rewrite append_assoc in H. apply (f_equal read_field) in H.
      rewrite !read_field_written in H by reflexivity.
      discriminate H.
    + cbn [map] in H. rewrite !join_cons in H.
      rewrite !append_assoc in H. apply (f_equal read_field) in H.
      rewrite !read_field_written in H by reflexivity.
      injection H as -> H.
      destruct (IH f2 g2 gs r r' H) as [E ->]. now rewrite E.
Qed.

Lemma field_first (s : string) :
  s <> EmptyString ->
  exists c t, field s = String c t /\ Ascii.eqb c cr = false.
Proof.
  intros Hs. unfold field. destruct (needs_quotes s) eqn:E.
  - eexists. eexists. split; reflexivity.
  - destruct s as [|c s]; [contradiction|]. exists c, s. split; [reflexivity|].
    unfold needs_quotes in E.
    apply orb_false_elim in E. destruct E as [E _].
    apply orb_false_elim in E. destruct E as [_ Hr].
    cbn [contains] in Hr. now apply orb_false_elim in Hr.
Qed.

Lemma field_empty (s : string) : field s = EmptyString -> s = EmptyString.
Proof.
  unfold field. destruct (needs_quotes s); [discriminate|trivial].
Qed.

Lemma writerow_one (c : cell) :
  writerow [c]
  = if String.eqb (field_text c) EmptyString
    then String dquote (String dquote lineterminator)
    else (field (field_text c) ++ lineterminator)%string.
Proof.
  unfold writerow. cbn [map join].
  destruct (String.eqb (field_text c) EmptyString) eqn:E.
  - apply String.eqb_eq in E. rewrite E. reflexivity.
  - apply String.eqb_neq in E.
    destruct (field (field_text c)) eqn:F; [|reflexivity].
    apply field_empty in F. contradiction.
Qed.

Lemma writerow_more (c1 c2 : cell) (cs : list cell) :
  writerow (c1 :: c2 :: cs)
  = (join (map field (map field_text (c1 :: c2 :: cs))) ++ lineterminator)%string.
Proof. unfold writerow. now rewrite map_map. Qed.

Lemma writerow_first (c : cell) (cs : list cell) :
  exists x t, writerow (c :: cs) = String x t /\ Ascii.eqb x cr = false.
Proof.
  destruct cs as [|c2 cs].
  - rewrite writerow_one. destruct (String.eqb _ _) eqn:E.
    + eexists. eexists. split; reflexivity.
    + apply String.eqb_neq in E.
      destruct (field_first _ E) as (x & t & -> & Hx).
      exists x. eexists. split; [reflexivity|exact Hx].
  - rewrite writerow_more. cbn [map]. rewrite join_cons.
    destruct (field_text c) as [|y s] eqn:E.
    + eexists. eexists. split; reflexivity.
    + destruct (field_first (String y s) ltac:(discriminate))
        as (x & t & -> & Hx).
      exists x. eexists. split; [reflexivity|exact Hx].
Qed.

Lemma writerow_head (c : cell) (cs : list cell) (r : string) :
  read_field (writerow (c :: cs) ++ r)
  = (field_text c,
     match cs with
     | [] => (lineterminator ++ r)%string
     | _ => String comma
              (join (map field (map field_text cs)) ++ lineterminator ++ r)
     end).
Proof.
  destruct cs as [|c2 cs].
  - rewrite writerow_one. destruct (String.eqb _ _) eqn:E.
    + apply String.eqb_eq in E. rewrite E.
      now rewrite <- (read_field_pair (lineterminator ++ r)).
    + rewrite append_assoc. now apply read_field_written.
  - rewrite writerow_more. cbn [map]. rewrite join_cons.
    rewrite !append_assoc. rewrite read_field_written by reflexivity.
    reflexivity.
Qed.

Lemma writerow_injective (xs ys : list cell) (r r' : string) :
  (writerow xs ++ r = writerow ys ++ r')%string ->
  map field_text xs = map field_text ys /\ r = r'.
Proof.
  intros H. destruct xs as [|x xs], ys as [|y ys].
  - apply (append_inv_head (writerow [])) in H. now split.
  - exfalso. destruct (writerow_first y ys) as (c & t & E & Hc).
    rewrite E in H. cbv in H. injection H as <-. discriminate Hc.
  - exfalso. destruct (writerow_first x xs) as (c & t & E & Hc).
    rewrite E in H. cbv in H. injection H as ->. discriminate Hc.
  - apply (f_equal read_field) in H. rewrite !writerow_head in H.
    injection H as Hx H. cbn [map]. rewrite Hx.
    destruct xs as [|x2 xs], ys as [|y2 ys].
    + apply (append_inv_head lineterminator) in H. now split.
    + discriminate H.
    + discriminate H.
    + try (injection H as H). apply line_injective in H.
      destruct H as [E ->]. cbn [map]. now rewrite E.
Qed.

(** *** The whole text *)

Lemma concat_cons (x : string) (xs : list string) :
  String.concat EmptyString (x :: xs)
  = (x ++ String.concat EmptyString xs)%string.
Proof.
  destruct xs as [|y xs]; [|reflexivity].
  cbn [String.concat]. now rewrite append_nil_r.
Qed.

Lemma dict_writerow_zipped (names : list string) (row : list cell) :
  NoDup names ->
  dict_writerow names (combine names row)
  = writerow (firstn (List.length names) row
              ++ repeat (Str EmptyString)
                   (List.length names - List.length row)).
Proof. intros H. unfold dict_writerow. now rewrite zipped_row. Qed.

Lemma dict_writerow_full (names : list string) (row : list cell) :
  NoDup names -> List.length row = List.length names ->
  dict_writerow names (combine names row) = writerow row.
Proof.
  intros H E. rewrite (dict_writerow_zipped names row H).
  rewrite <- E, firstn_all, Nat.sub_diag. cbn [repeat].
  now rewrite app_nil_r.
Qed.

Lemma rows_injective (names : list string) :
  NoDup names ->
  forall t t' : list (list cell),
  (forall row, In row t -> List.length row = List.length names) ->
  (forall row, In row t' -> List.length row = List.length names) ->
  String.concat EmptyString
    (map (fun row => dict_writerow names (combine names row)) t)
  = String.concat EmptyString
      (map (fun row => dict_writerow names (combine names row)) t') ->
  map (map field_text) t = map (map field_text) t'.
Proof.
  intros Hnames. induction t as [|x t IH]; intros t' Ht Ht' H.
  - destruct t' as [|y t']; [reflexivity|]. exfalso.
    cbn [map] in H. rewrite concat_cons in H.
    rewrite (dict_writerow_full names y Hnames (Ht' y (or_introl eq_refl)))
      in H.
    destruct y as [|c y]; [discriminate H|].
    destruct (writerow_first c y) as (a & b & E & _). rewrite E in H.
    discriminate H.
  - destruct t' as [|y t'].
    + exfalso. cbn [map] in H. rewrite concat_cons in H.
      rewrite (dict_writerow_full names x Hnames (Ht x (or_introl eq_refl)))
        in H.
      destruct x as [|c x]; [discriminate H|].
      destruct (writerow_first c x) as (a & b & E & _). rewrite E in H.
      discriminate H.
    + cbn [map] in H. rewrite !concat_cons in H.
      rewrite (dict_writerow_full names x Hnames (Ht x (or_introl eq_refl))),
              (dict_writerow_full names y Hnames (Ht' y (or_introl eq_refl)))
        in H.
      apply writerow_injective in H. destruct H as [E H].
      cbn [map]. rewrite E. f_equal.
      apply IH; [intros row Hr; apply Ht; now right
                |intros row Hr; apply Ht'; now right|exact H].
Qed.

(** [X8] What [__writer__] makes of a row that has not as many members as
    there are field names, no text holding a NUL: [dict(zip(field_names, row))] drops the members
    beyond the last field name, and [DictWriter] writes an empty field for
    each field name left without a member.  So, the field names being
    distinct, the text written is the header line and then for each row the
    line of its first members, filled up with empty fields. *)
Theorem writer_cuts_and_pads (obj_dir : string) (field_names : list string)
    (table : list (list cell)) (fs : files) :
  NoDup field_names ->
  followed table = true ->
  __writer__ obj_dir field_names table fs
  = Returned
      (write_file obj_dir
         (writerow (map Str field_names)
          ++ String.concat EmptyString
               (map (fun row =>
                       writerow (firstn (List.length field_names) row
                                 ++ repeat (Str EmptyString)
                                      (List.length field_names
                                       - List.length row)))
                    table))%string
         fs).
Proof.
  intros H Hf. unfold __writer__. rewrite Hf. f_equal. f_equal.
  unfold table_text, writeheader.
  rewrite (dict_writerow_full field_names (map Str field_names) H
             (length_map _ _)).
  f_equal. f_equal. apply map_ext. intros row.
  now apply dict_writerow_zipped.
Qed.

(** [X9] The file [__writer__] writes tells the table: two tables whose
    rows have as many members as there are (distinct) field names and that
    leave the same text in the file have the same field texts, row by row.  Quotes,
    commas and line ends inside a field do not run rows or fields together.
    What the text does not keep is the kind of a member: [None] and the
    empty [str] are both written as an empty field. *)
Theorem csv_text_tells_table (obj_dir : string) (field_names : list string)
    (t t' : list (list cell)) (fs fs' : files) :
  NoDup field_names ->
  (forall row, In row t -> List.length row = List.length field_names) ->
  (forall row, In row t' -> List.length row = List.length field_names) ->
  followed t = true -> followed t' = true ->
  (forall after after',
     __writer__ obj_dir field_names t fs = Returned after ->
     __writer__ obj_dir field_names t' fs' = Returned after' ->
     after obj_dir = after' obj_dir) ->
  map (map field_text) t = map (map field_text) t'.
Proof.
  intros Hnames Ht Ht' Hf Hf' H. unfold __writer__ in H.
  rewrite Hf, Hf' in H. specialize (H _ _ eq_refl eq_refl).
  unfold write_file in H. rewrite String.eqb_refl in H.
  injection H as H. unfold table_text in H.
  apply append_inv_head in H.
  now apply (rows_injective field_names Hnames t t').
Qed.

(* ------------------------------------------------------------------ *)
(** ** main.py: fill mode as a whole *)

Lemma when_returned (count : option Z) (fill : Z -> M unit) (s s' : store) :
  main.when count fill s = (s', Returned tt) ->
  (asked count = 0%nat /\ s' = s)
  \/ exists n, count = Some n /\ n <> 0 /\ fill n s = (s', Returned tt).
Proof.
  unfold main.when. destruct count as [n|].
  - destruct (n =? 0) eqn:E.
    + apply Z.eqb_eq in E. subst n. intros H. injection H as <-. now left.
    + apply Z.eqb_neq in E. intros H. right. now exists n.
  - intros H. injection H as <-. now left.
Qed.

Lemma gained_refl (s : store) : gained s s 0 0 0 0 0 0.
Proof. unfold gained. lia. Qed.

Lemma gained_trans (s s1 s2 : store) (u b p c l h u' b' p' c' l' h' : nat) :
  gained s s1 u b p c l h -> gained s1 s2 u' b' p' c' l' h' ->
  gained s s2 (u + u') (b + b') (p + p') (c + c') (l + l') (h + h').
Proof. unfold gained. lia. Qed.

Lemma fill_users_gained m count names s s' :
  fill_users m count names s = (s', Returned tt) ->
  gained s s' (Z.to_nat count) 0 0 0 0 0.
Proof.
  intros H. apply fill_users_returned in H.
  destruct H as (usrs & new & Hu & -> & _ & Hlen & _).
  unfold gained, rows_in. cbn [get set main_users main_blog main_post
    main_comment logging_logs users blog post comment logs].
  rewrite Hu, length_app, added_length, Hlen. lia.
Qed.

Lemma fill_blogs_gained m count draw s s' :
  fill_blogs m count draw s = (s', Returned tt) ->
  gained s s' 0 (Z.to_nat count) 0 0 0 0.
Proof.
  intros H. apply fill_blogs_returned in H.
  destruct H as (usrs & blgs & new & Hu & Hb & -> & Hlen & _).
  unfold gained, rows_in. cbn [get set main_users main_blog main_post
    main_comment logging_logs users blog post comment logs].
  rewrite Hb, length_app, added_length, Hlen. lia.
Qed.

Lemma fill_posts_gained m count draw s s' :
  fill_posts m count draw s = (s', Returned tt) ->
  gained s s' 0 0 (Z.to_nat count) 0 (Z.to_nat count) (2 * Z.to_nat count).
Proof.
  intros H. apply fill_posts_returned in H.
  destruct H as (usrs & blgs & psts & lgs & new & lnew
                 & Hu & Hb & Hp & Hl & -> & [Hlen Hllen] & _).
  unfold gained, rows_in. cbn [get set main_users main_blog main_post
    main_comment logging_logs users blog post comment logs].
  rewrite Hp, Hl, !length_app, !added_length, Hlen. lia.
Qed.

Lemma fill_comments_gained m count draw s s' :
  fill_comments m count draw s = (s', Returned tt) ->
  gained s s' 0 0 0 (Z.to_nat count) (Z.to_nat count) (Z.to_nat count).
Proof.
  intros H. apply fill_comments_returned in H.
  destruct H as (usrs & psts & cmts & lgs & new & lnew
                 & Hu & Hp & Hc & Hl & -> & [Hlen Hllen] & _).
  unfold gained, rows_in. cbn [get set main_users main_blog main_post
    main_comment logging_logs users blog post comment logs].
  rewrite Hc, Hl, !length_app, !added_length, Hlen, Hllen. lia.
Qed.

Lemma fill_logs_login_logout_gained m is_login draw s s' :
  fill_logs_login_logout m is_login draw s = (s', Returned tt) ->
  gained s s' 0 0 0 0 (rows_in main_users s) (rows_in main_users s).
Proof.
  intros H. apply fill_logs_login_logout_returned in H.
  destruct H as (usrs & lgs & new & Hu & Hl & -> & Hlen & _).
  unfold gained, rows_in. cbn [get set main_users main_blog main_post
    main_comment logging_logs users blog post comment logs].
  rewrite Hu, Hl, !length_app, !added_length, Hlen. lia.
Qed.

Lemma login_logout_rounds_gained m w (rounds : list nat) :
  forall s s',
  main.login_logout_rounds m w rounds s = (s', Returned tt) ->
  gained s s' 0 0 0 0 (2 * List.length rounds * rows_in main_users s)
    (2 * List.length rounds * rows_in main_users s).
Proof.
  induction rounds as [|i rounds IH]; intros s s' H.
  - injection H as <-. apply gained_refl.
  - cbn [main.login_logout_rounds] in H.
    apply bind_returned in H. destruct H as (s1 & [] & H1 & H).
    apply bind_returned in H. destruct H as (s2 & [] & H2 & H).
    apply fill_logs_login_logout_gained in H1, H2. apply IH in H.
    unfold gained in *. cbn [List.length].
    destruct H1 as (U1 & B1 & P1 & C1 & L1), H2 as (U2 & B2 & P2 & C2 & L2),
             H as (U3 & B3 & P3 & C3 & L3).
    rewrite U2, U1 in L3. rewrite U1 in L2. rewrite !Nat.add_0_r in *.
    replace (2 * S (List.length rounds) * rows_in main_users s)%nat
      with (rows_in main_users s + rows_in main_users s
            + 2 * List.length rounds * rows_in main_users s)%nat by lia.
    lia.
Qed.

Lemma when_gained (count : option Z) (fill : Z -> M unit) (s s' : store)
    (u b p c l h : nat -> nat) :
  (forall n s', fill n s = (s', Returned tt) ->
     gained s s' (u (Z.to_nat n)) (b (Z.to_nat n)) (p (Z.to_nat n))
       (c (Z.to_nat n)) (l (Z.to_nat n)) (h (Z.to_nat n))) ->
  u 0%nat = 0%nat -> b 0%nat = 0%nat -> p 0%nat = 0%nat -> c 0%nat = 0%nat ->
  l 0%nat = 0%nat -> h 0%nat = 0%nat ->
  main.when count fill s = (s', Returned tt) ->
  gained s s' (u (asked count)) (b (asked count)) (p (asked count))
    (c (asked count)) (l (asked count)) (h (asked count)).
Proof.
  intros Hfill U B P C L H0 H. apply when_returned in H.
  destruct H as [[E ->]|(n & -> & _ & H)].
  - rewrite E, U, B, P, C, L, H0. apply gained_refl.
  - now apply Hfill.
Qed.

Lemma fill_stages_gained m (args : main.arguments) w (s s' : store) :
  fill_stages m args w s = (s', Returned tt) ->
  gained s s'
    (asked (main.users_count args)) (asked (main.blogs_count args))
    (asked (main.posts_count args)) (asked (main.comments_count args))
    (asked (main.posts_count args) + asked (main.comments_count args)
     + 2 * asked (main.actions_count args) * rows_in main_users s')
    (2 * asked (main.posts_count args) + asked (main.comments_count args)
     + 2 * asked (main.actions_count args) * rows_in main_users s').
Proof.
  unfold fill_stages. intros H.
  apply bind_returned in H. destruct H as (s1 & [] & H1 & H).
  apply bind_returned in H. destruct H as (s2 & [] & H2 & H).
  apply bind_returned in H. destruct H as (s3 & [] & H3 & H).
  apply bind_returned in H. destruct H as (s4 & [] & H4 & H5).
  apply (when_gained _ _ _ _ (fun n => n) (fun _ => 0) (fun _ => 0)
           (fun _ => 0) (fun _ => 0) (fun _ => 0))%nat in H1;
    [|intros n t; apply fill_users_gained|reflexivity..].
  apply (when_gained _ _ _ _ (fun _ => 0) (fun n => n) (fun _ => 0)
           (fun _ => 0) (fun _ => 0) (fun _ => 0))%nat in H2;
    [|intros n t; apply fill_blogs_gained|reflexivity..].
  apply (when_gained _ _ _ _ (fun _ => 0) (fun _ => 0) (fun n => n)
           (fun _ => 0) (fun n => n) (fun n => 2 * n))%nat in H3;
    [|intros n t; apply fill_posts_gained|reflexivity..].
  apply (when_gained _ _ _ _ (fun _ => 0) (fun _ => 0) (fun _ => 0)
           (fun n => n) (fun n => n) (fun n => n))%nat in H4;
    [|intros n t; apply fill_comments_gained|reflexivity..].
  apply (when_gained _ _ _ _ (fun _ => 0) (fun _ => 0) (fun _ => 0)
           (fun _ => 0) (fun n => 2 * n * rows_in main_users s4)
           (fun n => 2 * n * rows_in main_users s4))%nat in H5;
    [|intros n t Ht; apply login_logout_rounds_gained in Ht;
      now rewrite range_length in Ht|reflexivity..].
  unfold gained in *. cbv beta in *.
  destruct H1 as (U1 & B1 & P1 & C1 & L1), H2 as (U2 & B2 & P2 & C2 & L2),
           H3 as (U3 & B3 & P3 & C3 & L3), H4 as (U4 & B4 & P4 & C4 & L4),
           H5 as (U5 & B5 & P5 & C5 & L5).
  rewrite Nat.add_0_r in U5. rewrite U5.
  set (k := (2 * asked (main.actions_count args) * rows_in main_users s4)%nat)
    in *.
  lia.
Qed.

Lemma create_tables_gained (s : store) :
  gained s (fst (create_tables s)) 0 0 0 0 0 0.
Proof.
  destruct s as [[u|] [b|] [p|] [c|] [e|] [sp|] [l|]];
    unfold gained, rows_in; simpl; lia.
Qed.

Lemma try_create_tables_store (s : store) :
  fst (main.try_create_tables s) = fst (create_tables s).
Proof.
  unfold main.try_create_tables.
  now destruct (create_tables s) as [s' [[]|[]|]].
Qed.

Lemma create_tables_raises_one (s : store) :
  snd (create_tables s) = Returned tt
  \/ snd (create_tables s) = Raised OperationalError.
Proof.
  destruct s as [[u|] [b|] [p|] [c|] [e|] [sp|] [l|]];
    first [now left|now right].
Qed.

Lemma try_create_tables_returns (s : store) :
  exists out, snd (main.try_create_tables s) = Returned out.
Proof.
  unfold main.try_create_tables.
  destruct (create_tables s) as [s' o] eqn:E.
  destruct (create_tables_raises_one s) as [H|H]; rewrite E in H;
    cbn [snd] in H; subst o; eexists; reflexivity.
Qed.


Lemma fill_stage_start (flag : bool) (s : store) :
  exists out,
    (if flag then main.try_create_tables else ret []) s
    = (if flag then fst (create_tables s) else s, Returned out).
Proof.
  destruct flag.
  - destruct (try_create_tables_returns s) as (out & Hout).
    pose proof (try_create_tables_store s) as Hs. exists out.
    destruct (main.try_create_tables s) as [v o]. cbn [fst snd] in *.
    now subst.
  - now exists [].
Qed.

Lemma fill_run_ends (m : modules) (w : main.world) (args : namespace)
    (pc : machine) :
  let start := if main.create_tables_flag (counts args)
               then fst (create_tables (databases pc)) else databases pc in
  let stages := fill_stages m (counts args) w start in
  let e := fill_run m w args pc in
  filesystem (after e) = filesystem pc
  /\ (exists out,
        (if main.create_tables_flag (counts args)
         then main.try_create_tables else ret []) (databases pc)
        = (start, Returned out)
        /\ printed e = out)
  /\ match snd stages with
     | Returned _ => status e = Returned tt /\ databases (after e) = fst stages
     | Raised x => status e = Raised x /\ databases (after e) = start
     | Misread => status e = Misread /\ databases (after e) = start
     end.
Proof.
  intros start stages e. subst e. unfold fill_run.
  destruct (fill_stage_start (main.create_tables_flag (counts args))
              (databases pc)) as (out & Hout).
  fold start in Hout.
  assert (E : (if main.create_tables_flag (counts args)
               then executescript main.try_create_tables
                      (connect (databases pc))
               else (connect (databases pc), Returned []))
              = (connect start, Returned out)).
  { unfold executescript, connect. cbn [view]. subst start.
    destruct (main.create_tables_flag (counts args)).
    - now rewrite Hout.
    - now injection Hout as <-. }
  cbv zeta. rewrite E. unfold execute, connect. cbn [view disk].
  fold stages. destruct stages as [v [[]|x|]]; cbn [fst snd];
    (split; [reflexivity|]); (split; [exists out; now split|]);
    now split.
Qed.


(** *** What a run can reach *)









(** [X11] The rows a run in fill mode that comes to its end has added:
    as many users, blogs, posts and comments as the options ask for (none
    for an option left out or given as 0), and to logs one row for each
    post, one more for each post whose deletion was drawn, one for each
    comment, and for each round of [-l] one login and one logout for every
    user there is after the users of this run were added. *)
Theorem fill_run_counts (date : timestamp -> option string) (m : modules)
    (w : main.world) (args : namespace) (pc : machine) :
  given (login args) = None -> fill args = true ->
  let e := run date m w args pc in
  status e = Returned tt ->
  gained (databases pc) (databases (after e))
    (asked (main.users_count (counts args)))
    (asked (main.blogs_count (counts args)))
    (asked (main.posts_count (counts args)))
    (asked (main.comments_count (counts args)))
    (asked (main.posts_count (counts args))
     + asked (main.comments_count (counts args))
     + 2 * asked (main.actions_count (counts args))
       * rows_in main_users (databases (after e)))
    (2 * asked (main.posts_count (counts args))
     + asked (main.comments_count (counts args))
     + 2 * asked (main.actions_count (counts args))
       * rows_in main_users (databases (after e))).
Proof.
  intros Hlogin Hfill. cbv zeta. unfold run. rewrite Hlogin, Hfill.
  intros Hstatus.
  destruct (fill_run_ends m w args pc) as (_ & _ & H). cbv zeta in H.
  set (start := if main.create_tables_flag (counts args)
                then fst (create_tables (databases pc)) else databases pc)
    in *.
  assert (Hstart : gained (databases pc) start 0 0 0 0 0 0).
  { subst start. destruct (main.create_tables_flag (counts args));
      [apply create_tables_gained|apply gained_refl]. }
  destruct (fill_stages m (counts args) w start) as [s' [[]|x|]] eqn:E;
    cbn [fst snd] in H; destruct H as [H1 H2];
    try (rewrite H1 in Hstatus; discriminate Hstatus).
  rewrite H2. apply fill_stages_gained in E.
  exact (gained_trans _ _ _ _ _ _ _ _ _ _ _ _ _ _ _ Hstart E).
Qed.



(* ------------------------------------------------------------------ *)
(** ** A run that fills every table comes to its end *)








(* ------------------------------------------------------------------ *)
(** ** The further statements at work *)

Lemma comments_fields_distinct : NoDup comments_fields.
Proof. repeat constructor; simpl; intuition discriminate. Qed.

Lemma general_fields_distinct : NoDup general_fields.
Proof. repeat constructor; simpl; intuition discriminate. Qed.


Lemma fills_only_add_witness :
  let s' := fst (fill_users all_modules 2 (fun _ => "Ada") sample) in
  grows main_users sample s'
  /\ same main_blog sample s' /\ same main_post sample s'
  /\ same main_comment sample s' /\ same logging_logs sample s'
  /\ same logging_event_type sample s' /\ same logging_space_type sample s'.
Proof.
  apply (proj1 (fills_only_add all_modules sample) 2 (fun _ => "Ada")).
  - vm_compute. discriminate.
  - reflexivity.
Defined.

Lemma fill_comments_logs_witness :
  exists (new_comments : list comment_row) (new_logs : list logs_row),
    fill_comments all_modules 2 sample_comment_draw sample
    = (set logging_logs (Some (sample_logs ++ new_logs))
         (set main_comment (Some (sample_comments ++ new_comments)) sample),
       Returned tt)
    /\ map comment_author_id new_comments = [Some 1; Some 2]
    /\ map logs_user_id new_logs = [Some 2; Some 3].
Proof.
  destruct (fill_comments_logs all_modules 2 sample_comment_draw sample
              sample_users sample_posts sample_comments sample_logs
              ltac:(lia) eq_refl ltac:(discriminate) eq_refl
              ltac:(discriminate) eq_refl eq_refl
              (fun _ _ _ => eq_refl)
              (fun _ _ =>
                 sample_clock_in_range now_ (days 1) ltac:(simpl; lia)))
    as (new_comments & new_logs & E & _ & _ & _ & A & L & _).
  exists new_comments, new_logs. split; [exact E|]. split; [exact A|exact L].
Defined.

Lemma fills_keep_populated_witness : consistent grown.
Proof. apply (fills_keep_populated grown). exact filled_grown. Defined.

Lemma fills_keep_sound_witness : sound logged_in.
Proof. apply (fills_keep_sound logged_in). exact filled_logged_in. Defined.

Lemma actions_info_counts_witness :
  exists usrs lgs rows,
    users grown = Some usrs /\ logs grown = Some lgs
    /\ get_user_actions_info sample_date "Grace O'Hara" grown
       = (grown, Returned rows)
    /\ Sorted (fun a b => key_leb a b = true) (map row_date rows)
    /\ (forall r, In r rows ->
          row_logins r + row_logouts r + row_actions r
          = Z.of_nat (List.length
              (on_date sample_date (row_date r)
                 (logs_of lgs (user_id_of usrs "Grace O'Hara"))))
          /\ 1 <= row_logins r + row_logouts r + row_actions r)
    /\ total (map (fun r => row_logins r + row_logouts r + row_actions r) rows)
       = Z.of_nat (List.length (logs_of lgs (user_id_of usrs "Grace O'Hara"))).
Proof.
  apply (actions_info_counts sample_date grown "Grace O'Hara" "Grace O'Hara"
           filled_grown).
  reflexivity.
Defined.

Lemma doubled_quotes_find_login_witness :
  get_user_comments_info (doubled (String dquote EmptyString)) sample
  = (sample,
     Returned (select_comments_info sample_comments sample_users sample_posts
                 (String dquote EmptyString)))
  /\ get_user_actions_info sample_date (doubled (String dquote EmptyString))
       sample
     = (sample,
        Returned (select_actions_info sample_date sample_logs sample_users
                    (String dquote EmptyString))).
Proof.
  apply (doubled_quotes_find_login sample_date sample
           (String dquote EmptyString)); reflexivity.
Defined.

Lemma writer_cuts_and_pads_witness :
  __writer__ "comments.csv" comments_fields
    [[Str "Ada"; Str "Engines"];
     [Str "Bob"; Str "Looms"; Str "Ada"; Num 1; Num 2]] (fun _ => None)
  = Returned
      (write_file "comments.csv"
         (writerow (map Str comments_fields)
          ++ writerow [Str "Ada"; Str "Engines"; Str EmptyString;
                       Str EmptyString]
          ++ writerow [Str "Bob"; Str "Looms"; Str "Ada"; Num 1])%string
         (fun _ => None)).
Proof.
  apply (writer_cuts_and_pads "comments.csv" comments_fields
           [[Str "Ada"; Str "Engines"];
            [Str "Bob"; Str "Looms"; Str "Ada"; Num 1; Num 2]]
           (fun _ => None) comments_fields_distinct).
  reflexivity.
Defined.

Lemma csv_text_tells_table_witness :
  map (map field_text) [[Nothing; Num 1; Num 0; Num 0]]
  = map (map field_text) [[Str EmptyString; Num 1; Num 0; Num 0]].
Proof.
  apply (csv_text_tells_table "general.csv" general_fields
           [[Nothing; Num 1; Num 0; Num 0]]
           [[Str EmptyString; Num 1; Num 0; Num 0]]
           (fun _ => None) (fun _ => None) general_fields_distinct).
  - intros row [<-|[]]. reflexivity.
  - intros row [<-|[]]. reflexivity.
  - reflexivity.
  - reflexivity.
  - intros after after' H H'. injection H as <-. injection H' as <-.
    reflexivity.
Defined.


Lemma fill_run_counts_witness :
  gained fresh
    (databases (after (run sample_date all_modules sample_world full_run
                         new_machine)))
    2 1 2 2 8 10.
Proof.
  apply (fill_run_counts sample_date all_modules sample_world full_run
           new_machine); reflexivity.
Defined.



